(** * proplot/axes/geo.py: a shallow embedding of the geographic axes

    The module wraps two cartographic back ends (cartopy and basemap) behind
    one axes class.  Its own logic is option normalisation, validation
    raises, state caching and compatibility shims; those are embedded here.

    Conventions of the embedding
    - Python numbers (int and float ticks, latmax, eps) are exact rationals
      [Q]; IEEE rounding is not modelled.
    - A function that can raise returns [result A].
    - Methods that read or mutate [self], allocate objects or call code that
      is outside this module run in the monad [M] over a [World]. *)

From Stdlib Require Import QArith Qabs Qround Lqa.
From stdpp Require Import gmap strings list sorting.
From Equations Require Import Equations.

Local Open Scope Q_scope.
Set Warnings "-register-all".

(** ** Exceptions and results *)

Inductive exn :=
| ValueError
| IndexError
| TypeError
| KeyError
| AttributeError
| ModuleNotFoundError
| ExternalError (name : string).

Inductive result (A : Type) :=
| Ok (a : A)
| Raise (e : exn).
Arguments Ok {A} a.
Arguments Raise {A} e.

(** ** Numbers *)

Definition Qgt_bool (a b : Q) : bool := negb (Qle_bool a b).

#[global] Instance Qle_dec_rel : RelDecision Qle.
Proof.
  intros x y. destruct (Qlt_le_dec y x) as [H | H].
  - right. apply Qlt_not_le. exact H.
  - left. exact H.
Defined.

(** Python's [sorted]: a stable merge sort by [<=]. *)
Definition sorted (ticks : list Q) : list Q := merge_sort Qle ticks.

(** Python's [ticks[-1]]; the callers guard against the empty list. *)
Definition last_tick (ticks : list Q) : option Q :=
  ticks !! (length ticks - 1)%nat.

(** ** Python values *)

(** Heap address of a gridliner object. *)
Definition loc := positive.

(** [VObj mro attrs] is an object of a library class: the names of the
    classes it is an instance of, most specific first, and the attributes the
    module reads from it.  [VRef l] is a reference to a gridliner, the one
    kind of object whose attributes the module assigns. *)
Inductive pyval :=
| VNone
| VBool (b : bool)
| VInt (n : Z)
| VFloat (q : Q)
| VStr (s : string)
| VList (l : list pyval)
| VTuple (l : list pyval)
| VArray (l : list pyval)
| VDict (d : list (string * pyval))
| VObj (mro : list string) (attrs : list (string * pyval))
| VRef (l : loc).

(** Keyword arguments and dict literals: insertion-ordered, keys unique. *)
Definition kwargs := list (string * pyval).

Definition is_none (v : pyval) : bool :=
  match v with VNone => true | _ => false end.

Definition not_none (v : pyval) : bool := negb (is_none v).

(** [isinstance(v, str)]: every string is a [VStr]. *)
Definition is_str (v : pyval) : bool :=
  match v with VStr _ => true | _ => false end.

Fixpoint dict_get (k : string) (d : kwargs) : option pyval :=
  match d with
  | [] => None
  | (k', v) :: d' => if String.eqb k k' then Some v else dict_get k d'
  end.

(** [d[k] = v] *)
Fixpoint dict_set (k : string) (v : pyval) (d : kwargs) : kwargs :=
  match d with
  | [] => [(k, v)]
  | (k', v') :: d' =>
      if String.eqb k k' then (k, v) :: d' else (k', v') :: dict_set k v d'
  end.

(** [d.update(other)] *)
Definition dict_update (d other : kwargs) : kwargs :=
  fold_left (fun acc kv => dict_set (fst kv) (snd kv) acc) other d.

Definition dict_remove (k : string) (d : kwargs) : kwargs :=
  List.filter (fun kv => negb (String.eqb k (fst kv))) d.

Definition mem_string (k : string) (ks : list string) : bool :=
  existsb (String.eqb k) ks.

(** [x.get(k, default)] and reading a parameter whose default is [None]. *)
Definition dict_get_default (k : string) (dflt : pyval) (d : kwargs) : pyval :=
  match dict_get k d with Some v => v | None => dflt end.

Definition arg (k : string) (kw : kwargs) : pyval := dict_get_default k VNone kw.

(** Class names used by [isinstance]. *)
Definition class_mro (v : pyval) : list string :=
  match v with
  | VNone => ["NoneType"; "object"]
  | VBool _ => ["bool"; "int"; "object"]
  | VInt _ => ["int"; "object"]
  | VFloat _ => ["float"; "object"]
  | VStr _ => ["str"; "object"]
  | VList _ => ["list"; "object"]
  | VTuple _ => ["tuple"; "object"]
  | VArray _ => ["numpy.ndarray"; "object"]
  | VDict _ => ["dict"; "object"]
  | VObj mro _ => mro
  | VRef _ => ["cartopy.mpl.gridliner.Gridliner"; "object"]
  end.

Definition isinstance (v : pyval) (cls : string) : bool :=
  mem_string cls (class_mro v).

(** [isinstance(v, (c1, c2, ...))] *)
Definition isinstance_any (v : pyval) (clss : list string) : bool :=
  existsb (isinstance v) clss.

(** [type(v).__name__] *)
Definition type_name (v : pyval) : string :=
  match class_mro v with c :: _ => c | [] => "object" end.

(** Numbers: [bool] and [int] and [float] all take part in arithmetic. *)
Definition number_of (v : pyval) : option Q :=
  match v with
  | VBool b => Some (if b then 1 else 0)
  | VInt n => Some (inject_Z n)
  | VFloat q => Some q
  | _ => None
  end.

Definition as_number (v : pyval) : result Q :=
  match number_of v with Some q => Ok q | None => Raise TypeError end.

(** Truth value testing.  An array of more than one element has no truth
    value. *)
Fixpoint truthy (v : pyval) : result bool :=
  match v with
  | VNone => Ok false
  | VBool b => Ok b
  | VInt n => Ok (negb (n =? 0)%Z)
  | VFloat q => Ok (negb (Qeq_bool q 0))
  | VStr s => Ok (negb (String.eqb s ""))
  | VList l | VTuple l => Ok (negb (Nat.eqb (length l) 0))
  | VDict d => Ok (negb (Nat.eqb (length d) 0))
  | VArray [] => Ok false
  | VArray [x] => truthy x
  | VArray _ => Raise ValueError
  | VObj _ _ => Ok true
  | VRef _ => Ok true
  end.

(** The one-character substrings of a string, in order. *)
Fixpoint chars (s : string) : list string :=
  match s with
  | EmptyString => []
  | String c s' => String c EmptyString :: chars s'
  end.

(** Iterating over a value: [list(v)], unpacking, [for x in v]. *)
Definition iterate (v : pyval) : result (list pyval) :=
  match v with
  | VList l | VTuple l | VArray l => Ok l
  | VDict d => Ok (List.map (fun kv => VStr (fst kv)) d)
  | VStr s => Ok (List.map VStr (chars s))
  | _ => Raise TypeError
  end.

(** A value unpacked as keywords. *)
Definition as_kwargs (v : pyval) : result kwargs :=
  match v with VDict d => Ok d | _ => Raise TypeError end.

(** [==] on the values compared in this module: numbers by value, strings
    and [None] structurally, a gridliner by identity. *)
Definition py_eq (a b : pyval) : bool :=
  match number_of a, number_of b with
  | Some x, Some y => Qeq_bool x y
  | _, _ =>
      match a, b with
      | VNone, VNone => true
      | VStr s, VStr t => String.eqb s t
      | VRef l, VRef m => Pos.eqb l m
      | _, _ => false
      end
  end.

(** ** GeoAxes: the static helpers *)

(** [np.atleast_1d]: a sequence becomes an array of its items, a scalar an
    array of one item. *)
Definition atleast_1d (v : pyval) : pyval :=
  match v with
  | VList l | VTuple l | VArray l => VArray l
  | _ => VArray [v]
  end.

(** The items of a list, tuple or array. *)
Definition items (v : pyval) : list pyval :=
  match v with
  | VList l | VTuple l | VArray l => l
  | _ => []
  end.

(** [len(v)] of a list, tuple or array. *)
Definition len (v : pyval) : nat := length (items v).

(** [char in labels] for a one-character [char]. *)
Definition char_in (char labels : string) : bool := mem_string char (chars labels).

(** ** The world: the axes instance, the gridliners, and the outside *)

(** [_version]: major and minor number, compared in that order. *)
Definition version := (nat * nat)%type.

Definition version_ltb (a b : version) : bool :=
  (fst a <? fst b)%nat || ((fst a =? fst b)%nat && (snd a <? snd b)%nat).

Definition version_geb (a b : version) : bool := negb (version_ltb a b).

(** [_version('0.18')] *)
Definition v0_18 : version := (0, 18)%nat.

(** A call that leaves this module: the callee, its positional and its
    keyword arguments.  A method call passes the receiver first. *)
Inductive event :=
| Call (fn : string) (args : list pyval) (kw : kwargs).

(** An instance of [_GeoAxis]; [major] and [minor] are flattened. *)
Record GeoAxis := mkGeoAxis {
  isDefault_majfmt : bool;
  isDefault_majloc : bool;
  isDefault_minloc : bool;
  major_formatter : pyval;
  major_locator : pyval;
  minor_locator : pyval;
  _interval : pyval;
  _latmax : pyval
}.

(** The attributes this module keeps on an axes instance.  The attributes
    named [_<name>_feature] are kept in [_features] under [<name>]. *)
Record Axes := mkAxes {
  _boundinglat : pyval;
  _map_projection : pyval;
  _gridlines_major : pyval;
  _gridlines_minor : pyval;
  _lonaxis : GeoAxis;
  _lataxis : GeoAxis;
  _features : kwargs;
  _map_boundary : pyval;
  _has_recurred : pyval;
  _lonlines_major : pyval;
  _lonlines_minor : pyval;
  _latlines_major : pyval;
  _latlines_minor : pyval
}.

(** What the module finds when it is imported. [CARTOPY_RESOS] and
    [CARTOPY_FEATURES] are tables of [proplot.constructor]. *)
Record Env := mkEnv {
  cartopy_installed : bool;
  basemap_installed : bool;
  _version_cartopy : version;
  CARTOPY_RESOS : kwargs;
  CARTOPY_FEATURES : kwargs
}.

(** [oracle] answers the calls that leave the module: given the calls so
    far, the last one being the call to answer, it returns or raises. *)
Record World := mkWorld {
  env : Env;
  self : Axes;
  heap : gmap loc (gmap string pyval);
  log : list event;
  oracle : list event -> result pyval
}.

Definition set_self (a : Axes) (w : World) : World :=
  mkWorld (env w) a (heap w) (log w) (oracle w).

Definition set_heap (h : gmap loc (gmap string pyval)) (w : World) : World :=
  mkWorld (env w) (self w) h (log w) (oracle w).

Definition set_log (l : list event) (w : World) : World :=
  mkWorld (env w) (self w) (heap w) l (oracle w).

(** ** The monad of methods *)

Definition M (A : Type) : Type := World -> result A * World.

#[global] Instance M_ret : MRet M := fun A a w => (Ok a, w).

#[global] Instance M_bind : MBind M := fun A B f m w =>
  match m w with
  | (Ok a, w') => f a w'
  | (Raise e, w') => (Raise e, w')
  end.

Definition raise {A} (e : exn) : M A := fun w => (Raise e, w).

Definition lift {A} (r : result A) : M A := fun w => (r, w).

Definition get_env : M Env := fun w => (Ok (env w), w).

Definition get_self : M Axes := fun w => (Ok (self w), w).

Definition modify_self (f : Axes -> Axes) : M unit :=
  fun w => (Ok tt, set_self (f (self w)) w).

(** A call that leaves the module. *)
Definition ext_call (fn : string) (args : list pyval) (kw : kwargs) : M pyval :=
  fun w =>
    let l := log w ++ [Call fn args kw] in
    (oracle w l, set_log l w).

(** [if c: body] *)
Definition when (c : bool) (body : M unit) : M unit :=
  if c then body else mret tt.

(** [for x in xs: body x] *)
Fixpoint for_each {A} (xs : list A) (body : A -> M unit) : M unit :=
  match xs with
  | [] => mret tt
  | x :: xs' => body x ≫= fun _ => for_each xs' body
  end.

(** [with cm: body], for a context manager whose [__enter__] and [__exit__]
    are outside the module: [__exit__] always runs; an exception of the body
    is re-raised unless [__exit__] returns a true value. *)
Definition with_exit (cm : pyval) (body : M unit) : M unit :=
  fun w =>
    match body w with
    | (Ok _, w') => (ext_call "__exit__" [cm] [] ≫= fun _ => mret tt) w'
    | (Raise e, w') =>
        (ext_call "__exit__" [cm; VStr "exc"] [] ≫= fun r =>
         lift (truthy r) ≫= fun suppress : bool =>
         if suppress then mret tt else raise e) w'
    end.

Definition with_context (cm : pyval) (body : M unit) : M unit :=
  ext_call "__enter__" [cm] [] ≫= fun _ => with_exit cm body.

(** Arithmetic on numbers: [int] with [int] stays [int]. *)
Definition int_of (v : pyval) : option Z :=
  match v with
  | VBool b => Some (if b then 1 else 0)%Z
  | VInt n => Some n
  | _ => None
  end.

Definition py_add (a b : pyval) : result pyval :=
  match int_of a, int_of b with
  | Some x, Some y => Ok (VInt (x + y))
  | _, _ =>
      match number_of a, number_of b with
      | Some x, Some y => Ok (VFloat (x + y))
      | _, _ => Raise TypeError
      end
  end.

Definition py_sub (a b : pyval) : result pyval :=
  match int_of a, int_of b with
  | Some x, Some y => Ok (VInt (x - y))
  | _, _ =>
      match number_of a, number_of b with
      | Some x, Some y => Ok (VFloat (x - y))
      | _, _ => Raise TypeError
      end
  end.

(** [getattr(obj, name)] on a library object. *)
Definition obj_getattr (obj : pyval) (name : string) : result pyval :=
  match obj with
  | VObj _ attrs =>
      match dict_get name attrs with
      | Some v => Ok v
      | None => Raise AttributeError
      end
  | _ => Raise AttributeError
  end.

(** [getattr(obj, name, default)] on a library object. *)
Definition obj_getattr_default (obj : pyval) (name : string) (dflt : pyval) : pyval :=
  match obj_getattr obj name with Ok v => v | Raise _ => dflt end.

(** [x in (s1, s2, ...)] for a tuple of strings. *)
Definition in_strings (x : pyval) (ss : list string) : bool :=
  match x with VStr s => mem_string s ss | _ => false end.

(** Sequences of numbers in and out of [_constrain_ticks]. *)
Fixpoint map_result {A B} (f : A -> result B) (l : list A) : result (list B) :=
  match l with
  | [] => Ok []
  | x :: l' =>
      match f x with
      | Raise e => Raise e
      | Ok y =>
          match map_result f l' with
          | Raise e => Raise e
          | Ok ys => Ok (y :: ys)
          end
      end
  end.

Definition as_numbers (v : pyval) : result (list Q) :=
  match iterate v with
  | Raise e => Raise e
  | Ok l => map_result as_number l
  end.

Definition of_numbers (l : list Q) : pyval := VList (List.map VFloat l).

#[global] Instance result_ret : MRet result := fun A a => Ok a.

#[global] Instance result_bind : MBind result := fun A B f r =>
  match r with
  | Ok a => f a
  | Raise e => Raise e
  end.

(** [v[:n]] and [v[n:]]: the slice is a sequence of the kind of [v]. *)
Definition py_slice_to (n : nat) (v : pyval) : result pyval :=
  match v with
  | VList l => Ok (VList (take n l))
  | VTuple l => Ok (VTuple (take n l))
  | VArray l => Ok (VArray (take n l))
  | VStr s => Ok (VStr (String.substring 0 n s))
  | _ => Raise TypeError
  end.

Definition py_slice_from (n : nat) (v : pyval) : result pyval :=
  match v with
  | VList l => Ok (VList (drop n l))
  | VTuple l => Ok (VTuple (drop n l))
  | VArray l => Ok (VArray (drop n l))
  | VStr s => Ok (VStr (String.substring n (String.length s - n) s))
  | _ => Raise TypeError
  end.

(** [x % m] on numbers: the result has the sign of [m]. *)
Definition Qmod (x m : Q) : Q := x - m * inject_Z (Qfloor (x / m)).

Definition py_mod (a b : pyval) : result pyval :=
  match int_of a, int_of b with
  | Some x, Some y =>
      if (y =? 0)%Z then Raise (ExternalError "ZeroDivisionError")
      else Ok (VInt (x mod y))
  | _, _ =>
      match number_of a, number_of b with
      | Some x, Some y =>
          if Qeq_bool y 0 then Raise (ExternalError "ZeroDivisionError")
          else Ok (VFloat (Qmod x y))
      | _, _ => Raise TypeError
      end
  end.

(** [np.asarray(a) + b] for a number [b]. *)
Definition np_add (a b : pyval) : result pyval :=
  match a with
  | VList l | VTuple l | VArray l =>
      l ← map_result (fun x => py_add x b) l; Ok (VArray l)
  | _ => py_add a b
  end.

(** A method called on a value: an object of a library answers outside the
    module, a builtin value has no method of the names used here. *)
Definition call_method (obj : pyval) (name : string) (args : list pyval)
    (kw : kwargs) : M pyval :=
  match obj with
  | VObj _ _ | VRef _ => ext_call name (obj :: args) kw
  | _ => raise AttributeError
  end.

(** ** Generators *)

(** What a generator yields, and the exception that ends it, if one does. *)
Definition generator := (list pyval * option exn)%type.

(** [for x in xs: yield from f x] *)
Fixpoint yield_from (f : pyval -> generator) (xs : list pyval) : generator :=
  match xs with
  | [] => ([], None)
  | x :: xs' =>
      match f x with
      | (ys, Some e) => (ys, Some e)
      | (ys, None) =>
          let '(zs, e) := yield_from f xs' in (ys ++ zs, e)
      end
  end.

(** [for x in v: yield x] *)
Definition yield_items (v : pyval) : generator :=
  match iterate v with
  | Ok l => (l, None)
  | Raise e => ([], Some e)
  end.

(** [for x in g: body x]: the body runs on what was yielded before the
    generator raises. *)
Definition for_gen (g : generator) (body : pyval -> M unit) : M unit :=
  for_each (fst g) body;;
  match snd g with
  | Some e => raise e
  | None => mret tt
  end.

(** ** class _GeoAxis *)

(** The two instances an axes owns: [self._lonaxis] and [self._lataxis]. *)
Inductive axis_name := Lon | Lat.

Definition axis_of (ax : axis_name) (a : Axes) : GeoAxis :=
  match ax with Lon => _lonaxis a | Lat => _lataxis a end.

Definition with_axis (ax : axis_name) (f : GeoAxis -> GeoAxis) (a : Axes) : Axes :=
  match ax with
  | Lon =>
      mkAxes (_boundinglat a) (_map_projection a) (_gridlines_major a)
        (_gridlines_minor a) (f (_lonaxis a)) (_lataxis a) (_features a)
        (_map_boundary a) (_has_recurred a) (_lonlines_major a)
        (_lonlines_minor a) (_latlines_major a) (_latlines_minor a)
  | Lat =>
      mkAxes (_boundinglat a) (_map_projection a) (_gridlines_major a)
        (_gridlines_minor a) (_lonaxis a) (f (_lataxis a)) (_features a)
        (_map_boundary a) (_has_recurred a) (_lonlines_major a)
        (_lonlines_minor a) (_latlines_major a) (_latlines_minor a)
  end.

Definition upd_isDefault_majfmt (b : bool) (g : GeoAxis) : GeoAxis :=
  mkGeoAxis b (isDefault_majloc g) (isDefault_minloc g) (major_formatter g)
    (major_locator g) (minor_locator g) (_interval g) (_latmax g).

Definition upd_isDefault_majloc (b : bool) (g : GeoAxis) : GeoAxis :=
  mkGeoAxis (isDefault_majfmt g) b (isDefault_minloc g) (major_formatter g)
    (major_locator g) (minor_locator g) (_interval g) (_latmax g).

Definition upd_major_formatter (v : pyval) (g : GeoAxis) : GeoAxis :=
  mkGeoAxis (isDefault_majfmt g) (isDefault_majloc g) (isDefault_minloc g) v
    (major_locator g) (minor_locator g) (_interval g) (_latmax g).

Definition upd_major_locator (v : pyval) (g : GeoAxis) : GeoAxis :=
  mkGeoAxis (isDefault_majfmt g) (isDefault_majloc g) (isDefault_minloc g)
    (major_formatter g) v (minor_locator g) (_interval g) (_latmax g).

Definition upd_minor_locator (v : pyval) (g : GeoAxis) : GeoAxis :=
  mkGeoAxis (isDefault_majfmt g) (isDefault_majloc g) (isDefault_minloc g)
    (major_formatter g) (major_locator g) v (_interval g) (_latmax g).

Definition upd_interval (v : pyval) (g : GeoAxis) : GeoAxis :=
  mkGeoAxis (isDefault_majfmt g) (isDefault_majloc g) (isDefault_minloc g)
    (major_formatter g) (major_locator g) (minor_locator g) v (_latmax g).

Definition upd_latmax (v : pyval) (g : GeoAxis) : GeoAxis :=
  mkGeoAxis (isDefault_majfmt g) (isDefault_majloc g) (isDefault_minloc g)
    (major_formatter g) (major_locator g) (minor_locator g) (_interval g) v.

Definition upd_isDefault_minloc (b : bool) (g : GeoAxis) : GeoAxis :=
  mkGeoAxis (isDefault_majfmt g) (isDefault_majloc g) b (major_formatter g)
    (major_locator g) (minor_locator g) (_interval g) (_latmax g).

Module _GeoAxis.

(** The axis itself, as an argument of an outside call. *)
Definition self_ref (ax : axis_name) : pyval :=
  VObj [match ax with Lon => "_LonAxis" | Lat => "_LatAxis" end; "_GeoAxis"; "object"] [].

Definition get (ax : axis_name) : M GeoAxis :=
  a ← get_self; mret (axis_of ax a).

Definition update (ax : axis_name) (f : GeoAxis -> GeoAxis) : M unit :=
  modify_self (with_axis ax f).

Definition __init__ (ax : axis_name) : M unit :=
  update ax (fun g => mkGeoAxis true true true VNone VNone VNone VNone (_latmax g)).

Definition get_scale : pyval := VStr "linear".

(** Just use the long-standing default of nbins=9 *)
Definition get_tick_space : pyval := VInt 9.

Definition get_major_formatter (ax : axis_name) : M pyval :=
  g ← get ax; mret (major_formatter g).

Definition get_major_locator (ax : axis_name) : M pyval :=
  g ← get ax; mret (major_locator g).

Definition get_minor_locator (ax : axis_name) : M pyval :=
  g ← get ax; mret (minor_locator g).

(** [_constrain_ticks] is the subclass's. *)
Definition get_majorticklocs (ax : axis_name) (_constrain_ticks : pyval -> M pyval)
  : M pyval :=
  g ← get ax;
  ticks ← ext_call "__call__" [major_locator g] [];
  _constrain_ticks ticks.

Definition get_minorticklocs (ax : axis_name) (_constrain_ticks : pyval -> M pyval)
  : M pyval :=
  g ← get ax;
  ticks ← ext_call "__call__" [minor_locator g] [];
  _constrain_ticks ticks.

Definition set_major_formatter (ax : axis_name) (formatter : pyval) (default : bool)
  : M unit :=
  update ax (upd_major_formatter formatter);;
  ext_call "set_axis" [formatter; self_ref ax] [];;
  update ax (upd_isDefault_majfmt default).

Definition set_major_locator (ax : axis_name) (locator : pyval) (default : bool)
  : M unit :=
  update ax (upd_major_locator locator);;
  g ← get ax;
  has_formatter ← lift (truthy (major_formatter g));
  when has_formatter
    (ext_call "_set_locator" [major_formatter g; locator] [];; mret tt);;
  ext_call "set_axis" [locator; self_ref ax] [];;
  update ax (upd_isDefault_majloc default).

(** The last line assigns [isDefault_majfmt], as the source does. *)
Definition set_minor_locator (ax : axis_name) (locator : pyval) (default : bool)
  : M unit :=
  update ax (upd_minor_locator locator);;
  ext_call "set_axis" [locator; self_ref ax] [];;
  update ax (upd_isDefault_majfmt default).

Definition set_view_interval (ax : axis_name) (vmin vmax : pyval) : M unit :=
  update ax (upd_interval (VTuple [vmin; vmax])).

(** The body shared by [_LonAxis.__init__] and [_LatAxis.__init__] after
    [super().__init__(axes)]: [deg] and [dms] are the two registered names. *)
Definition init_tickers (ax : axis_name) (deg dms : string) (projection : pyval)
  : M unit :=
  e ← get_env;
  let name :=
    if cartopy_installed e &&
       isinstance_any projection
         ["cartopy.crs._RectangularProjection"; "cartopy.crs.Mercator"]
    then dms else deg in
  formatter ← ext_call "constructor.Formatter" [VStr name] [];
  set_major_formatter ax formatter true;;
  locator ← ext_call "constructor.Locator" [VStr name] [];
  set_major_locator ax locator true;;
  minor ← ext_call "mticker.AutoMinorLocator" [] [];
  set_minor_locator ax minor true.

End _GeoAxis.

(** ** class _LonAxis *)

Module _LonAxis.

(** [eps = 5e-10] *)
Definition eps : Q := 5 # 10000000000.

(** The loop guard [ticks and ticks[-1] - eps > ticks[0] + 360 + eps]. *)
Definition looped (ticks : list Q) : bool :=
  match ticks !! 0%nat, last_tick ticks with
  | Some t0, Some tl => Qgt_bool (tl - eps) (t0 + 360 + eps)
  | _, _ => false
  end.

Definition inspect {A} (a : A) : {b : A | a = b} := exist _ a eq_refl.

(** [while ...: ticks = ticks[:-1]] *)
Equations? cut_looped (ticks : list Q) : list Q by wf (length ticks) lt :=
  cut_looped ticks with inspect (looped ticks) => {
    | exist _ true Hg := cut_looped (take (length ticks - 1) ticks);
    | exist _ false _ := ticks }.
Proof.
  rewrite length_take. destruct ticks; [discriminate | simpl; lia].
Qed.

Definition _constrain_ticks (ticks : list Q) : list Q :=
  let ticks := sorted ticks in
  cut_looped ticks.

(** The method as [get_majorticklocs] calls it, on a Python sequence. *)
Definition _constrain_ticks_dyn (ticks : pyval) : M pyval :=
  lift (ticks ← as_numbers ticks; mret (of_numbers (_constrain_ticks ticks))).

(** [get_extent] is the method of the axes that owns the axis. *)
Definition get_view_interval (get_extent : M pyval) : M pyval :=
  g ← _GeoAxis.get Lon;
  let interval := _interval g in
  if is_none interval then
    extent ← get_extent;
    lift (py_slice_to 2 extent)  (* longitude extents *)
  else mret interval.

Definition __init__ (projection : pyval) : M unit :=
  _GeoAxis.__init__ Lon;;
  _GeoAxis.init_tickers Lon "deglon" "dmslon" projection.

Definition get_majorticklocs : M pyval :=
  _GeoAxis.get_majorticklocs Lon _constrain_ticks_dyn.

Definition get_minorticklocs : M pyval :=
  _GeoAxis.get_minorticklocs Lon _constrain_ticks_dyn.

End _LonAxis.

(** ** class _LatAxis *)

Module _LatAxis.

(** [eps = 1e-10] *)
Definition eps : Q := 1 # 10000000000.

Definition in_range (latmax l : Q) : bool :=
  Qle_bool (- latmax) l && Qle_bool l latmax.

Definition _constrain_ticks (latmax : Q) (ticks : list Q) : result (list Q) :=
  let ticks := List.filter (in_range latmax) ticks in
  match ticks !! 0%nat with
  | None => Raise IndexError
  | Some t0 =>
      let ticks := if Qeq_bool t0 (-90) then <[0%nat := t0 + eps]> ticks else ticks in
      match last_tick ticks with
      | None => Raise IndexError
      | Some tl =>
          let ticks :=
            if Qeq_bool tl 90 then <[(length ticks - 1)%nat := tl - eps]> ticks
            else ticks in
          Ok ticks
      end
  end.

Definition get_latmax : M pyval :=
  g ← _GeoAxis.get Lat; mret (_latmax g).

Definition set_latmax (latmax : pyval) : M unit :=
  _GeoAxis.update Lat (upd_latmax latmax).

(** [get_extent] is the method of the axes that owns the axis. *)
Definition get_view_interval (get_extent : M pyval) : M pyval :=
  g ← _GeoAxis.get Lat;
  let interval := _interval g in
  if is_none interval then
    extent ← get_extent;
    lift (py_slice_from 2 extent)  (* latitudes *)
  else mret interval.

(** The method as [get_majorticklocs] calls it, on a Python sequence;
    [latmax] is only compared with a tick, so it is not inspected when
    there is none. *)
Definition _constrain_ticks_dyn (ticks : pyval) : M pyval :=
  latmax ← get_latmax;
  lift (ticks ← as_numbers ticks;
        latmax ← match ticks with [] => Ok 0 | _ => as_number latmax end;
        ticks ← _constrain_ticks latmax ticks;
        mret (of_numbers ticks)).

Definition __init__ (latmax projection : pyval) : M unit :=
  _GeoAxis.update Lat (upd_latmax latmax);;
  _GeoAxis.__init__ Lat;;
  _GeoAxis.init_tickers Lat "deglat" "dmslat" projection.

Definition get_majorticklocs : M pyval :=
  _GeoAxis.get_majorticklocs Lat _constrain_ticks_dyn.

Definition get_minorticklocs : M pyval :=
  _GeoAxis.get_minorticklocs Lat _constrain_ticks_dyn.

End _LatAxis.

(** ** Attribute access *)

(** [obj.name] *)
Definition py_getattr (obj : pyval) (name : string) : M pyval :=
  fun w =>
    match obj with
    | VRef l =>
        match heap w !! l with
        | Some attrs =>
            match attrs !! name with
            | Some v => (Ok v, w)
            | None => (Raise AttributeError, w)
            end
        | None => (Raise AttributeError, w)
        end
    | VObj _ _ => (obj_getattr obj name, w)
    | _ => (Raise AttributeError, w)
    end.

(** [setattr(obj, name, v)]: a gridliner is updated in the heap, another
    library object by a call to the outside, anything else has no such
    attribute. *)
Definition py_setattr (obj : pyval) (name : string) (v : pyval) : M unit :=
  match obj with
  | VRef l =>
      fun w =>
        match heap w !! l with
        | Some attrs => (Ok tt, set_heap (<[l := <[name := v]> attrs]> (heap w)) w)
        | None => (Raise AttributeError, w)
        end
  | VObj _ _ => ext_call "setattr" [obj; VStr name; v] [];; mret tt
  | _ => raise AttributeError
  end.

(** [obj.name.update(other)] for a dict-valued attribute of a gridliner. *)
Definition attr_dict_update (obj : pyval) (name : string) (other : pyval) : M unit :=
  d ← py_getattr obj name;
  match d, other with
  | VDict d, VDict other => py_setattr obj name (VDict (dict_update d other))
  | VDict _, _ => raise TypeError
  | _, _ => raise AttributeError
  end.

(** [d[k] = v] on a value that must be a dict. *)
Definition py_setitem (d : pyval) (k : string) (v : pyval) : result pyval :=
  match d with
  | VDict d => Ok (VDict (dict_set k v d))
  | _ => Raise TypeError
  end.

(** [a, b = v] and [a, b, c = v] *)
Definition unpack2 (v : pyval) : result (pyval * pyval) :=
  l ← iterate v;
  match l with
  | [a; b] => Ok (a, b)
  | _ => Raise ValueError
  end.

Definition unpack3 (v : pyval) : result (pyval * pyval * pyval) :=
  l ← iterate v;
  match l with
  | [a; b; c] => Ok (a, b, c)
  | _ => Raise ValueError
  end.

(** [v[:n]] and [v[n:]] of a list, tuple or array. *)
Definition slice_to (n : nat) (v : pyval) : result (list pyval) :=
  match v with
  | VList l | VTuple l | VArray l => Ok (take n l)
  | _ => Raise TypeError
  end.

Definition slice_from (n : nat) (v : pyval) : result (list pyval) :=
  match v with
  | VList l | VTuple l | VArray l => Ok (drop n l)
  | _ => Raise TypeError
  end.

(** The module-level helpers of [proplot.config] and [proplot.internals]. *)
Definition rc_get (key : string) : M pyval :=
  ext_call "rc.get" [VStr key] [("context", VBool true)].

Definition _not_none (args : list pyval) : M pyval :=
  ext_call "_not_none" args [].

Definition _not_none_kw (kw : kwargs) : M pyval :=
  ext_call "_not_none" [] kw.

Definition _warn_proplot (message : string) (values : list pyval) : M unit :=
  ext_call "warnings._warn_proplot" (VStr message :: values) [];; mret tt.

(** ** class GeoAxes *)

Module GeoAxes.

Definition _axis_below_to_zorder (axisbelow : pyval) : result Q :=
  match axisbelow with
  | VBool true => Ok (1 # 2)
  | VBool false => Ok (5 # 2)
  | _ =>
      if py_eq axisbelow (VStr "lines") then Ok (3 # 2)
      else Raise ValueError
  end.

Definition _to_label_array (labels : pyval) (lon : bool) : result pyval :=
  if is_none labels then Ok (VTuple (replicate 4 VNone))
  else
    let array :=
      match labels with
      | VStr labels =>
          VList
            (fold_left
               (fun array ic =>
                  if char_in (snd ic) labels then <[fst ic := VInt 1]> array
                  else array)
               (zip [0; 1; 2; 3]%nat (chars "lrbt"))
               (replicate 4 (VInt 0)))
      | _ => atleast_1d labels
      end in
    let array :=
      if (len array =? 1)%nat then VList (items array ++ [VInt 0]) else array in
    if (len array =? 2)%nat then
      if lon then Ok (VList ([VInt 0; VInt 0] ++ items array))
      else Ok (VList (items array ++ [VInt 0; VInt 0]))
    else if negb (len array =? 4)%nat then Raise ValueError
    else Ok array.

(** The methods every subclass defines and [format] calls on [self]. *)
Record Subclass := mkSubclass {
  _update_extent : pyval -> pyval -> pyval -> M unit;
  _update_patches : pyval -> M unit;
  _update_features : M unit;
  _update_major_gridlines : kwargs -> M unit;
  _update_minor_gridlines : pyval -> pyval -> M unit
}.

(** The keyword-only parameters of [format]. *)
Definition format_params : list string :=
  ["lonlim"; "latlim"; "boundinglat";
   "longrid"; "latgrid"; "longridminor"; "latgridminor";
   "lonlocator"; "lonlines"; "latlocator"; "latlines"; "latmax";
   "lonminorlocator"; "lonminorlines"; "latminorlocator"; "latminorlines";
   "lonlocator_kw"; "lonlines_kw"; "latlocator_kw"; "latlines_kw";
   "lonminorlocator_kw"; "lonminorlines_kw";
   "latminorlocator_kw"; "latminorlines_kw";
   "lonformatter"; "latformatter"; "lonformatter_kw"; "latformatter_kw";
   "labels"; "latlabels"; "lonlabels";
   "loninline"; "latinline"; "rotate_labels"; "labelpad"; "dms";
   "patch_kw"].

(** What a call of [format] with the keywords [kw] binds to [kwargs]. *)
Definition undeclared (kw : kwargs) : kwargs :=
  List.filter (fun kv => negb (mem_string (fst kv) format_params)) kw.

(** [x or {}] *)
Definition or_empty_dict (x : pyval) : M pyval :=
  t ← lift (truthy x);
  mret (if (t : bool) then x else VDict []).

Definition update_locator (ax : axis_name) (minor : bool)
    (locator : pyval) (names : string * string) (kw : kwargs) : M unit :=
  when (not_none locator)
    (locator_kw ← _not_none_kw
       [(fst names, arg (fst names) kw); (snd names, arg (snd names) kw);
        ("default", VDict [])];
     locator_kw ← lift (as_kwargs locator_kw);
     locator ← ext_call "constructor.Locator" [locator] locator_kw;
     if minor then _GeoAxis.set_minor_locator ax locator false
     else _GeoAxis.set_major_locator ax locator false).

Definition update_formatter (ax : axis_name) (formatter formatter_kw : pyval)
  : M unit :=
  when (not_none formatter)
    (formatter_kw ← or_empty_dict formatter_kw;
     formatter_kw ← lift (as_kwargs formatter_kw);
     formatter ← ext_call "constructor.Formatter" [formatter] formatter_kw;
     _GeoAxis.set_major_formatter ax formatter false).

(** The body of the [with] block of [format] up to, and without, the call
    of [super().format]. *)
Definition apply_settings (S : Subclass) (kw : kwargs) : M unit :=
  (* Gridline toggles *)
  grid ← rc_get "grid";
  gridminor ← rc_get "gridminor";
  longrid ← _not_none [arg "longrid" kw; grid];
  latgrid ← _not_none [arg "latgrid" kw; grid];
  longridminor ← _not_none [arg "longridminor" kw; gridminor];
  latgridminor ← _not_none [arg "latgridminor" kw; gridminor];
  (* Label toggles *)
  labels ← (dflt ← rc_get "grid.labels"; _not_none [arg "labels" kw; dflt]);
  lonlabels ← _not_none [arg "lonlabels" kw; labels];
  latlabels ← _not_none [arg "latlabels" kw; labels];
  lonarray ← lift (_to_label_array lonlabels true);
  latarray ← lift (_to_label_array latlabels false);
  (* Update 'maximum latitude' *)
  latmax ← (dflt ← rc_get "grid.latmax"; _not_none [arg "latmax" kw; dflt]);
  when (not_none latmax) (_LatAxis.set_latmax latmax);;
  (* Update major locators *)
  lonlocator ← _not_none_kw
    [("lonlocator", arg "lonlocator" kw); ("lonlines", arg "lonlines" kw)];
  latlocator ← _not_none_kw
    [("latlocator", arg "latlocator" kw); ("latlines", arg "latlines" kw)];
  update_locator Lon false lonlocator ("lonlocator_kw", "lonlines_kw") kw;;
  update_locator Lat false latlocator ("latlocator_kw", "latlines_kw") kw;;
  (* Update minor locators *)
  lonminorlocator ← _not_none_kw
    [("lonminorlocator", arg "lonminorlocator" kw);
     ("lonminorlines", arg "lonminorlines" kw)];
  latminorlocator ← _not_none_kw
    [("latminorlocator", arg "latminorlocator" kw);
     ("latminorlines", arg "latminorlines" kw)];
  update_locator Lon true lonminorlocator
    ("lonminorlocator_kw", "lonminorlines_kw") kw;;
  update_locator Lat true latminorlocator
    ("latminorlocator_kw", "latminorlines_kw") kw;;
  (* Update formatters *)
  loninline ← (dflt ← rc_get "grid.loninline"; _not_none [arg "loninline" kw; dflt]);
  latinline ← (dflt ← rc_get "grid.latinline"; _not_none [arg "latinline" kw; dflt]);
  labelpad ← (dflt ← rc_get "grid.labelpad"; _not_none [arg "labelpad" kw; dflt]);
  rotate_labels ←
    (dflt ← rc_get "grid.rotatelabels"; _not_none [arg "rotate_labels" kw; dflt]);
  update_formatter Lon (arg "lonformatter" kw) (arg "lonformatter_kw" kw);;
  update_formatter Lat (arg "latformatter" kw) (arg "latformatter_kw" kw);;
  when (not_none (arg "dms" kw))
    (f ← _GeoAxis.get_major_formatter Lon; py_setattr f "_dms" (arg "dms" kw);;
     f ← _GeoAxis.get_major_formatter Lat; py_setattr f "_dms" (arg "dms" kw);;
     l ← _GeoAxis.get_major_locator Lon; py_setattr l "_dms" (arg "dms" kw);;
     l ← _GeoAxis.get_major_locator Lat; py_setattr l "_dms" (arg "dms" kw));;
  (* Apply worker functions *)
  _update_extent S (arg "lonlim" kw) (arg "latlim" kw) (arg "boundinglat" kw);;
  patch_kw ← or_empty_dict (arg "patch_kw" kw);
  _update_patches S patch_kw;;
  _update_features S;;
  _update_major_gridlines S
    [("longrid", longrid); ("latgrid", latgrid);
     ("lonarray", lonarray); ("latarray", latarray);
     ("loninline", loninline); ("latinline", latinline);
     ("rotate_labels", rotate_labels); ("labelpad", labelpad)];;
  _update_minor_gridlines S longridminor latgridminor.

(** The call of [super().format] with the keywords [kwargs]. *)
Definition super_format (kwargs : pyval) : M unit :=
  kwargs ← lift (as_kwargs kwargs);
  ext_call "super().format" [] kwargs;; mret tt.

Definition format (S : Subclass) (kw : kwargs) : M unit :=
  r ← ext_call "self._parse_format" [] (undeclared kw);
  '(rc_kw, rc_mode, kwargs) ← lift (unpack3 r);
  cm ← ext_call "rc.context" [rc_kw] [("mode", rc_mode)];
  with_context cm
    (apply_settings S kw;;
     (* Call main axes format method *)
     super_format kwargs).

Definition _get_gridline_props (which : string) (context : bool)
  : M (pyval * pyval) :=
  let key := if String.eqb which "major" then "grid" else "gridminor" in
  kwlines ← ext_call "rc.fill"
    [VDict [("alpha", VStr (key ++ ".alpha")); ("color", VStr (key ++ ".color"));
            ("linewidth", VStr (key ++ ".linewidth"));
            ("linestyle", VStr (key ++ ".linestyle"))]]
    [("context", VBool context)];
  axisbelow ← rc_get "axes.axisbelow";
  kwlines ←
    (if not_none axisbelow then
       zorder ← lift (_axis_below_to_zorder axisbelow);
       lift (py_setitem kwlines "zorder" (VFloat zorder))
     else mret kwlines);
  kwtext ←
    (if String.eqb which "major" then
       ext_call "rc.fill"
         [VDict [("color", VStr (key ++ ".color"));
                 ("fontsize", VStr (key ++ ".labelsize"));
                 ("weight", VStr (key ++ ".labelweight"))]]
         [("context", VBool context)]
     else mret (VDict []));
  mret (kwlines, kwtext).

Definition _get_lonticklocs (which : string) : M pyval :=
  if String.eqb which "major" then _LonAxis.get_majorticklocs
  else _LonAxis.get_minorticklocs.

Definition _get_latticklocs (which : string) : M pyval :=
  if String.eqb which "major" then _LatAxis.get_majorticklocs
  else _LatAxis.get_minorticklocs.

(** [set_view_interval] takes the two items of [extent[:2]], and no other
    number of them. *)
Definition _set_view_intervals (extent : pyval) : M unit :=
  lon ← lift (slice_to 2 extent);
  match lon with
  | [vmin; vmax] => _GeoAxis.set_view_interval Lon vmin vmax
  | _ => raise TypeError
  end;;
  lat ← lift (slice_from 2 extent);
  match lat with
  | [vmin; vmax] => _GeoAxis.set_view_interval Lat vmin vmax
  | _ => raise TypeError
  end.

End GeoAxes.

(** ** Updates of the attributes of [self] *)

Definition upd_boundinglat (v : pyval) (a : Axes) : Axes :=
  mkAxes v (_map_projection a) (_gridlines_major a) (_gridlines_minor a)
    (_lonaxis a) (_lataxis a) (_features a) (_map_boundary a) (_has_recurred a)
    (_lonlines_major a) (_lonlines_minor a) (_latlines_major a) (_latlines_minor a).

Definition upd_map_projection (v : pyval) (a : Axes) : Axes :=
  mkAxes (_boundinglat a) v (_gridlines_major a) (_gridlines_minor a)
    (_lonaxis a) (_lataxis a) (_features a) (_map_boundary a) (_has_recurred a)
    (_lonlines_major a) (_lonlines_minor a) (_latlines_major a) (_latlines_minor a).

Definition upd_gridlines_major (v : pyval) (a : Axes) : Axes :=
  mkAxes (_boundinglat a) (_map_projection a) v (_gridlines_minor a)
    (_lonaxis a) (_lataxis a) (_features a) (_map_boundary a) (_has_recurred a)
    (_lonlines_major a) (_lonlines_minor a) (_latlines_major a) (_latlines_minor a).

Definition upd_gridlines_minor (v : pyval) (a : Axes) : Axes :=
  mkAxes (_boundinglat a) (_map_projection a) (_gridlines_major a) v
    (_lonaxis a) (_lataxis a) (_features a) (_map_boundary a) (_has_recurred a)
    (_lonlines_major a) (_lonlines_minor a) (_latlines_major a) (_latlines_minor a).

Definition upd_features (f : kwargs -> kwargs) (a : Axes) : Axes :=
  mkAxes (_boundinglat a) (_map_projection a) (_gridlines_major a)
    (_gridlines_minor a) (_lonaxis a) (_lataxis a) (f (_features a))
    (_map_boundary a) (_has_recurred a)
    (_lonlines_major a) (_lonlines_minor a) (_latlines_major a) (_latlines_minor a).

(** The six assignments at the head of "Initialize axes" in
    [BasemapAxes.__init__]. *)
Definition upd_basemap_slots (a : Axes) : Axes :=
  mkAxes (_boundinglat a) (_map_projection a) (_gridlines_major a)
    (_gridlines_minor a) (_lonaxis a) (_lataxis a) (_features a)
    VNone (VBool false) VNone VNone VNone VNone.

Definition upd_map_boundary (v : pyval) (a : Axes) : Axes :=
  mkAxes (_boundinglat a) (_map_projection a) (_gridlines_major a)
    (_gridlines_minor a) (_lonaxis a) (_lataxis a) (_features a)
    v (_has_recurred a)
    (_lonlines_major a) (_lonlines_minor a) (_latlines_major a) (_latlines_minor a).

(** The attributes named [_<name>lines_<which>]: reading one of another
    name raises. *)
Definition get_lines (name : axis_name) (which : string) (a : Axes) : result pyval :=
  if String.eqb which "major" then
    Ok (match name with Lon => _lonlines_major a | Lat => _latlines_major a end)
  else if String.eqb which "minor" then
    Ok (match name with Lon => _lonlines_minor a | Lat => _latlines_minor a end)
  else Raise AttributeError.

Definition upd_lines (name : axis_name) (which : string) (v : pyval) (a : Axes) : Axes :=
  match name, String.eqb which "major" with
  | Lon, true =>
      mkAxes (_boundinglat a) (_map_projection a) (_gridlines_major a)
        (_gridlines_minor a) (_lonaxis a) (_lataxis a) (_features a)
        (_map_boundary a) (_has_recurred a)
        v (_lonlines_minor a) (_latlines_major a) (_latlines_minor a)
  | Lon, false =>
      mkAxes (_boundinglat a) (_map_projection a) (_gridlines_major a)
        (_gridlines_minor a) (_lonaxis a) (_lataxis a) (_features a)
        (_map_boundary a) (_has_recurred a)
        (_lonlines_major a) v (_latlines_major a) (_latlines_minor a)
  | Lat, true =>
      mkAxes (_boundinglat a) (_map_projection a) (_gridlines_major a)
        (_gridlines_minor a) (_lonaxis a) (_lataxis a) (_features a)
        (_map_boundary a) (_has_recurred a)
        (_lonlines_major a) (_lonlines_minor a) v (_latlines_minor a)
  | Lat, false =>
      mkAxes (_boundinglat a) (_map_projection a) (_gridlines_major a)
        (_gridlines_minor a) (_lonaxis a) (_lataxis a) (_features a)
        (_map_boundary a) (_has_recurred a)
        (_lonlines_major a) (_lonlines_minor a) (_latlines_major a) v
  end.

(** ** Sequences *)

(** [l[i]] and [l[i] = v] on a list: out of range raises. *)
Definition py_index (l : list pyval) (i : nat) : result pyval :=
  match l !! i with Some v => Ok v | None => Raise IndexError end.

Definition py_store (l : list pyval) (i : nat) (v : pyval) : result (list pyval) :=
  if (i <? length l)%nat then Ok (<[i := v]> l) else Raise IndexError.

(** [any(v)] *)
Fixpoint any_true (l : list pyval) : result bool :=
  match l with
  | [] => Ok false
  | x :: l' =>
      match truthy x with
      | Raise e => Raise e
      | Ok true => Ok true
      | Ok false => any_true l'
      end
  end.

Definition py_any (v : pyval) : result bool :=
  l ← iterate v; any_true l.

(** [np.isclose(a, b)] with the default tolerances. *)
Definition isclose (a b : pyval) : result bool :=
  x ← as_number a;
  y ← as_number b;
  Ok (Qle_bool (Qabs (x - y)) ((1 # 100000000) + (1 # 100000) * Qabs y)).

(** A dict method applied to a value that must be a dict. *)
Definition as_dict (v : pyval) : result kwargs :=
  match v with VDict d => Ok d | _ => Raise AttributeError end.

(** [d.pop(k)] *)
Definition dict_pop (k : string) (d : kwargs) : result (pyval * kwargs) :=
  match dict_get k d with
  | Some v => Ok (v, dict_remove k d)
  | None => Raise KeyError
  end.

(** ** class CartopyAxes *)

Module CartopyAxes.

Definition _proj_north : list string :=
  ["proplot.crs.NorthPolarStereo"; "proplot.crs.NorthPolarGnomonic";
   "proplot.crs.NorthPolarAzimuthalEquidistant";
   "proplot.crs.NorthPolarLambertAzimuthalEqualArea"].

Definition _proj_south : list string :=
  ["proplot.crs.SouthPolarStereo"; "proplot.crs.SouthPolarGnomonic";
   "proplot.crs.SouthPolarAzimuthalEquidistant";
   "proplot.crs.SouthPolarLambertAzimuthalEqualArea"].

Definition _proj_polar : list string := _proj_north ++ _proj_south.

(** The property [projection]. *)
Definition projection : M pyval :=
  a ← get_self; mret (_map_projection a).

Definition _get_lon0 : M pyval :=
  p ← projection;
  params ← lift (obj_getattr p "proj4_params");
  params ← lift (as_dict params);
  mret (dict_get_default "lon_0" (VInt 0) params).

(** The setter of the property [projection]; [ccrs] is [None] where cartopy
    is not installed. *)
Definition set_projection (map_projection : pyval) : M unit :=
  e ← get_env;
  when (negb (cartopy_installed e)) (raise AttributeError);;
  when (negb (isinstance map_projection "cartopy.crs.CRS")) (raise ValueError);;
  modify_self (upd_map_projection map_projection).

(** The functions that [_init_gridlines] binds to a gridliner [gl] in place
    of its class's methods of the same names; [gl.axes] is this axes. *)
Definition _axes_domain (gl : pyval) (args : list pyval) (kwargs : kwargs)
  : M pyval :=
  r ← ext_call "type(self)._axes_domain" (gl :: args) kwargs;
  '(x_range, y_range) ← lift (unpack2 r);
  e ← get_env;
  x_range ←
    (if version_ltb (_version_cartopy e) v0_18 then
       p ← projection;
       params ← lift (obj_getattr p "proj4_params");
       params ← lift (as_dict params);
       let lon_0 := dict_get_default "lon_0" (VInt 0) params in
       lift (np_add x_range lon_0)
     else mret x_range);
  mret (VTuple [x_range; y_range]).

Definition _add_gridline_label (gl value axis upper_end : pyval) : M pyval :=
  e ← get_env;
  value ←
    (if version_ltb (_version_cartopy e) v0_18 then
       if py_eq axis (VStr "x") then
         lift (x ← py_add value (VInt 180);
               x ← py_mod x (VInt 360);
               py_sub x (VInt 180))
       else mret value
     else mret value);
  ext_call "type(self)._add_gridline_label" [gl; value; axis; upper_end] [].

(** A function of the module bound to a gridliner with [__get__]. *)
Definition bound_method (name : string) : pyval :=
  VObj ["method"; "object"] [("__name__", VStr name)].

(** The attributes of a new gridliner that the module reads. *)
Definition new_gridliner : gmap string pyval :=
  list_to_map [("collection_kwargs", VDict []); ("xlabel_style", VDict []);
               ("ylabel_style", VDict [])].

Definition alloc_gridliner : M pyval :=
  fun w =>
    let l := fresh (dom (heap w)) in
    (Ok (VRef l), set_heap (<[l := new_gridliner]> (heap w)) w).

(** [self.gridlines(crs=crs)] is cartopy's: unless it raises, it creates a
    gridliner and returns it. *)
Definition gridlines (crs : pyval) : M pyval :=
  ext_call "self.gridlines" [] [("crs", crs)];;
  alloc_gridliner.

Definition _toggle_gridliner_labels (gl left right bottom top : pyval) : M unit :=
  e ← get_env;
  let '(left_labels, right_labels, bottom_labels, top_labels) :=
    if version_geb (_version_cartopy e) v0_18
    then ("left_labels", "right_labels", "bottom_labels", "top_labels")
    else ("ylabels_left", "ylabels_right", "xlabels_bottom", "xlabels_top") in
  when (not_none left) (py_setattr gl left_labels left);;
  when (not_none right) (py_setattr gl right_labels right);;
  when (not_none bottom) (py_setattr gl bottom_labels bottom);;
  when (not_none top) (py_setattr gl top_labels top).

Definition _init_gridlines : M pyval :=
  crs ← ext_call "ccrs.PlateCarree" [] [];
  gl ← gridlines crs;
  py_setattr gl "_draw_gridliner" (bound_method "_draw_gridliner");;
  py_setattr gl "_axes_domain" (bound_method "_axes_domain");;
  py_setattr gl "_add_gridline_label" (bound_method "_add_gridline_label");;
  py_setattr gl "xlines" (VBool false);;
  py_setattr gl "ylines" (VBool false);;
  _toggle_gridliner_labels gl (VBool false) (VBool false) (VBool false) (VBool false);;
  mret gl.

Definition _update_gridlines (gl : pyval) (which : string) (longrid latgrid : pyval)
  : M unit :=
  rc_mode ← ext_call "rc._get_context_mode" [] [];
  '(kwlines, kwtext) ← GeoAxes._get_gridline_props which (py_eq rc_mode (VInt 2));
  attr_dict_update gl "collection_kwargs" kwlines;;
  attr_dict_update gl "xlabel_style" kwtext;;
  attr_dict_update gl "ylabel_style" kwtext;;
  when (not_none longrid) (py_setattr gl "xlines" longrid);;
  when (not_none latgrid) (py_setattr gl "ylines" latgrid);;
  lonticks ← GeoAxes._get_lonticklocs which;
  xlocator ← ext_call "mticker.FixedLocator" [lonticks] [];
  py_setattr gl "xlocator" xlocator;;
  latticks ← GeoAxes._get_latticklocs which;
  ylocator ← ext_call "mticker.FixedLocator" [latticks] [];
  py_setattr gl "ylocator" ylocator.

Definition set_extent (extent crs : pyval) : M pyval :=
  crs ← (if is_none crs then ext_call "ccrs.PlateCarree" [] [] else mret crs);
  when (isinstance crs "cartopy.crs.PlateCarree")
    (GeoAxes._set_view_intervals extent;;
     a ← get_self;
     _update_gridlines (_gridlines_major a) "major" VNone VNone;;
     a ← get_self;
     _update_gridlines (_gridlines_minor a) "major" VNone VNone;;
     e ← get_env;
     when (version_ltb (_version_cartopy e) v0_18)
       (clipped_path ← ext_call "self.outline_patch.orig_path.clip_to_bbox"
          [VStr "self.viewLim"] [];
        ext_call "setattr" [VStr "self.outline_patch"; VStr "_path"; clipped_path] [];;
        ext_call "setattr" [VStr "self.background_patch"; VStr "_path"; clipped_path] [];;
        mret tt));;
  ext_call "super().set_extent" [extent] [("crs", crs)].

(** [eps = 1e-10] *)
Definition eps : Q := 1 # 10000000000.

(** [list(lim or [None, None])] *)
Definition limits (lim : pyval) : result (list pyval) :=
  t ← truthy lim;
  iterate (if (t : bool) then lim else VList [VNone; VNone]).

(** [if lim[i] is None: lim[i] = v] *)
Definition fill_none (lim : list pyval) (i : nat) (v : result pyval)
  : result (list pyval) :=
  x ← py_index lim i;
  if is_none x then v ← v; py_store lim i v else Ok lim.

Definition _update_extent (lonlim latlim boundinglat : pyval) : M unit :=
  lon0 ← _get_lon0;
  p ← projection;
  let proj := type_name p in
  let north := isinstance_any p _proj_north in
  let south := isinstance_any p _proj_south in
  if north || south then
    when (not_none lonlim || not_none latlim)
      (_warn_proplot "extent is controlled by boundinglat, ignoring lonlim and latlim"
         [VStr proj; lonlim; latlim]);;
    a ← get_self;
    when (not_none boundinglat && negb (py_eq boundinglat (_boundinglat a)))
      (let lat0 := VInt (if north then 90 else -90) in
       lon0 ← _get_lon0;
       west ← lift (x ← py_sub lon0 (VInt 180); py_add x (VFloat eps));
       east ← lift (x ← py_add lon0 (VInt 180); py_sub x (VFloat eps));
       let extent := VList [west; east; boundinglat; lat0] in
       crs ← ext_call "ccrs.PlateCarree" [] [];
       set_extent extent crs;;
       modify_self (upd_boundinglat boundinglat))
  else
    when (not_none boundinglat)
      (_warn_proplot "extent is controlled by lonlim and latlim, ignoring boundinglat"
         [VStr proj; boundinglat]);;
    when (not_none lonlim || not_none latlim)
      (lonlim ← lift (limits lonlim);
       latlim ← lift (limits latlim);
       lonlim ← lift (fill_none lonlim 0 (py_sub lon0 (VInt 180)));
       lonlim ← lift (fill_none lonlim 1 (py_add lon0 (VInt 180)));
       lonlim ← lift (x ← py_index lonlim 0; x ← py_add x (VFloat eps);
                      py_store lonlim 0 x);
       latlim ← lift (fill_none latlim 0 (Ok (VInt (-90))));
       latlim ← lift (fill_none latlim 1 (Ok (VInt 90)));
       let extent := VList (lonlim ++ latlim) in
       crs ← ext_call "ccrs.PlateCarree" [] [];
       set_extent extent crs;;
       mret tt).

Definition _update_patches (patch_kw : pyval) : M unit :=
  kw_face ← ext_call "rc.fill"
    [VDict [("facecolor", VStr "axes.facecolor"); ("alpha", VStr "axes.alpha")]]
    [("context", VBool true)];
  kw_edge ← ext_call "rc.fill"
    [VDict [("edgecolor", VStr "geoaxes.edgecolor");
            ("linewidth", VStr "geoaxes.linewidth")]]
    [("context", VBool true)];
  kw_face ← lift (kw_face ← as_dict kw_face;
                  t ← truthy patch_kw;
                  match (if (t : bool) then patch_kw else VDict []) with
                  | VDict other => Ok (VDict (dict_update kw_face other))
                  | _ => Raise TypeError
                  end);
  ext_call "self.background_patch.update" [kw_face] [];;
  ext_call "self.outline_patch.update" [kw_edge] [];;
  mret tt.

(** [constructor.CARTOPY_RESOS[reso]], a missing key reported as a
    [ValueError]. *)
Definition lookup_reso (e : Env) (reso : pyval) : result pyval :=
  match reso with
  | VStr r =>
      match dict_get r (CARTOPY_RESOS e) with
      | Some v => Ok v
      | None => Raise ValueError
      end
  | VList _ | VDict _ | VArray _ => Raise TypeError
  | _ => Raise ValueError
  end.

Definition line_features : list string :=
  ["coast"; "rivers"; "borders"; "innerborders"].

(** The settings handed to a feature artist. *)
Definition feature_kw (name : string) (kw : pyval) : result pyval :=
  kw ← as_dict kw;
  if mem_string name line_features then
    '(color, kw) ← dict_pop "color" kw;
    Ok (VDict (dict_update kw [("edgecolor", color); ("facecolor", VStr "none")]))
  else Ok (VDict (dict_update kw [("linewidth", VInt 0)])).

Definition _update_features : M unit :=
  reso ← ext_call "rc.__getitem__" [VStr "reso"] [];
  e ← get_env;
  reso ← lift (lookup_reso e reso);
  for_each (CARTOPY_FEATURES e) (fun '(name, args) =>
    b ← rc_get name;
    when (not_none b)
      (a ← get_self;
       let feat := dict_get_default name VNone (_features a) in
       b ← lift (truthy b);
       if negb b then
         when (not_none feat) (ext_call "set_visible" [feat; VBool false] [];; mret tt)
       else
         let drawn := not_none feat in
         feat ←
           (if drawn then mret feat
            else
              args ← lift (iterate args);
              feat ← ext_call "cfeature.NaturalEarthFeature" (args ++ [reso]) [];
              ext_call "self.add_feature" [feat] []);
         kw ← ext_call "rc.category" [VStr name] [("context", VBool drawn)];
         kw ← lift (feature_kw name kw);
         ext_call "feat._kwargs.update" [feat; kw] [];;
         modify_self (upd_features (dict_set name feat)))).

(** [self._toggle_gridliner_labels(gl, *latarray[:2], *lonarray[2:])] *)
Definition toggle_from_arrays (gl latarray lonarray : pyval) : M unit :=
  lat ← lift (slice_to 2 latarray);
  lon ← lift (slice_from 2 lonarray);
  match lat ++ lon with
  | [l; r; b; t] => _toggle_gridliner_labels gl l r b t
  | _ => raise TypeError
  end.

(** [if any(array): warn; array = [0] * 4] *)
Definition drop_labels (proj : string) (array : pyval) : M pyval :=
  t ← lift (py_any array);
  if (t : bool) then
    _warn_proplot "Cannot add gridline labels to cartopy projection" [VStr proj];;
    mret (VList (replicate 4 (VInt 0)))
  else mret array.

Definition _update_major_gridlines (kw : kwargs) : M unit :=
  (* Update gridline locations and style *)
  a ← get_self;
  cached ← lift (truthy (_gridlines_major a));
  when (negb cached)
    (gl ← _init_gridlines; modify_self (upd_gridlines_major gl));;
  a ← get_self;
  let gl := _gridlines_major a in
  _update_gridlines gl "major" (arg "longrid" kw) (arg "latgrid" kw);;
  (* Update gridline label parameters *)
  when (not_none (arg "labelpad" kw))
    (py_setattr gl "xpadding" (arg "labelpad" kw);;
     py_setattr gl "ypadding" (arg "labelpad" kw));;
  when (not_none (arg "loninline" kw)) (py_setattr gl "x_inline" (arg "loninline" kw));;
  when (not_none (arg "latinline" kw)) (py_setattr gl "y_inline" (arg "latinline" kw));;
  when (not_none (arg "rotate_labels" kw))
    (py_setattr gl "rotate_labels" (arg "rotate_labels" kw));;
  (* Gridline label formatters *)
  xformatter ← _GeoAxis.get_major_formatter Lon;
  py_setattr gl "xformatter" xformatter;;
  yformatter ← _GeoAxis.get_major_formatter Lat;
  py_setattr gl "yformatter" yformatter;;
  (* Gridline label toggling *)
  e ← get_env;
  p ← projection;
  '(latarray, lonarray) ←
    (if version_ltb (_version_cartopy e) v0_18 &&
        negb (isinstance_any p ["cartopy.crs.Mercator"; "cartopy.crs.PlateCarree"])
     then
       latarray ← drop_labels (type_name p) (arg "latarray" kw);
       lonarray ← drop_labels (type_name p) (arg "lonarray" kw);
       mret (latarray, lonarray)
     else mret (arg "latarray" kw, arg "lonarray" kw));
  toggle_from_arrays gl latarray lonarray.

Definition _update_minor_gridlines (longrid latgrid : pyval) : M unit :=
  a ← get_self;
  cached ← lift (truthy (_gridlines_minor a));
  when (negb cached)
    (gl ← _init_gridlines; modify_self (upd_gridlines_minor gl));;
  a ← get_self;
  let gl := _gridlines_minor a in
  _update_gridlines gl "minor" longrid latgrid.

(** The methods of this class that [GeoAxes.format] calls. *)
Definition subclass : GeoAxes.Subclass :=
  GeoAxes.mkSubclass _update_extent _update_patches _update_features
    _update_major_gridlines _update_minor_gridlines.

Definition format (kw : kwargs) : M unit := GeoAxes.format subclass kw.

(** [extent[:2] = [west, east]] *)
Definition store_lon_bounds (extent west east : pyval) : result pyval :=
  match extent with
  | VList l => Ok (VList ([west; east] ++ drop 2 l))
  | VArray l =>
      if (2 <=? length l)%nat then Ok (VArray ([west; east] ++ drop 2 l))
      else Raise ValueError
  | _ => Raise TypeError
  end.

Definition get_extent (crs : pyval) : M pyval :=
  crs ← (if is_none crs then ext_call "ccrs.PlateCarree" [] [] else mret crs);
  extent ← ext_call "super().get_extent" [] [("crs", crs)];
  if isinstance crs "cartopy.crs.PlateCarree" then
    l ← lift (slice_from 0 extent);
    first ← lift (py_index l 0);
    close ← lift (isclose first (VInt (-180)));
    close ←
      (if (close : bool) then
         final ← lift (py_index l (length l - 1));
         lift (isclose final (VInt 180))
       else mret false);
    if (close : bool) then
      (* Repair longitude bounds to reflect dateline position *)
      lon0 ← _get_lon0;
      west ← lift (py_sub lon0 (VInt 180));
      east ← lift (py_add lon0 (VInt 180));
      lift (store_lon_bounds extent west east)
    else mret extent
  else mret extent.

Definition set_global : M pyval :=
  result ← ext_call "super().set_global" [] [];
  extent ← get_extent VNone;
  GeoAxes._set_view_intervals extent;;
  mret result.

(** The default bounding latitude of a polar projection. *)
Definition default_boundinglat (map_projection : pyval) : pyval :=
  if isinstance map_projection "proplot.crs.NorthPolarGnomonic" then VInt 30
  else if isinstance map_projection "proplot.crs.SouthPolarGnomonic" then VInt (-30)
  else VInt 0.

Definition __init__ (args : list pyval) (map_projection : pyval) (kwargs : kwargs)
  : M unit :=
  (* import cartopy *)
  e ← get_env;
  when (negb (cartopy_installed e)) (raise ModuleNotFoundError);;
  when (negb (isinstance map_projection "cartopy.crs.Projection")) (raise ValueError);;
  let polar := isinstance_any map_projection _proj_polar in
  let latmax := VInt (if polar then 80 else 90) in
  let boundinglat := if polar then default_boundinglat map_projection else VNone in
  (* Initialize axes *)
  modify_self (upd_boundinglat boundinglat);;
  modify_self (upd_map_projection map_projection);;
  modify_self (upd_gridlines_major VNone);;
  modify_self (upd_gridlines_minor VNone);;
  _LonAxis.__init__ map_projection;;
  _LatAxis.__init__ latmax map_projection;;
  ext_call "super().__init__" args (("map_projection", map_projection) :: kwargs);;
  (* Circular map boundary for polar projections, global extent for others *)
  has_set_boundary ←
    (if polar then
       r ← ext_call "hasattr" [VStr "self"; VStr "set_boundary"] [];
       lift (truthy r)
     else mret false);
  when has_set_boundary
    (boundary ← ext_call "_circle_boundary" [] [];
     ext_call "self.set_boundary" [boundary] [("transform", VStr "self.transAxes")];;
     mret tt);;
  autoextent ← ext_call "rc.__getitem__" [VStr "cartopy.autoextent"] [];
  autoextent ← lift (truthy autoextent);
  when (negb autoextent)
    (if polar then a ← get_self; _update_extent VNone VNone (_boundinglat a)
     else set_global;; mret tt);;
  (* Zero out ticks to prevent extra label offset *)
  ext_call "set_tick_params" [VStr "self.xaxis"] [("which", VStr "both"); ("size", VInt 0)];;
  ext_call "set_tick_params" [VStr "self.yaxis"] [("which", VStr "both"); ("size", VInt 0)];;
  mret tt.

End CartopyAxes.

(** ** class BasemapAxes *)

Module BasemapAxes.

Definition _proj_north : list string := ["npaeqd"; "nplaea"; "npstere"].

Definition _proj_south : list string := ["spaeqd"; "splaea"; "spstere"].

Definition _proj_polar : list string := _proj_north ++ _proj_south.

(** The property [projection]. *)
Definition projection : M pyval :=
  a ← get_self; mret (_map_projection a).

Definition _get_lon0 : M pyval :=
  p ← projection;
  params ← lift (as_dict (obj_getattr_default p "projparams" (VDict [])));
  mret (dict_get_default "lon_0" (VInt 0) params).

(** [latmax] and [extent], as the two branches on the projection name
    compute them. *)
Definition initial_extent (map_projection lon0 : pyval)
  : result (pyval * list pyval) :=
  name ← obj_getattr map_projection "projection";
  if in_strings name _proj_polar then
    west ← py_add (VInt (-180)) lon0;
    east ← py_add (VInt 180) lon0;
    let boundinglat := obj_getattr_default map_projection "boundinglat" (VInt 0) in
    if in_strings name _proj_north
    then Ok (VInt 80, [west; east; boundinglat; VInt 90])
    else Ok (VInt 80, [west; east; VInt (-90); boundinglat])
  else
    let extent :=
      List.map (fun attr => obj_getattr_default map_projection attr VNone)
        ["lonmin"; "lonmax"; "latmin"; "latmax"] in
    if existsb is_none extent then
      west ← py_sub (VInt 180) lon0;
      east ← py_add (VInt 180) lon0;
      Ok (VInt 90, [west; east; VInt (-90); VInt 90])
    else Ok (VInt 90, extent).

Definition __init__ (args : list pyval) (map_projection : pyval) (kwargs : kwargs)
  : M unit :=
  (* import mpl_toolkits.basemap: verify available *)
  e ← get_env;
  when (negb (basemap_installed e)) (raise ModuleNotFoundError);;
  when (negb (isinstance map_projection "mpl_toolkits.basemap.Basemap"))
    (raise ValueError);;
  modify_self (upd_map_projection map_projection);;
  lon0 ← _get_lon0;
  '(latmax, extent) ← lift (initial_extent map_projection lon0);
  (* Initialize axes *)
  modify_self upd_basemap_slots;;
  _LonAxis.__init__ VNone;;
  _LatAxis.__init__ latmax VNone;;
  GeoAxes._set_view_intervals (VList extent);;
  ext_call "super().__init__" args kwargs;;
  mret tt.

(** No-op. Map bounds cannot be changed in basemap. *)
Definition _update_extent (lonlim latlim boundinglat : pyval) : M unit :=
  when (not_none lonlim || not_none latlim || not_none boundinglat)
    (_warn_proplot
       "you cannot zoom into a basemap projection after creating it"
       [lonlim; latlim; boundinglat]).

(** Projections that do not use the axes spines as boundaries. *)
Definition _proj_non_rectangular : list string :=
  _proj_polar ++
  ["ortho"; "geos"; "nsper"; "moll"; "hammer"; "robin";
   "eck4"; "kav7"; "mbtfpq"; "sinu"; "vandg"].

(** The setter of the property [projection]; [mbasemap] is [None] where
    basemap is not installed. *)
Definition set_projection (map_projection : pyval) : M unit :=
  e ← get_env;
  when (negb (basemap_installed e)) (raise AttributeError);;
  when (negb (isinstance map_projection "mpl_toolkits.basemap.Basemap"))
    (raise ValueError);;
  modify_self (upd_map_projection map_projection).

(** Iterate over longitude latitude lines. *)
Definition _iter_gridlines (dict_ : pyval) : generator :=
  match truthy dict_ with
  | Raise e => ([], Some e)
  | Ok t =>
      match (if t then dict_ else VDict []) with
      | VDict d =>
          yield_from
            (fun pi =>
               match iterate pi with
               | Raise e => ([], Some e)
               | Ok pjs => yield_from yield_items pjs
               end)
            (List.map snd d)
      | _ => ([], Some AttributeError)
      end
  end.

Definition _update_patches (patch_kw : pyval) : M unit :=
  (* Map boundary settings *)
  kw_face ← ext_call "rc.fill"
    [VDict [("facecolor", VStr "axes.facecolor"); ("alpha", VStr "axes.alpha")]]
    [("context", VBool true)];
  kw_edge ← ext_call "rc.fill"
    [VDict [("linewidth", VStr "axes.linewidth");
            ("edgecolor", VStr "axes.edgecolor")]]
    [("context", VBool true)];
  kw_face ← lift (kw_face ← as_dict kw_face;
                  t ← truthy patch_kw;
                  match (if (t : bool) then patch_kw else VDict []) with
                  | VDict other => Ok (dict_update kw_face other)
                  | _ => Raise TypeError
                  end);
  ext_call "setattr" [VStr "self"; VStr "axesPatch"; VStr "self.patch"] [];;
  p ← projection;
  name ← lift (obj_getattr p "projection");
  if in_strings name _proj_non_rectangular then
    (* Non-rectangularly-bounded projections *)
    ext_call "self.patch.set_alpha" [VInt 0] [];;
    drawn ← ext_call "getattr" [p; VStr "_mapboundarydrawn"] [];
    drawn ← lift (truthy drawn);
    b ← (if negb drawn then call_method p "drawmapboundary" [] [("ax", VStr "self")]
         else ext_call "getattr" [p; VStr "_mapboundarydrawn"] []);
    call_method b "update" [VDict kw_face] [];;
    call_method b "update" [kw_edge] [];;
    call_method b "set_rasterized" [VBool false] [];;
    call_method b "set_clip_on" [VBool false] [];;
    modify_self (upd_map_boundary b)
  else
    (* Rectangularly-bounded projections *)
    ext_call "self.patch.update"
      [VDict (dict_set "edgecolor" (VStr "none") kw_face)] [];;
    spines ← ext_call "self.spines.values" [] [];
    spines ← lift (iterate spines);
    for_each spines (fun spine => call_method spine "update" [kw_edge] [];; mret tt).

(** [BASEMAP_FEATURES] is a table of [proplot.constructor]: the name of
    each feature and of the method of the projection that draws it. *)
Definition _update_features (BASEMAP_FEATURES : kwargs) : M unit :=
  for_each BASEMAP_FEATURES (fun '(name, method) =>
    b ← rc_get name;
    when (not_none b)
      (a ← get_self;
       let feat := dict_get_default name VNone (_features a) in
       b ← lift (truthy b);
       if negb b then
         (* toggle existing feature off *)
         when (not_none feat)
           (objs ← lift (iterate feat);
            for_each objs (fun _ =>
              call_method feat "set_visible" [VBool false] [];; mret tt))
       else
         (* if exists, apply updated settings *)
         let drawn := not_none feat in
         feat ←
           (if drawn then mret feat
            else
              p ← projection;
              method ← lift (match method with
                             | VStr m => Ok m
                             | _ => Raise TypeError
                             end);
              call_method p method [] [("ax", VStr "self")]);
         kw ← ext_call "rc.category" [VStr name] [("context", VBool drawn)];
         let feat :=
           if isinstance_any feat ["list"; "tuple"] then feat else VTuple [feat] in
         objs ← lift (iterate feat);
         for_each objs (fun obj => call_method obj "update" [kw] [];; mret tt);;
         modify_self (upd_features (dict_set name feat)))).

(** The flags [attrs] of [_update_gridlines], read and assigned. *)
Definition default_flags (which : string) : list (GeoAxis -> bool) :=
  if String.eqb which "major" then [isDefault_majloc; isDefault_majfmt]
  else [isDefault_minloc].

Definition mark_default (which : string) (g : GeoAxis) : GeoAxis :=
  if String.eqb which "major"
  then upd_isDefault_majfmt true (upd_isDefault_majloc true g)
  else upd_isDefault_minloc true g.

(** The body of the loop of [_update_gridlines], for one of the two axes:
    [grid], [array] and [method] are those of the axis [name]. *)
Definition update_lines (which : string) (latmax : pyval) (name : axis_name)
    (grid array : pyval) (method : string) : M unit :=
  (* Correct lonarray and latarray, change from lrbt to lrtb *)
  array ←
    (if not_none array then
       l ← lift (iterate array);
       mret (VList (take 2 l ++ rev (drop 2 l)))
     else mret array);
  (* Toggle gridlines *)
  a ← get_self;
  objs ← lift (get_lines name which a);  (* previous objects *)
  lines ←
    match name with
    | Lon => GeoAxes._get_lonticklocs which
    | Lat => GeoAxes._get_latticklocs which
    end;
  rebuild ←
    (drawn ← lift (truthy objs);
     if negb drawn then mret true
     else
       l ← lift (iterate array);
       if existsb not_none l then mret true
       else
         g ← _GeoAxis.get name;
         mret (existsb (fun flag => negb (flag g)) (default_flags which)));
  (* Draw or redraw meridian or parallel lines *)
  objs ←
    (if (rebuild : bool) then
       _GeoAxis.update name (mark_default which);;
       formatter ← _GeoAxis.get_major_formatter name;
       let kwdraw := if not_none formatter then [("fmt", formatter)] else [] in
       for_gen (_iter_gridlines objs) (fun obj =>
         call_method obj "set_visible" [VBool false] [];; mret tt);;
       p ← projection;
       objs ← call_method p method [lines]
         ([("ax", VStr "self"); ("latmax", latmax); ("labels", array)]
          ++ kwdraw);
       modify_self (upd_lines name which objs);;
       mret objs
     else mret objs);
  (* Update gridline settings *)
  rc_mode ← ext_call "rc._get_context_mode" [] [];
  '(kwlines, kwtext) ←
    GeoAxes._get_gridline_props which
      (negb rebuild && py_eq rc_mode (VInt 2));
  for_gen (_iter_gridlines objs) (fun obj =>
    (if isinstance obj "matplotlib.text.Text"
     then call_method obj "update" [kwtext] []
     else call_method obj "update" [kwlines] []);;
    mret tt);;
  (* Toggle existing gridlines on and off *)
  when (not_none grid)
    (for_gen (_iter_gridlines objs) (fun obj =>
       call_method obj "set_visible" [grid] [];; mret tt)).

Definition _update_gridlines (which : string)
    (longrid latgrid lonarray latarray : pyval) : M unit :=
  latmax ← _LatAxis.get_latmax;
  for_each
    [(Lon, longrid, lonarray, "drawmeridians");
     (Lat, latgrid, latarray, "drawparallels")]
    (fun '(name, grid, array, method) =>
       update_lines which latmax name grid array method).

Definition _update_major_gridlines (kw : kwargs) : M unit :=
  _update_gridlines "major" (arg "longrid" kw) (arg "latgrid" kw)
    (arg "lonarray" kw) (arg "latarray" kw).

Definition _update_minor_gridlines (longrid latgrid : pyval) : M unit :=
  (* must be None not False *)
  let array := VList (replicate 4 VNone) in
  _update_gridlines "minor" longrid latgrid array array.

(** The methods of this class that [GeoAxes.format] calls. *)
Definition subclass (BASEMAP_FEATURES : kwargs) : GeoAxes.Subclass :=
  GeoAxes.mkSubclass _update_extent _update_patches
    (_update_features BASEMAP_FEATURES)
    _update_major_gridlines _update_minor_gridlines.

Definition format (BASEMAP_FEATURES : kwargs) (kw : kwargs) : M unit :=
  GeoAxes.format (subclass BASEMAP_FEATURES) kw.

End BasemapAxes.

(** ** A concrete world, for running the methods *)

Module Sample.

(** [_not_none]: the first argument that is not [None], else the default. *)
Fixpoint first_not_none (l : list pyval) (dflt : pyval) : pyval :=
  match l with
  | [] => dflt
  | x :: l' => if is_none x then first_not_none l' dflt else x
  end.

Definition plate_carree : pyval :=
  VObj ["cartopy.crs.PlateCarree"; "cartopy.crs._CylindricalProjection";
        "cartopy.crs._RectangularProjection"; "cartopy.crs.Projection";
        "cartopy.crs.CRS"; "object"]
       [("proj4_params", VDict [("lon_0", VInt 0)])].

Definition basemap : pyval :=
  VObj ["mpl_toolkits.basemap.Basemap"; "object"]
       [("projection", VStr "cyl"); ("projparams", VDict [("lon_0", VInt 0)])].

(** Answers of the outside: [_parse_format] hands every keyword on,
    [_not_none] picks the first value that is not [None], a locator returns
    three ticks. *)
Definition oracle (l : list event) : result pyval :=
  match last l with
  | Some (Call fn args kw) =>
      if String.eqb fn "_not_none" then
        Ok (first_not_none (args ++ List.map snd (dict_remove "default" kw))
              (dict_get_default "default" VNone kw))
      else if String.eqb fn "self._parse_format" then
        Ok (VTuple [VDict []; VInt 2; VDict kw])
      else if String.eqb fn "rc.fill" then Ok (VDict [])
      else if String.eqb fn "rc.category" then Ok (VDict [("color", VStr "k")])
      else if String.eqb fn "rc.__getitem__" then Ok (VStr "lo")
      else if String.eqb fn "__call__" then Ok (VList [VInt (-90); VInt 0; VInt 90])
      else if String.eqb fn "ccrs.PlateCarree" then Ok plate_carree
      else Ok VNone
  | None => Ok VNone
  end.

Definition blank_axis : GeoAxis :=
  mkGeoAxis true true true VNone VNone VNone VNone VNone.

Definition blank_axes : Axes :=
  mkAxes VNone VNone VNone VNone blank_axis blank_axis []
    VNone VNone VNone VNone VNone VNone.

Definition environment (cartopy basemap : bool) : Env :=
  mkEnv cartopy basemap (0, 18)%nat [("lo", VStr "110m")]
    [("coast", VTuple [VStr "physical"; VStr "coastline"])].

(** Before [__init__], with both libraries installed. *)
Definition blank : World :=
  mkWorld (environment true true) blank_axes ∅ [] oracle.

(** Before [__init__], with neither library installed. *)
Definition bare : World :=
  mkWorld (environment false false) blank_axes ∅ [] oracle.

(** After [CartopyAxes.__init__]. *)
Definition cartopy_axes : World :=
  snd (CartopyAxes.__init__ [] plate_carree [] blank).

End Sample.

(** * Predicates of the properties *)

(** ** Ticks *)

(** A list of ticks at which the loop of [_LonAxis._constrain_ticks] stops:
    it is empty, or its last element minus its first is at most 360 plus
    twice the tolerance. *)
Definition within_span (ticks : list Q) : Prop :=
  ticks = [] \/
  exists t0 tl, ticks !! 0%nat = Some t0 /\ last_tick ticks = Some tl /\
                tl - t0 <= 360 + 2 * _LonAxis.eps.

(** The tick at position [i] of [n] after [_LatAxis._constrain_ticks]: a
    first tick equal to -90 moves up, a last tick equal to 90 moves down. *)
Definition nudged (n i : nat) (x : Q) : Q :=
  if (i =? 0)%nat && Qeq_bool x (-90) then x + _LatAxis.eps
  else if (i =? n - 1)%nat && Qeq_bool x 90 then x - _LatAxis.eps
  else x.

(** ** Label specifications *)

(** An invalid label specification, in the words of the specification:
    neither [None] nor a string, and of length 3 or above 4. *)
Definition invalid_label_spec_claimed (labels : pyval) : Prop :=
  is_none labels = false /\ is_str labels = false /\
  (len (atleast_1d labels) = 3%nat \/ (4 < len (atleast_1d labels))%nat).

(** An invalid label specification, for the code: the empty sequence is
    one too. *)
Definition invalid_label_spec (labels : pyval) : Prop :=
  is_none labels = false /\ is_str labels = false /\
  (len (atleast_1d labels) = 0%nat \/ len (atleast_1d labels) = 3%nat \/
   (4 < len (atleast_1d labels))%nat).

(** ** Gridliner labels *)

(** The attributes of the four sides, left, right, bottom, top, by version
    of cartopy. *)
Definition label_attrs (v : version) : list string :=
  if version_geb v v0_18
  then ["left_labels"; "right_labels"; "bottom_labels"; "top_labels"]
  else ["ylabels_left"; "ylabels_right"; "xlabels_bottom"; "xlabels_top"].

(** One guarded assignment: [if v is not None: setattr(gl, name, v)]. *)
Definition assign (name : string) (v : pyval) (attrs : gmap string pyval)
  : gmap string pyval :=
  if is_none v then attrs else <[name := v]> attrs.

(** ** The call of [format] *)

(** The head of [format], up to and including [__enter__]: it returns the
    context manager and the keywords for the parent. *)
Definition enter_rc_context (kw : kwargs) : M (pyval * pyval) :=
  r ← ext_call "self._parse_format" [] (GeoAxes.undeclared kw);
  '(rc_kw, rc_mode, kwargs) ← lift (unpack3 r);
  cm ← ext_call "rc.context" [rc_kw] [("mode", rc_mode)];
  ext_call "__enter__" [cm] [];;
  mret (cm, kwargs).

(** The keywords that [format] binds to its own parameters. *)
Definition declared (kw : kwargs) : kwargs :=
  List.filter (fun kv => mem_string (fst kv) GeoAxes.format_params) kw.

Definition is_parent_call (ev : event) : bool :=
  match ev with Call fn _ _ => String.eqb fn "super().format" end.

(** ** The gridliner cache *)

(** [w'] has the cache, and the gridliners, of [w]. *)
Definition same_cache (w w' : World) : Prop :=
  _gridlines_major (self w') = _gridlines_major (self w) /\
  _gridlines_minor (self w') = _gridlines_minor (self w) /\
  dom (heap w') = dom (heap w).

(** A method that neither assigns the cache nor creates a gridliner. *)
Definition frames {A} (m : M A) : Prop := forall w, same_cache w (snd (m w)).

(** A slot of the cache holds [None] or a gridliner. *)
Definition slot_ok (v : pyval) : Prop := v = VNone \/ exists l, v = VRef l.

Definition cache_ok (w : World) : Prop :=
  slot_ok (_gridlines_major (self w)) /\ slot_ok (_gridlines_minor (self w)).

Definition empty_slots (w : World) : nat :=
  ((if is_none (_gridlines_major (self w)) then 1 else 0) +
   (if is_none (_gridlines_minor (self w)) then 1 else 0))%nat.

(** From [w] to [w']: a filled slot keeps its gridliner, no gridliner is
    lost, and every gridliner created fills an empty slot. *)
Definition cache_step (w w' : World) : Prop :=
  cache_ok w ->
  cache_ok w' /\
  (not_none (_gridlines_major (self w)) = true ->
   _gridlines_major (self w') = _gridlines_major (self w)) /\
  (not_none (_gridlines_minor (self w)) = true ->
   _gridlines_minor (self w') = _gridlines_minor (self w)) /\
  dom (heap w) ⊆ dom (heap w') /\
  (size (dom (heap w')) + empty_slots w' <= size (dom (heap w)) + empty_slots w)%nat.

Definition steps {A} (m : M A) : Prop := forall w, cache_step w (snd (m w)).

(** [m] returns [a] on a world where the gridliner [l] is live, and is
    framed. *)
Definition succeeds {A} (l : loc) (m : M A) (a : A) : Prop :=
  forall w, l ∈ dom (heap w) ->
            exists w', m w = (Ok a, w') /\ same_cache w w'.

(** The head of [_update_major_gridlines] and of [_update_minor_gridlines]:
    the slot is filled when it holds no true value. *)
Definition fill_slot (get : Axes -> pyval) (upd : pyval -> Axes -> Axes) : M unit :=
  a ← get_self;
  cached ← lift (truthy (get a));
  when (negb cached)
    (gl ← CartopyAxes._init_gridlines; modify_self (upd gl)).

(** What [_update_major_gridlines] does once the slot is filled. *)
Definition update_major_rest (kw : kwargs) : M unit :=
  a ← get_self;
  let gl := _gridlines_major a in
  CartopyAxes._update_gridlines gl "major" (arg "longrid" kw) (arg "latgrid" kw);;
  when (not_none (arg "labelpad" kw))
    (py_setattr gl "xpadding" (arg "labelpad" kw);;
     py_setattr gl "ypadding" (arg "labelpad" kw));;
  when (not_none (arg "loninline" kw)) (py_setattr gl "x_inline" (arg "loninline" kw));;
  when (not_none (arg "latinline" kw)) (py_setattr gl "y_inline" (arg "latinline" kw));;
  when (not_none (arg "rotate_labels" kw))
    (py_setattr gl "rotate_labels" (arg "rotate_labels" kw));;
  xformatter ← _GeoAxis.get_major_formatter Lon;
  py_setattr gl "xformatter" xformatter;;
  yformatter ← _GeoAxis.get_major_formatter Lat;
  py_setattr gl "yformatter" yformatter;;
  e ← get_env;
  p ← CartopyAxes.projection;
  '(latarray, lonarray) ←
    (if version_ltb (_version_cartopy e) v0_18 &&
        negb (isinstance_any p ["cartopy.crs.Mercator"; "cartopy.crs.PlateCarree"])
     then
       latarray ← CartopyAxes.drop_labels (type_name p) (arg "latarray" kw);
       lonarray ← CartopyAxes.drop_labels (type_name p) (arg "lonarray" kw);
       mret (latarray, lonarray)
     else mret (arg "latarray" kw, arg "lonarray" kw));
  CartopyAxes.toggle_from_arrays gl latarray lonarray.

(** What [_update_minor_gridlines] does once the slot is filled. *)
Definition update_minor_rest (longrid latgrid : pyval) : M unit :=
  a ← get_self;
  let gl := _gridlines_minor a in
  CartopyAxes._update_gridlines gl "minor" longrid latgrid.

(** Repeated calls of [format] on one axes, whatever each call returns. *)
Definition run_formats (calls : list kwargs) (w : World) : World :=
  fold_left (fun w kw => snd (CartopyAxes.format kw w)) calls w.

(** * Worlds and predicates of the further properties *)

(** Worlds for the witnesses. *)
Module Sample2.

(** The outside answers every call with [v]. *)
Definition answering (v : pyval) (a : Axes) : World :=
  mkWorld (Sample.environment true true) a ∅ [] (fun _ => Ok v).

(** An axes on a plate carree projection whose cartopy reports the global
    extent. *)
Definition global : World :=
  answering (VList [VInt (-180); VInt 180; VInt (-90); VInt 90])
    (upd_map_projection Sample.plate_carree Sample.blank_axes).

(** [rc.get] answers [True], every other call an empty dict. *)
Definition below (l : list event) : result pyval :=
  match last l with
  | Some (Call fn _ _) =>
      if String.eqb fn "rc.get" then Ok (VBool true) else Ok (VDict [])
  | None => Ok VNone
  end.

(** An axes whose coastline is drawn. *)
Definition with_coast : World :=
  mkWorld (Sample.environment true true)
    (upd_features (dict_set "coast" (VObj ["FeatureArtist"; "object"] []))
       Sample.blank_axes)
    ∅ [] Sample.oracle.

(** A basemap axes whose minor lines are drawn. *)
Definition drawn_lines : pyval :=
  VDict [("0", VTuple [VList [VObj ["Line2D"; "object"] []]; VList []])].

Definition with_minor_lines : World :=
  mkWorld (Sample.environment true true)
    (upd_lines Lon "minor" drawn_lines
       (upd_lines Lat "minor" drawn_lines
          (upd_map_projection Sample.basemap Sample.blank_axes)))
    ∅ [] Sample.oracle.

End Sample2.



(** ** Invariants of a run *)

(** Every run of [m] takes a world to one that [R] relates to it. *)
Definition inv (R : relation World) {A} (m : M A) : Prop :=
  forall w, R w (snd (m w)).

(** [w'] agrees with [w] on [f]. *)
Definition kept {B} (f : World -> B) : relation World :=
  fun w w' => f w' = f w.

(** [w'] extends the log of [w] by calls that satisfy [P]. *)
Definition emitted (P : event -> Prop) : relation World :=
  fun w w' => exists evs, log w' = log w ++ evs /\ Forall P evs.

(** The callee of a call. *)
Definition callee (ev : event) : string :=
  match ev with Call fn _ _ => fn end.

(** A test that evaluated to a true value. *)
Definition holds (r : result bool) : bool :=
  match r with Ok true => true | _ => false end.

(** The view intervals of the two axes. *)
Definition view_intervals (w : World) : pyval * pyval :=
  (_interval (_lonaxis (self w)), _interval (_lataxis (self w))).

(** [np.isclose(x, target)] with the default tolerances, on numbers. *)
Definition close_to (x target : Q) : Prop :=
  Qabs (x - target) <= (1 # 100000000) + (1 # 100000) * Qabs target.

(** A call that creates a feature artist. *)
Definition creates_feature (ev : event) : bool :=
  mem_string (callee ev) ["cfeature.NaturalEarthFeature"; "self.add_feature"].

(** [w'] has the axes and the gridliners of [w], and extends its log by
    calls that satisfy [P]. *)
Definition only_calls (P : event -> Prop) : relation World :=
  fun w w' => self w' = self w /\ heap w' = heap w /\ env w' = env w /\
              oracle w' = oracle w /\ emitted P w w'.

(** A list, tuple or array. *)
Definition is_seq (v : pyval) : bool :=
  match v with VList _ | VTuple _ | VArray _ => true | _ => false end.

(** A call that draws meridians or parallels. *)
Definition draws (ev : event) : bool :=
  mem_string (callee ev) ["drawmeridians"; "drawparallels"].

(** A call that draws meridians passes [lon] as its labels, and one that
    draws parallels passes [lat]. *)
Definition draws_with_labels (lon lat : pyval) (ev : event) : Prop :=
  match ev with
  | Call fn _ kw =>
      (fn = "drawmeridians" -> dict_get "labels" kw = Some lon) /\
      (fn = "drawparallels" -> dict_get "labels" kw = Some lat)
  end.

(** ** The axes' tickers *)



(** Every feature that [w'] stores is stored by [w] or is a list or a
    tuple. *)
Definition features_wrapped (w w' : World) : Prop :=
  forall name,
    dict_get name (_features (self w')) = dict_get name (_features (self w)) \/
    exists feat, dict_get name (_features (self w')) = Some feat /\
                 isinstance_any feat ["list"; "tuple"] = true.

(** A call that updates the patch of the axes passes the settings [kw]. *)
Definition updates_patch_with (kw : kwargs) (ev : event) : Prop :=
  match ev with
  | Call fn args _ => fn = "self.patch.update" -> args = [VDict kw]
  end.

(** [w'] has the bounding latitude of [w], or [b]. *)
Definition boundinglat_to (b : pyval) : relation World :=
  fun w w' => _boundinglat (self w') = _boundinglat (self w) \/
              _boundinglat (self w') = b.

(** What a basemap axes is drawn on and within. *)
Definition map_frame (w : World) : pyval * pyval * (pyval * pyval) :=
  (_map_projection (self w), _boundinglat (self w), view_intervals w).

(** * Theorems *)

(** ** Runs of the model on concrete inputs *)

Example lon_ticks_run :
  _LonAxis._constrain_ticks [360; 0; 180; 540; -180] = [-180; 0; 180].
Proof. reflexivity. Qed.

Example lat_ticks_run :
  _LatAxis._constrain_ticks 90 [-90; 0; 95; 90] =
  Ok [-90 + _LatAxis.eps; 0; 90 - _LatAxis.eps].
Proof. reflexivity. Qed.

Example zorder_run : GeoAxes._axis_below_to_zorder (VStr "lines") = Ok (3 # 2).
Proof. reflexivity. Qed.

Example labels_run_string :
  GeoAxes._to_label_array (VStr "lb") true =
  Ok (VList [VInt 1; VInt 0; VInt 1; VInt 0]).
Proof. reflexivity. Qed.

Example labels_run_scalar :
  GeoAxes._to_label_array (VBool true) true =
  Ok (VList [VInt 0; VInt 0; VBool true; VInt 0]).
Proof. reflexivity. Qed.

Example format_run :
  let r := CartopyAxes.format [("lonlabels", VStr "b"); ("linewidth", VInt 2)]
             Sample.cartopy_axes in
  fst r = Ok tt /\
  last (log (snd r)) = Some (Call "__exit__" [VNone] []) /\
  _gridlines_major (self (snd r)) = VRef 1%positive /\
  _gridlines_minor (self (snd r)) = VRef 2%positive.
Proof. vm_compute. repeat split. Qed.

(** Before the first gridliner exists, [set_extent] reaches
    [_update_gridlines] with [None]. *)
Example format_run_lonlim_first :
  fst (CartopyAxes.format [("lonlim", VTuple [VInt 0; VInt 10])] Sample.cartopy_axes)
  = Raise AttributeError.
Proof. vm_compute. reflexivity. Qed.

Example run_formats_run :
  let w' := run_formats [[("lonlabels", VStr "b")]; []; [("latgrid", VBool true)]]
              Sample.cartopy_axes in
  (_gridlines_major (self w'), _gridlines_minor (self w'), size (dom (heap w'))) =
  (VRef 1%positive, VRef 2%positive, 2%nat).
Proof. vm_compute. reflexivity. Qed.

(** ** Order on the rationals *)

Lemma Qgt_bool_iff a b : Qgt_bool a b = true <-> b < a.
Proof.
  unfold Qgt_bool. rewrite negb_true_iff.
  split.
  - intros H. apply Qnot_le_lt. intros Hle.
    apply Qle_bool_iff in Hle. congruence.
  - intros H. destruct (Qle_bool a b) eqn:E; [| reflexivity].
    apply Qle_bool_iff in E. exfalso. exact (Qlt_not_le _ _ H E).
Qed.

Lemma Qgt_bool_false_iff a b : Qgt_bool a b = false <-> a <= b.
Proof.
  unfold Qgt_bool. rewrite negb_false_iff. apply Qle_bool_iff.
Qed.

#[global] Instance Qle_total : Total Qle.
Proof.
  intros x y. destruct (Qlt_le_dec y x) as [H | H].
  - right. apply Qlt_le_weak. exact H.
  - left. exact H.
Qed.

#[global] Instance Qle_trans_inst : Transitive Qle.
Proof. intros x y z. apply Qle_trans. Qed.

Lemma StronglySorted_lookup_le (l : list Q) i j x y :
  StronglySorted Qle l -> l !! i = Some x -> l !! j = Some y ->
  (i <= j)%nat -> x <= y.
Proof.
  intros Hs. revert i j. induction Hs as [| a l Hs IH Hall]; intros i j Hi Hj Hij.
  - discriminate.
  - destruct i as [| i], j as [| j]; simpl in *.
    + injection Hi as <-. injection Hj as <-. apply Qle_refl.
    + injection Hi as <-. rewrite List.Forall_forall in Hall.
      apply Hall. apply list_elem_of_In. eapply list_elem_of_lookup_2. exact Hj.
    + lia.
    + apply (IH i j); [assumption | assumption | lia].
Qed.

Lemma sorted_take_strongly k ticks : StronglySorted Qle (take k (sorted ticks)).
Proof.
  apply (StronglySorted_app_1_l _ _ (drop k (sorted ticks))).
  rewrite take_drop. apply StronglySorted_merge_sort; apply _.
Qed.

(** ** _LonAxis._constrain_ticks *)

Section LonTicks.
Import _LonAxis.

Lemma looped_nonempty ticks : looped ticks = true -> (0 < length ticks)%nat.
Proof. destruct ticks; [discriminate |]. simpl. lia. Qed.

Lemma looped_false_iff ticks : looped ticks = false <-> within_span ticks.
Proof.
  unfold looped, within_span. split.
  - destruct (ticks !! 0%nat) as [t0|] eqn:E0.
    + destruct (last_tick ticks) as [tl|] eqn:El.
      * intros H. apply Qgt_bool_false_iff in H. right. exists t0, tl.
        repeat split; try reflexivity. unfold eps in *. lra.
      * intros _. left. unfold last_tick in El.
        apply lookup_ge_None in El. apply lookup_lt_Some in E0.
        destruct ticks; [reflexivity | simpl in *; lia].
    + intros _. left. destruct ticks; [reflexivity | discriminate].
  - intros [-> | (t0 & tl & -> & -> & H)]; [reflexivity |].
    apply Qgt_bool_false_iff. unfold eps in *. lra.
Qed.

(** The loop returns a prefix: the longest one at which the guard fails. *)
Lemma cut_looped_take ticks :
  exists k, (k <= length ticks)%nat /\
    cut_looped ticks = take k ticks /\
    looped (take k ticks) = false /\
    forall j, (k < j <= length ticks)%nat -> looped (take j ticks) = true.
Proof.
  apply (cut_looped_elim (fun ticks res =>
    exists k, (k <= length ticks)%nat /\ res = take k ticks /\
      looped (take k ticks) = false /\
      forall j, (k < j <= length ticks)%nat -> looped (take j ticks) = true)).
  - intros t Hg (k & Hk & Hres & Hstop & Hlong) _.
    pose proof (looped_nonempty _ Hg) as Hpos.
    rewrite length_take in Hk, Hlong.
    exists k. split; [lia |].
    rewrite take_take in Hres, Hstop.
    replace (k `min` (length t - 1))%nat with k in * by lia.
    repeat split; try assumption.
    intros j Hj. destruct (decide (j = length t)) as [-> | Hne].
    + rewrite firstn_all. exact Hg.
    + specialize (Hlong j). rewrite take_take in Hlong.
      replace (j `min` (length t - 1))%nat with j in Hlong by lia.
      apply Hlong. lia.
  - intros t Hg _. exists (length t). split; [lia |].
    rewrite firstn_all. repeat split; try assumption. intros j Hj. lia.
Qed.

(** C10. For every list of ticks, [_LonAxis._constrain_ticks] returns the
    sorted input with its largest elements removed one at a time, stopping
    at the first list that is empty or whose last element minus its first is
    at most 360 plus twice 5e-10; so the result is sorted and any two of its
    elements differ by at most that much. *)
Theorem lon_constrain_ticks_spec (ticks : list Q) :
  sorted ticks ≡ₚ ticks /\ Sorted Qle (sorted ticks) /\
  exists k, (k <= length ticks)%nat /\
    _constrain_ticks ticks = take k (sorted ticks) /\
    within_span (take k (sorted ticks)) /\
    (forall j, (k < j <= length ticks)%nat ->
               ~ within_span (take j (sorted ticks))) /\
    Sorted Qle (_constrain_ticks ticks) /\
    (forall x y, x ∈ _constrain_ticks ticks -> y ∈ _constrain_ticks ticks ->
                 y - x <= 360 + 2 * eps).
Proof.
  assert (Hperm : sorted ticks ≡ₚ ticks) by apply merge_sort_Permutation.
  split; [exact Hperm |].
  split; [apply Sorted_merge_sort; apply _ |].
  unfold _constrain_ticks.
  destruct (cut_looped_take (sorted ticks)) as (k & Hk & Hres & Hstop & Hlong).
  rewrite (Permutation_length Hperm) in Hk, Hlong.
  exists k. rewrite Hres.
  split; [exact Hk |]. split; [reflexivity |].
  apply looped_false_iff in Hstop.
  split; [exact Hstop |].
  split.
  { intros j Hj Hw. apply looped_false_iff in Hw.
    rewrite (Hlong j Hj) in Hw. discriminate. }
  pose proof (sorted_take_strongly k ticks) as Hss.
  split; [apply StronglySorted_Sorted; exact Hss |].
  intros x y Hx Hy.
  destruct Hstop as [Hnil | (t0 & tl & H0 & Hl & Hspan)].
  { rewrite Hnil in Hx. inversion Hx. }
  apply list_elem_of_lookup in Hx as [i Hi].
  apply list_elem_of_lookup in Hy as [j Hj].
  assert (t0 <= x) as Hlo.
  { apply (StronglySorted_lookup_le _ 0%nat i _ _ Hss H0 Hi). lia. }
  assert (y <= tl) as Hhi.
  { unfold last_tick in Hl. pose proof (lookup_lt_Some _ _ _ Hj) as Hlt.
    apply (StronglySorted_lookup_le _ j _ _ _ Hss Hj Hl). lia. }
  lra.
Qed.

End LonTicks.

(** ** _LatAxis._constrain_ticks *)

Section LatTicks.
Import _LatAxis.

Lemma in_range_iff latmax l : in_range latmax l = true <-> - latmax <= l /\ l <= latmax.
Proof.
  unfold in_range. rewrite andb_true_iff, !Qle_bool_iff. reflexivity.
Qed.

Lemma filter_nil_iff latmax ticks :
  List.filter (in_range latmax) ticks = [] <->
  forall t, t ∈ ticks -> ~ (- latmax <= t /\ t <= latmax).
Proof.
  split.
  - intros Hf t Ht Hr. apply in_range_iff in Hr.
    assert (In t (List.filter (in_range latmax) ticks)) as Hin.
    { apply filter_In. split; [apply list_elem_of_In; exact Ht | exact Hr]. }
    rewrite Hf in Hin. exact Hin.
  - intros H. destruct (List.filter (in_range latmax) ticks) as [| t l] eqn:E; [reflexivity |].
    exfalso. assert (In t (List.filter (in_range latmax) ticks)) as Hin
      by (rewrite E; left; reflexivity).
    apply filter_In in Hin as [Hin Hr]. apply in_range_iff in Hr.
    apply (H t); [apply list_elem_of_In; exact Hin | exact Hr].
Qed.

(** The update of the last tick. *)
Lemma nudge_last (l : list Q) tl :
  last_tick l = Some tl ->
  forall i,
    (if Qeq_bool tl 90 then <[(length l - 1)%nat := tl - eps]> l else l) !! i =
    (fun x => if (i =? length l - 1)%nat && Qeq_bool x 90 then x - eps else x)
      <$> l !! i.
Proof.
  unfold last_tick. intros Hl i.
  pose proof (lookup_lt_Some _ _ _ Hl) as Hlt.
  destruct (Nat.eqb_spec i (length l - 1)) as [-> | Hne]; simpl.
  - rewrite Hl. simpl. destruct (Qeq_bool tl 90); [| exact Hl].
    apply list_lookup_insert_eq. exact Hlt.
  - destruct (Qeq_bool tl 90).
    + rewrite list_lookup_insert_ne by congruence.
      destruct (l !! i); reflexivity.
    + destruct (l !! i); reflexivity.
Qed.

(** The two updates in place, on the ticks already filtered. *)
Lemma nudge_lookup (f : list Q) t0 :
  f !! 0%nat = Some t0 ->
  exists res,
    (let ticks := if Qeq_bool t0 (-90) then <[0%nat := t0 + eps]> f else f in
     match last_tick ticks with
     | None => Raise IndexError
     | Some tl =>
         Ok (if Qeq_bool tl 90 then <[(length ticks - 1)%nat := tl - eps]> ticks
             else ticks)
     end) = Ok res /\
    forall i, res !! i = nudged (length f) i <$> f !! i.
Proof.
  intros H0. destruct f as [| a rest]; [discriminate |].
  simpl in H0. injection H0 as ->. cbv zeta.
  destruct (Qeq_bool t0 (-90)) eqn:E1.
  - change (<[0%nat := t0 + eps]> (t0 :: rest)) with ((t0 + eps) :: rest).
    destruct (last_tick ((t0 + eps) :: rest)) as [tl |] eqn:El.
    2:{ unfold last_tick in El. apply lookup_ge_None in El. simpl in El. lia. }
    eexists. split; [reflexivity |]. intros i.
    rewrite (nudge_last _ _ El). unfold nudged.
    destruct i as [| i]; simpl.
    + rewrite E1. simpl.
      destruct (Qeq_bool (t0 + eps) 90) eqn:E90; [| rewrite andb_false_r; reflexivity].
      apply Qeq_bool_iff in E1, E90. unfold eps in *. exfalso. lra.
    + reflexivity.
  - destruct (last_tick (t0 :: rest)) as [tl |] eqn:El.
    2:{ unfold last_tick in El. apply lookup_ge_None in El. simpl in El. lia. }
    eexists. split; [reflexivity |]. intros i.
    rewrite (nudge_last _ _ El). unfold nudged.
    destruct i as [| i]; simpl.
    + rewrite E1. reflexivity.
    + reflexivity.
Qed.

(** C8. [_LatAxis._constrain_ticks] raises [IndexError] when no tick lies in
    [-latmax, latmax]; when one does, it returns the ticks in that range,
    each still in the range, a first tick equal to -90 moved up by 1e-10 and
    a last tick equal to 90 moved down by 1e-10. *)
Theorem lat_constrain_ticks_spec (latmax : Q) (ticks : list Q) :
  ((forall t, t ∈ ticks -> ~ (- latmax <= t /\ t <= latmax)) ->
   _constrain_ticks latmax ticks = Raise IndexError) /\
  ((exists t, t ∈ ticks /\ - latmax <= t /\ t <= latmax) ->
   exists res, _constrain_ticks latmax ticks = Ok res /\
     (forall x, x ∈ res -> - latmax <= x /\ x <= latmax) /\
     (forall i, res !! i =
        nudged (length (List.filter (in_range latmax) ticks)) i
          <$> List.filter (in_range latmax) ticks !! i)).
Proof.
  unfold _constrain_ticks. split.
  - intros Hnone. rewrite (proj2 (filter_nil_iff _ _) Hnone). reflexivity.
  - intros (t & Ht & Hr).
    destruct (List.filter (in_range latmax) ticks !! 0%nat) as [t0 |] eqn:E0.
    2:{ exfalso. destruct (List.filter (in_range latmax) ticks) eqn:Ef; [| discriminate].
        exact (proj1 (filter_nil_iff _ _) Ef t Ht Hr). }
    destruct (nudge_lookup _ _ E0) as (res & Hres & Hlook).
    exists res. split; [exact Hres |]. split; [| exact Hlook].
    intros x Hx. apply list_elem_of_lookup in Hx as [i Hi].
    rewrite Hlook in Hi.
    destruct (List.filter (in_range latmax) ticks !! i) as [y |] eqn:Ey; [| discriminate].
    simpl in Hi. injection Hi as <-.
    assert (- latmax <= y /\ y <= latmax) as [Hlo Hhi].
    { apply in_range_iff. eapply proj2. apply filter_In. apply list_elem_of_In.
      eapply list_elem_of_lookup_2. exact Ey. }
    unfold nudged.
    destruct ((i =? 0)%nat && Qeq_bool y (-90)) eqn:Ea.
    { apply andb_true_iff in Ea as [_ Ea]. apply Qeq_bool_iff in Ea.
      unfold eps. split; lra. }
    destruct ((i =? _)%nat && Qeq_bool y 90) eqn:Eb.
    { apply andb_true_iff in Eb as [_ Eb]. apply Qeq_bool_iff in Eb.
      unfold eps. split; lra. }
    split; assumption.
Qed.

Lemma lat_constrain_ticks_spec_witness :
  _constrain_ticks 80 [] = Raise IndexError /\
  exists res, _constrain_ticks 80 [-90; -60; 0; 60; 90] = Ok res /\
              forall x, x ∈ res -> - (80) <= x /\ x <= 80.
Proof.
  split.
  - apply (proj1 (lat_constrain_ticks_spec 80 [])). intros t Ht. inversion Ht.
  - destruct (proj2 (lat_constrain_ticks_spec 80 [-90; -60; 0; 60; 90]))
      as (res & Hres & Hrange & _).
    + exists 0. split; [set_solver |]. split; [unfold Qle; simpl; lia | unfold Qle; simpl; lia].
    + exists res. split; [exact Hres | exact Hrange].
Defined.

End LatTicks.

(** ** GeoAxes._to_label_array and GeoAxes._axis_below_to_zorder *)

Section Labels.
Import GeoAxes.

(** The result for a value that is neither [None] nor a string, by the
    length of its array form. *)
Lemma to_label_array_cases labels lon :
  is_none labels = false -> is_str labels = false ->
  _to_label_array labels lon =
    let n := len (atleast_1d labels) in
    if (n =? 1)%nat then
      Ok (if lon then VList ([VInt 0; VInt 0] ++ items (atleast_1d labels) ++ [VInt 0])
          else VList ((items (atleast_1d labels) ++ [VInt 0]) ++ [VInt 0; VInt 0]))
    else if (n =? 2)%nat then
      Ok (if lon then VList ([VInt 0; VInt 0] ++ items (atleast_1d labels))
          else VList (items (atleast_1d labels) ++ [VInt 0; VInt 0]))
    else if (n =? 4)%nat then Ok (atleast_1d labels)
    else Raise ValueError.
Proof.
  intros Hn Hs. unfold _to_label_array. rewrite Hn.
  assert (Ha : match labels with
               | VStr labels0 => VList (fold_left
                 (fun array ic =>
                    if char_in (snd ic) labels0 then <[fst ic := VInt 1]> array
                    else array)
                 (zip [0; 1; 2; 3]%nat (chars "lrbt"))
                 (replicate 4 (VInt 0)))
               | _ => atleast_1d labels end = atleast_1d labels).
  { destruct labels; try reflexivity. discriminate. }
  rewrite Ha. clear Ha. cbv zeta.
  set (a := atleast_1d labels).
  assert (exists l, a = VArray l) as [l Hl].
  { unfold a. destruct labels; simpl; eauto. }
  rewrite Hl. unfold len. simpl items.
  destruct l as [| x1 [| x2 [| x3 [| x4 [| x5 l]]]]]; simpl; destruct lon; reflexivity.
Qed.

Lemma to_label_array_str s lon :
  _to_label_array (VStr s) lon =
  Ok (VList [VInt (if char_in "l" s then 1 else 0); VInt (if char_in "r" s then 1 else 0);
             VInt (if char_in "b" s then 1 else 0); VInt (if char_in "t" s then 1 else 0)]).
Proof.
  unfold _to_label_array. simpl.
  destruct (char_in "l" s), (char_in "r" s), (char_in "b" s), (char_in "t" s);
    reflexivity.
Qed.

(** C2, as the specification states it, fails on the empty sequence: it
    raises [ValueError], and its length is neither 3 nor above 4. *)
Lemma to_label_array_empty_raises :
  _to_label_array (VList []) true = Raise ValueError /\
  ~ invalid_label_spec_claimed (VList []).
Proof.
  split; [reflexivity |].
  intros (_ & _ & [H | H]); unfold len in H; simpl in H; [discriminate | lia].
Qed.

(** C2, amended. [_to_label_array] raises [ValueError] exactly when the
    labels are neither [None] nor a string and their array form has length
    0, 3, or above 4; on every other input it returns. *)
Theorem to_label_array_raises (labels : pyval) (lon : bool) :
  (_to_label_array labels lon = Raise ValueError <-> invalid_label_spec labels) /\
  (~ invalid_label_spec labels -> exists array, _to_label_array labels lon = Ok array).
Proof.
  unfold invalid_label_spec.
  destruct (is_none labels) eqn:Hn.
  { destruct labels; try discriminate. simpl. split.
    - split; [discriminate | intros [? _]; discriminate].
    - intros _. eexists. reflexivity. }
  destruct (is_str labels) eqn:Hs.
  { destruct labels; try discriminate. rewrite to_label_array_str. split.
    - split; [discriminate | intros (_ & ? & _); discriminate].
    - intros _. eexists. reflexivity. }
  rewrite (to_label_array_cases _ _ Hn Hs). cbv zeta.
  set (n := len (atleast_1d labels)).
  destruct (Nat.eqb_spec n 1); [| destruct (Nat.eqb_spec n 2); [| destruct (Nat.eqb_spec n 4)]].
  - split; [split; [discriminate | intros (_ & _ & H); lia] | eauto].
  - split; [split; [discriminate | intros (_ & _ & H); lia] | eauto].
  - split; [split; [discriminate | intros (_ & _ & H); lia] | eauto].
  - split.
    + split; [intros _ | reflexivity]. repeat split. lia.
    + intros H. exfalso. apply H. repeat split. lia.
Qed.

Lemma to_label_array_raises_witness :
  _to_label_array (VList [VInt 1; VInt 0; VInt 1]) false = Raise ValueError /\
  exists array, _to_label_array (VList [VBool true; VBool false]) false = Ok array.
Proof.
  split.
  - apply (proj1 (to_label_array_raises (VList [VInt 1; VInt 0; VInt 1]) false)).
    repeat split. right. left. reflexivity.
  - apply (proj2 (to_label_array_raises (VList [VBool true; VBool false]) false)).
    intros (_ & _ & [H | [H | H]]); unfold len in H; simpl in H;
      [discriminate | discriminate | lia].
Defined.

(** C3. For a string the result has a 1 at the position of each of the
    characters l, r, b, t that occurs in it and a 0 elsewhere; a sequence of
    two values fills bottom and top for longitude, left and right for
    latitude; [None] gives a tuple of four [None]. *)
Theorem to_label_array_spec (s : string) (a b : pyval) (lon : bool) :
  _to_label_array (VStr s) lon =
    Ok (VList (List.map (fun c => VInt (if char_in c s then 1 else 0)) (chars "lrbt"))) /\
  (forall labels, labels = VList [a; b] \/ labels = VTuple [a; b] \/ labels = VArray [a; b] ->
     _to_label_array labels lon =
       Ok (VList (if lon then [VInt 0; VInt 0; a; b] else [a; b; VInt 0; VInt 0]))) /\
  _to_label_array VNone lon = Ok (VTuple [VNone; VNone; VNone; VNone]).
Proof.
  split; [apply to_label_array_str |].
  split; [| reflexivity].
  intros labels [-> | [-> | ->]]; destruct lon; reflexivity.
Qed.

Lemma to_label_array_spec_witness :
  _to_label_array (VTuple [VBool true; VBool false]) true =
  Ok (VList [VInt 0; VInt 0; VBool true; VBool false]).
Proof.
  apply (proj1 (proj2 (to_label_array_spec "" (VBool true) (VBool false) true))).
  right. left. reflexivity.
Defined.

(** C4. [_axis_below_to_zorder] maps [True] to 0.5, [False] to 2.5 and the
    string lines to 1.5, and raises [ValueError] on every other value. *)
Theorem axis_below_to_zorder_spec (axisbelow : pyval) :
  _axis_below_to_zorder (VBool true) = Ok (1 # 2) /\
  _axis_below_to_zorder (VBool false) = Ok (5 # 2) /\
  _axis_below_to_zorder (VStr "lines") = Ok (3 # 2) /\
  (axisbelow <> VBool true -> axisbelow <> VBool false ->
   axisbelow <> VStr "lines" ->
   _axis_below_to_zorder axisbelow = Raise ValueError).
Proof.
  repeat split.
  intros Ht Hf Hl. destruct axisbelow; try reflexivity.
  - destruct b; congruence.
  - unfold _axis_below_to_zorder, py_eq. simpl.
    destruct (String.eqb_spec s "lines"); [congruence | reflexivity].
Qed.

Lemma axis_below_to_zorder_spec_witness :
  _axis_below_to_zorder (VInt 1) = Raise ValueError.
Proof.
  apply (proj2 (proj2 (proj2 (axis_below_to_zorder_spec (VInt 1)))));
    discriminate.
Defined.

End Labels.

(** ** The constructors *)

(** C1, as the specification states it, fails where the library is not
    installed: the import at the head of [__init__] raises first. *)
Lemma init_without_library :
  isinstance VNone "cartopy.crs.Projection" = false /\
  fst (CartopyAxes.__init__ [] VNone [] Sample.bare) = Raise ModuleNotFoundError /\
  isinstance VNone "mpl_toolkits.basemap.Basemap" = false /\
  fst (BasemapAxes.__init__ [] VNone [] Sample.bare) = Raise ModuleNotFoundError.
Proof. repeat split. Qed.

(** C1, amended. Where the library is installed, [__init__] of either class
    raises [ValueError] for every projection that is not an instance of the
    library's class, and changes nothing; where it is not installed, the
    import raises [ModuleNotFoundError] before the check. *)
Theorem init_invalid_projection (w : World) (args : list pyval)
    (map_projection : pyval) (kwargs : kwargs) :
  (isinstance map_projection "cartopy.crs.Projection" = false ->
   CartopyAxes.__init__ args map_projection kwargs w =
     (Raise (if cartopy_installed (env w) then ValueError else ModuleNotFoundError), w)) /\
  (isinstance map_projection "mpl_toolkits.basemap.Basemap" = false ->
   BasemapAxes.__init__ args map_projection kwargs w =
     (Raise (if basemap_installed (env w) then ValueError else ModuleNotFoundError), w)).
Proof.
  split; intros H.
  - unfold CartopyAxes.__init__. rewrite H.
    unfold get_env, mbind, M_bind, when, raise. simpl.
    destruct (cartopy_installed (env w)); reflexivity.
  - unfold BasemapAxes.__init__. rewrite H.
    unfold get_env, mbind, M_bind, when, raise. simpl.
    destruct (basemap_installed (env w)); reflexivity.
Qed.

Lemma init_invalid_projection_witness :
  CartopyAxes.__init__ [] (VStr "merc") [] Sample.blank = (Raise ValueError, Sample.blank) /\
  BasemapAxes.__init__ [] Sample.plate_carree [] Sample.blank = (Raise ValueError, Sample.blank).
Proof.
  split.
  - apply (proj1 (init_invalid_projection Sample.blank [] (VStr "merc") [])).
    reflexivity.
  - apply (proj2 (init_invalid_projection Sample.blank [] Sample.plate_carree [])).
    reflexivity.
Defined.

(** ** Running a method *)

Lemma bind_run {A B} (m : M A) (f : A -> M B) w :
  (m ≫= f) w =
  match m w with
  | (Ok a, w') => f a w'
  | (Raise e, w') => (Raise e, w')
  end.
Proof. reflexivity. Qed.

Lemma bind_ok {A B} (m : M A) (f : A -> M B) w a w' :
  m w = (Ok a, w') -> (m ≫= f) w = f a w'.
Proof. intros H. rewrite bind_run, H. reflexivity. Qed.

Lemma bind_raise {A B} (m : M A) (f : A -> M B) w e w' :
  m w = (Raise e, w') -> (m ≫= f) w = (Raise e, w').
Proof. intros H. rewrite bind_run, H. reflexivity. Qed.

Lemma bind_assoc {A B C} (m : M A) (f : A -> M B) (g : B -> M C) w :
  ((m ≫= f) ≫= g) w = (m ≫= fun a => f a ≫= g) w.
Proof. unfold mbind, M_bind. destruct (m w) as [[a | e] w1]; reflexivity. Qed.

Lemma bind_inv {A B} (m : M A) (f : A -> M B) w r w' :
  (m ≫= f) w = (r, w') ->
  (exists e, m w = (Raise e, w') /\ r = Raise e) \/
  (exists a w1, m w = (Ok a, w1) /\ f a w1 = (r, w')).
Proof.
  unfold mbind, M_bind. destruct (m w) as [[a | e] w1]; intros H.
  - right. eauto.
  - left. injection H as <- <-. eauto.
Qed.

Lemma ext_call_run fn args kw w :
  ext_call fn args kw w =
  (oracle w (log w ++ [Call fn args kw]), set_log (log w ++ [Call fn args kw]) w).
Proof. reflexivity. Qed.

Lemma ext_call_inv fn args kw w r w' :
  ext_call fn args kw w = (r, w') ->
  oracle w (log w ++ [Call fn args kw]) = r /\
  w' = set_log (log w ++ [Call fn args kw]) w.
Proof. unfold ext_call. intros H. injection H as <- <-. auto. Qed.

Lemma lift_inv {A} (x : result A) w r w' :
  lift x w = (r, w') -> x = r /\ w' = w.
Proof. unfold lift. intros H. injection H as <- <-. auto. Qed.

Lemma when_raise_inv c e w (r : result unit) w' :
  when c (raise e) w = (r, w') -> w' = w /\ (r = Ok tt -> c = false).
Proof.
  destruct c; cbn; intros H; injection H as <- <-; split; auto; discriminate.
Qed.

Lemma set_heap_id w : set_heap (heap w) w = w.
Proof. destruct w. reflexivity. Qed.

(** Case analysis on the first action of a run. *)
Ltac run_head :=
  rewrite !bind_run;
  match goal with
  | |- context [match ?m ?w with (_, _) => _ end] =>
      destruct (m w) as [[? | ?] ?] eqn:?
  end.

(** ** CartopyAxes._toggle_gridliner_labels *)

Lemma py_setattr_ref w l attrs name v :
  heap w !! l = Some attrs ->
  py_setattr (VRef l) name v w =
  (Ok tt, set_heap (<[l := <[name := v]> attrs]> (heap w)) w).
Proof. intros H. unfold py_setattr. rewrite H. reflexivity. Qed.

Lemma when_setattr w l attrs name v :
  heap w !! l = Some attrs ->
  when (not_none v) (py_setattr (VRef l) name v) w =
  (Ok tt, set_heap (<[l := assign name v attrs]> (heap w)) w).
Proof.
  intros H. unfold when, not_none, assign. destruct (is_none v); simpl.
  - rewrite insert_id by exact H. rewrite set_heap_id. reflexivity.
  - apply py_setattr_ref. exact H.
Qed.

Lemma toggle_run w l attrs a b c d n1 n2 n3 n4 :
  heap w !! l = Some attrs ->
  (when (not_none a) (py_setattr (VRef l) n1 a);;
   when (not_none b) (py_setattr (VRef l) n2 b);;
   when (not_none c) (py_setattr (VRef l) n3 c);;
   when (not_none d) (py_setattr (VRef l) n4 d)) w =
  (Ok tt,
   set_heap (<[l := assign n4 d (assign n3 c (assign n2 b (assign n1 a attrs)))]> (heap w)) w).
Proof.
  intros H.
  erewrite bind_ok by (apply when_setattr; exact H).
  erewrite bind_ok by (apply when_setattr; simpl; apply lookup_insert_eq).
  erewrite bind_ok by (apply when_setattr; simpl; apply lookup_insert_eq).
  rewrite (when_setattr _ l (assign n3 c (assign n2 b (assign n1 a attrs))))
    by (simpl; apply lookup_insert_eq).
  simpl. rewrite !insert_insert_eq. reflexivity.
Qed.

Lemma assign_lookup_ne name v attrs k :
  name <> k -> assign name v attrs !! k = attrs !! k.
Proof.
  intros H. unfold assign. destruct (is_none v); [reflexivity |].
  apply lookup_insert_ne. exact H.
Qed.

Lemma assign_lookup_eq name v attrs :
  assign name v attrs !! name = if is_none v then attrs !! name else Some v.
Proof.
  unfold assign. destruct (is_none v); [reflexivity |]. apply lookup_insert_eq.
Qed.

(** The attributes after the four guarded assignments. *)
Lemma toggle_attrs n1 n2 n3 n4 (a b c d : pyval) (attrs : gmap string pyval) :
  NoDup [n1; n2; n3; n4] ->
  let attrs' := assign n4 d (assign n3 c (assign n2 b (assign n1 a attrs))) in
  (forall i name v,
     [n1; n2; n3; n4] !! i = Some name -> [a; b; c; d] !! i = Some v ->
     attrs' !! name = if is_none v then attrs !! name else Some v) /\
  (forall name, name ∉ [n1; n2; n3; n4] -> attrs' !! name = attrs !! name).
Proof.
  intros Hnd attrs'. unfold attrs'.
  apply NoDup_cons in Hnd as [H1 Hnd]. apply NoDup_cons in Hnd as [H2 Hnd].
  apply NoDup_cons in Hnd as [H3 _].
  assert (n1 <> n2 /\ n1 <> n3 /\ n1 <> n4 /\ n2 <> n3 /\ n2 <> n4 /\ n3 <> n4)
    as (? & ? & ? & ? & ? & ?) by (repeat split; intros ->; set_solver).
  split.
  - intros i name v Hn Hv.
    destruct i as [| [| [| [| i]]]]; simpl in Hn, Hv; try discriminate;
      injection Hn as <-; injection Hv as <-;
      repeat (rewrite assign_lookup_ne by congruence);
      rewrite assign_lookup_eq;
      repeat (rewrite assign_lookup_ne by congruence); reflexivity.
  - intros name Hn.
    rewrite !assign_lookup_ne; [reflexivity | | | |]; intros <-; apply Hn; set_solver.
Qed.

(** C7. On a gridliner, [_toggle_gridliner_labels] assigns each argument
    that is not [None] to the attribute of its side, named for cartopy 0.18
    and later or for earlier versions, and assigns nothing else: an
    attribute whose argument is [None], and every other attribute, keeps its
    value; nothing but the gridliner changes. *)
Theorem toggle_gridliner_labels_spec (w : World) (l : loc)
    (attrs : gmap string pyval) (left right bottom top : pyval) :
  heap w !! l = Some attrs ->
  exists attrs',
    CartopyAxes._toggle_gridliner_labels (VRef l) left right bottom top w =
      (Ok tt, set_heap (<[l := attrs']> (heap w)) w) /\
    (forall i name v,
       label_attrs (_version_cartopy (env w)) !! i = Some name ->
       [left; right; bottom; top] !! i = Some v ->
       attrs' !! name = if is_none v then attrs !! name else Some v) /\
    (forall name,
       name ∉ label_attrs (_version_cartopy (env w)) ->
       attrs' !! name = attrs !! name).
Proof.
  intros H. unfold CartopyAxes._toggle_gridliner_labels, label_attrs.
  rewrite (bind_ok get_env _ w (env w) w) by reflexivity.
  destruct (version_geb (_version_cartopy (env w)) v0_18);
    (eexists; split; [apply toggle_run; exact H |]);
    apply toggle_attrs; compute_done.
Qed.

Lemma toggle_gridliner_labels_spec_witness :
  let w := set_heap {[1%positive := CartopyAxes.new_gridliner]} Sample.blank in
  exists attrs',
    CartopyAxes._toggle_gridliner_labels (VRef 1%positive)
      (VBool true) VNone (VBool false) VNone w =
      (Ok tt, set_heap (<[1%positive := attrs']> (heap w)) w) /\
    attrs' !! "left_labels" = Some (VBool true) /\
    attrs' !! "right_labels" = None.
Proof.
  intros w.
  destruct (toggle_gridliner_labels_spec w 1%positive CartopyAxes.new_gridliner
              (VBool true) VNone (VBool false) VNone)
    as (attrs' & Hrun & Hset & _); [reflexivity |].
  exists attrs'. split; [exact Hrun |]. split.
  - apply (Hset 0%nat "left_labels" (VBool true)); reflexivity.
  - apply (Hset 1%nat "right_labels" VNone); reflexivity.
Defined.

(** ** BasemapAxes._update_extent *)

(** C9. [BasemapAxes._update_extent] changes no attribute of the axes, of
    its projection or of a gridliner, and it calls [_warn_proplot], once,
    exactly when one of its three arguments is not [None]. *)
Theorem basemap_update_extent_noop (w : World) (lonlim latlim boundinglat : pyval) :
  let r := BasemapAxes._update_extent lonlim latlim boundinglat w in
  self (snd r) = self w /\ heap (snd r) = heap w /\ env (snd r) = env w /\
  (is_none lonlim && is_none latlim && is_none boundinglat = true ->
     log (snd r) = log w /\ fst r = Ok tt) /\
  (is_none lonlim && is_none latlim && is_none boundinglat = false ->
     exists message,
       log (snd r) =
       log w ++ [Call "warnings._warn_proplot"
                   [VStr message; lonlim; latlim; boundinglat] []]).
Proof.
  unfold BasemapAxes._update_extent, when, not_none, _warn_proplot.
  destruct (is_none lonlim), (is_none latlim), (is_none boundinglat); simpl;
    repeat split; try discriminate; try reflexivity;
    try (unfold mbind, M_bind, ext_call; simpl;
         destruct (oracle w _); reflexivity);
    intros _; eexists;
    unfold mbind, M_bind, ext_call; simpl; destruct (oracle w _); reflexivity.
Qed.

Lemma basemap_update_extent_noop_witness :
  log (snd (BasemapAxes._update_extent VNone VNone VNone Sample.blank)) = [] /\
  exists message,
    log (snd (BasemapAxes._update_extent VNone VNone (VInt 60) Sample.blank)) =
    [Call "warnings._warn_proplot" [VStr message; VNone; VNone; VInt 60] []].
Proof.
  split.
  - apply (proj1 (proj2 (proj2 (proj2
             (basemap_update_extent_noop Sample.blank VNone VNone VNone))))).
    reflexivity.
  - apply (proj2 (proj2 (proj2 (proj2
             (basemap_update_extent_noop Sample.blank VNone VNone (VInt 60)))))).
    reflexivity.
Defined.

(** ** GeoAxes.format *)

Section Format.
Import GeoAxes.

Lemma format_unfold S kw w :
  format S kw w =
  (enter_rc_context kw ≫= fun ck =>
     with_exit (fst ck) (apply_settings S kw;; super_format (snd ck))) w.
Proof.
  unfold format, enter_rc_context, with_context.
  run_head; [| reflexivity].
  run_head; [| reflexivity].
  match goal with x : (pyval * pyval * pyval)%type |- _ => destruct x as [[? ?] ?] end.
  run_head; [| reflexivity].
  run_head; [| reflexivity].
  reflexivity.
Qed.

Lemma enter_rc_context_ok kw w cm kwargs w1 :
  enter_rc_context kw w = (Ok (cm, kwargs), w1) ->
  exists r rc_kw rc_mode,
    oracle w (log w ++ [Call "self._parse_format" [] (undeclared kw)]) = Ok r /\
    unpack3 r = Ok (rc_kw, rc_mode, kwargs) /\
    log w1 = log w ++ [Call "self._parse_format" [] (undeclared kw);
                       Call "rc.context" [rc_kw] [("mode", rc_mode)];
                       Call "__enter__" [cm] []].
Proof.
  unfold enter_rc_context. intros H.
  apply bind_inv in H as [(e & _ & He) | (r & w2 & H1 & H)]; [discriminate |].
  apply ext_call_inv in H1 as [Hr ->].
  apply bind_inv in H as [(e & _ & He) | ([[rc_kw rc_mode] kwargs'] & w3 & H1 & H)];
    [discriminate |].
  apply lift_inv in H1 as [Hu ->].
  apply bind_inv in H as [(e & _ & He) | (cm' & w3 & H1 & H)]; [discriminate |].
  apply ext_call_inv in H1 as [Hc ->].
  apply bind_inv in H as [(e & _ & He) | (x & w3 & H1 & H)]; [discriminate |].
  apply ext_call_inv in H1 as [He ->].
  injection H as <- <- <-.
  exists r, rc_kw, rc_mode. cbn [log set_log].
  rewrite <- !app_assoc. simpl. auto.
Qed.

Lemma format_run_ok S kw w cm kwargs w1 w2 d :
  enter_rc_context kw w = (Ok (cm, kwargs), w1) ->
  apply_settings S kw w1 = (Ok tt, w2) -> as_kwargs kwargs = Ok d ->
  format S kw w =
  match ext_call "super().format" [] d w2 with
  | (Ok _, w3) => (ext_call "__exit__" [cm] [] ≫= fun _ => mret tt) w3
  | (Raise e, w3) =>
      (ext_call "__exit__" [cm; VStr "exc"] [] ≫= fun r =>
       lift (truthy r) ≫= fun suppress : bool =>
       if suppress then mret tt else raise e) w3
  end.
Proof.
  intros Henter Happly Hd.
  rewrite format_unfold, (bind_ok _ _ _ _ _ Henter). cbn [fst snd].
  unfold with_exit. rewrite (bind_ok _ _ _ _ _ Happly).
  unfold super_format. unfold lift at 1. rewrite bind_run, Hd.
  rewrite bind_run.
  destruct (ext_call "super().format" [] d w2) as [[x | e] w3]; reflexivity.
Qed.

Lemma format_run_raise S kw w cm kwargs w1 w2 e :
  enter_rc_context kw w = (Ok (cm, kwargs), w1) ->
  apply_settings S kw w1 = (Raise e, w2) ->
  format S kw w =
  (ext_call "__exit__" [cm; VStr "exc"] [] ≫= fun r =>
   lift (truthy r) ≫= fun suppress : bool =>
   if suppress then mret tt else raise e) w2.
Proof.
  intros Henter Happly.
  rewrite format_unfold, (bind_ok _ _ _ _ _ Henter). cbn [fst snd].
  unfold with_exit. rewrite (bind_raise _ _ _ _ _ Happly). reflexivity.
Qed.

Lemma dict_get_filter (p : string -> bool) k (d : kwargs) :
  p k = true ->
  dict_get k (List.filter (fun kv => p (fst kv)) d) = dict_get k d.
Proof.
  intros Hp. induction d as [| [k' v] d IH]; [reflexivity |].
  simpl. destruct (p k') eqn:Hk'; simpl.
  - rewrite IH. reflexivity.
  - destruct (String.eqb_spec k k') as [-> | Hne]; [congruence | exact IH].
Qed.

Lemma arg_declared n kw :
  mem_string n format_params = true -> arg n (declared kw) = arg n kw.
Proof.
  intros H. unfold arg, dict_get_default, declared.
  rewrite (dict_get_filter (fun k => mem_string k format_params)) by exact H.
  reflexivity.
Qed.

(** The settings read the declared keywords only. *)
Lemma apply_settings_declared S kw w :
  apply_settings S (declared kw) w = apply_settings S kw w.
Proof.
  unfold apply_settings, update_locator. cbn [fst snd].
  repeat match goal with
         | |- context [arg ?n (declared kw)] => rewrite (arg_declared n kw eq_refl)
         end.
  reflexivity.
Qed.

(** C6, as the specification states it, fails on an invalid label
    specification: [format] raises and the parent is never called. *)
Lemma format_invalid_labels_skip_parent :
  let kw := [("lonlabels", VList [VInt 1; VInt 2; VInt 3])] in
  let r := CartopyAxes.format kw Sample.cartopy_axes in
  fst r = Raise ValueError /\ existsb is_parent_call (log (snd r)) = false.
Proof. vm_compute. split; reflexivity. Qed.

(** C6, amended. [format] passes the keywords it does not declare to
    [_parse_format] and enters the rc context made of its answer; the
    settings read the declared keywords only; when no setting raises, the
    run ends with the call of [super().format] with the keywords that
    [_parse_format] returned, followed by leaving the context; when a
    setting raises, the context is left, the parent is not called, and the
    exception goes to the caller unless [__exit__] takes it. *)
Theorem format_passes_remaining_keywords (S : Subclass) (kw : kwargs)
    (w w1 : World) (cm kwargs : pyval) :
  enter_rc_context kw w = (Ok (cm, kwargs), w1) ->
  (exists r rc_kw rc_mode,
     oracle w (log w ++ [Call "self._parse_format" [] (undeclared kw)]) = Ok r /\
     unpack3 r = Ok (rc_kw, rc_mode, kwargs) /\
     log w1 = log w ++ [Call "self._parse_format" [] (undeclared kw);
                        Call "rc.context" [rc_kw] [("mode", rc_mode)];
                        Call "__enter__" [cm] []]) /\
  apply_settings S (declared kw) w1 = apply_settings S kw w1 /\
  (forall w2 d,
     apply_settings S kw w1 = (Ok tt, w2) -> as_kwargs kwargs = Ok d ->
     exists exc,
       log (snd (format S kw w)) =
       log w2 ++ [Call "super().format" [] d; Call "__exit__" (cm :: exc) []]) /\
  (forall e w2,
     apply_settings S kw w1 = (Raise e, w2) ->
     log (snd (format S kw w)) = log w2 ++ [Call "__exit__" [cm; VStr "exc"] []] /\
     (oracle w2 (log w2 ++ [Call "__exit__" [cm; VStr "exc"] []]) = Ok VNone ->
      fst (format S kw w) = Raise e)).
Proof.
  intros Henter. split; [| split; [| split]].
  - apply enter_rc_context_ok. exact Henter.
  - apply apply_settings_declared.
  - intros w2 d Happly Hd.
    rewrite (format_run_ok _ _ _ _ _ _ _ _ Henter Happly Hd).
    rewrite ext_call_run.
    destruct (oracle w2 _) as [x | e].
    + exists []. rewrite bind_run, ext_call_run. cbn [oracle log set_log].
      destruct (oracle w2 _); cbn [snd log set_log];
        rewrite <- app_assoc; reflexivity.
    + exists [VStr "exc"]. rewrite bind_run, ext_call_run. cbn [oracle log set_log].
      destruct (oracle w2 _) as [x |]; cbn [snd log set_log].
      * rewrite bind_run. unfold lift.
        destruct (truthy x) as [[|] |]; cbn [snd log set_log];
          rewrite <- app_assoc; reflexivity.
      * rewrite <- app_assoc. reflexivity.
  - intros e w2 Happly.
    rewrite (format_run_raise _ _ _ _ _ _ _ _ Henter Happly).
    rewrite bind_run, ext_call_run.
    destruct (oracle w2 _) as [x | e'] eqn:Hx.
    + rewrite bind_run. unfold lift. split.
      * destruct (truthy x) as [[|] |]; reflexivity.
      * intros Hnone. injection Hnone as ->. reflexivity.
    + split; [reflexivity | discriminate].
Qed.

Lemma format_passes_remaining_keywords_witness :
  let kw := [("lonlabels", VStr "b"); ("linewidth", VInt 2)] in
  let w := Sample.cartopy_axes in
  let w1 := snd (enter_rc_context kw w) in
  let w2 := snd (apply_settings CartopyAxes.subclass kw w1) in
  exists exc,
    log (snd (CartopyAxes.format kw w)) =
    log w2 ++ [Call "super().format" [] [("linewidth", VInt 2)];
               Call "__exit__" (VNone :: exc) []].
Proof.
  intros kw w w1 w2.
  assert (H1 : enter_rc_context kw w = (Ok (VNone, VDict [("linewidth", VInt 2)]), w1))
    by (vm_compute; reflexivity).
  assert (H2 : apply_settings CartopyAxes.subclass kw w1 = (Ok tt, w2))
    by (vm_compute; reflexivity).
  exact (proj1 (proj2 (proj2 (format_passes_remaining_keywords
                         CartopyAxes.subclass kw w w1 VNone _ H1))) w2 _ H2 eq_refl).
Defined.

End Format.

(** ** The gridliner cache of CartopyAxes *)

Lemma same_cache_refl w : same_cache w w.
Proof. repeat split. Qed.

Lemma same_cache_trans w1 w2 w3 :
  same_cache w1 w2 -> same_cache w2 w3 -> same_cache w1 w3.
Proof.
  intros (? & ? & ?) (? & ? & ?). repeat split; congruence.
Qed.

(** *** Methods that leave the cache alone *)

Section Frames.
Context {A B : Type}.

Lemma frames_ret (a : A) : frames (mret a : M A).
Proof. intros w. apply same_cache_refl. Qed.

Lemma frames_lift (r : result A) : frames (lift r).
Proof. intros w. apply same_cache_refl. Qed.

Lemma frames_raise (e : exn) : frames (raise e : M A).
Proof. intros w. apply same_cache_refl. Qed.

Lemma frames_bind (m : M A) (f : A -> M B) :
  frames m -> (forall a, frames (f a)) -> frames (m ≫= f).
Proof.
  intros Hm Hf w. specialize (Hm w). unfold mbind, M_bind.
  destruct (m w) as [[a | e] w1]; simpl in *; [| exact Hm].
  eapply same_cache_trans; [exact Hm | apply Hf].
Qed.

Lemma frames_snd (m : M A) w r w' : frames m -> m w = (r, w') -> same_cache w w'.
Proof. intros Hf H. specialize (Hf w). rewrite H in Hf. exact Hf. Qed.

End Frames.

Lemma frames_get_env : frames get_env.
Proof. intros w. apply same_cache_refl. Qed.

Lemma frames_get_self : frames get_self.
Proof. intros w. apply same_cache_refl. Qed.

Lemma frames_ext_call fn args kw : frames (ext_call fn args kw).
Proof. intros w. repeat split. Qed.

Lemma frames_modify_self (f : Axes -> Axes) :
  (forall a, _gridlines_major (f a) = _gridlines_major a /\
             _gridlines_minor (f a) = _gridlines_minor a) ->
  frames (modify_self f).
Proof.
  intros Hf w. destruct (Hf (self w)) as [H1 H2]. repeat split; assumption.
Qed.

Lemma frames_when c (body : M unit) : frames body -> frames (when c body).
Proof. intros H. destruct c; [exact H | apply frames_ret]. Qed.

Lemma frames_for_each {A} (xs : list A) (body : A -> M unit) :
  (forall x, frames (body x)) -> frames (for_each xs body).
Proof.
  intros H. induction xs as [| x xs IH]; simpl.
  - apply frames_ret.
  - apply frames_bind; [apply H | intros _; exact IH].
Qed.

Lemma frames_py_getattr obj name : frames (py_getattr obj name).
Proof.
  intros w. unfold py_getattr.
  destruct obj; try apply same_cache_refl.
  destruct (heap w !! l) as [attrs |]; [| apply same_cache_refl].
  destruct (attrs !! name); apply same_cache_refl.
Qed.

Lemma frames_py_setattr obj name v : frames (py_setattr obj name v).
Proof.
  unfold py_setattr. destruct obj; try apply frames_raise.
  - apply frames_bind; [apply frames_ext_call | intros; apply frames_ret].
  - intros w. destruct (heap w !! l) as [attrs |] eqn:Hl; [| apply same_cache_refl].
    repeat split. simpl. apply dom_insert_lookup_L. rewrite Hl. eauto.
Qed.

Create HintDb frames.
#[global] Hint Resolve frames_get_env frames_get_self frames_ext_call
  frames_py_getattr frames_py_setattr : frames.

(** A method built of framed methods is framed. *)
Ltac frames_go :=
  repeat first
    [ progress intros
    | apply frames_ret | apply frames_lift | apply frames_raise
    | solve [auto with frames]
    | apply frames_modify_self; solve [intros []; split; reflexivity
                                      | intros ? ; split; reflexivity]
    | apply frames_when
    | apply frames_for_each
    | match goal with
      | |- frames (mbind _ _) => apply frames_bind
      | |- frames (if ?b then _ else _) => destruct b
      | |- frames (match ?x with _ => _ end) => destruct x
      | |- frames (let _ := _ in _) => cbv zeta
      end ].

Lemma upd_axis_cache ax f a :
  _gridlines_major (with_axis ax f a) = _gridlines_major a /\
  _gridlines_minor (with_axis ax f a) = _gridlines_minor a.
Proof. destruct ax; split; reflexivity. Qed.

Lemma frames_axis_update ax f : frames (_GeoAxis.update ax f).
Proof. apply frames_modify_self. intros a. apply upd_axis_cache. Qed.

Lemma frames_axis_get ax : frames (_GeoAxis.get ax).
Proof. unfold _GeoAxis.get. frames_go. Qed.

#[global] Hint Resolve frames_axis_update frames_axis_get : frames.

Lemma frames_axis_init ax : frames (_GeoAxis.__init__ ax).
Proof. unfold _GeoAxis.__init__. frames_go. Qed.

Lemma frames_get_major_formatter ax : frames (_GeoAxis.get_major_formatter ax).
Proof. unfold _GeoAxis.get_major_formatter. frames_go. Qed.

Lemma frames_get_major_locator ax : frames (_GeoAxis.get_major_locator ax).
Proof. unfold _GeoAxis.get_major_locator. frames_go. Qed.

Lemma frames_set_major_formatter ax f d : frames (_GeoAxis.set_major_formatter ax f d).
Proof. unfold _GeoAxis.set_major_formatter. frames_go. Qed.

Lemma frames_set_major_locator ax f d : frames (_GeoAxis.set_major_locator ax f d).
Proof. unfold _GeoAxis.set_major_locator. frames_go. Qed.

Lemma frames_set_minor_locator ax f d : frames (_GeoAxis.set_minor_locator ax f d).
Proof. unfold _GeoAxis.set_minor_locator. frames_go. Qed.

Lemma frames_set_view_interval ax a b : frames (_GeoAxis.set_view_interval ax a b).
Proof. unfold _GeoAxis.set_view_interval. frames_go. Qed.

Lemma frames_get_majorticklocs ax c :
  (forall t, frames (c t)) -> frames (_GeoAxis.get_majorticklocs ax c).
Proof. intros H. unfold _GeoAxis.get_majorticklocs. frames_go. Qed.

Lemma frames_get_minorticklocs ax c :
  (forall t, frames (c t)) -> frames (_GeoAxis.get_minorticklocs ax c).
Proof. intros H. unfold _GeoAxis.get_minorticklocs. frames_go. Qed.

#[global] Hint Resolve frames_axis_init frames_get_major_formatter
  frames_get_major_locator frames_set_major_formatter frames_set_major_locator
  frames_set_minor_locator frames_set_view_interval : frames.

Lemma frames_init_tickers ax deg dms p : frames (_GeoAxis.init_tickers ax deg dms p).
Proof. unfold _GeoAxis.init_tickers. frames_go. Qed.

#[global] Hint Resolve frames_init_tickers : frames.

Lemma frames_lon_constrain t : frames (_LonAxis._constrain_ticks_dyn t).
Proof. unfold _LonAxis._constrain_ticks_dyn. frames_go. Qed.

Lemma frames_set_latmax v : frames (_LatAxis.set_latmax v).
Proof. unfold _LatAxis.set_latmax. frames_go. Qed.

Lemma frames_get_latmax : frames _LatAxis.get_latmax.
Proof. unfold _LatAxis.get_latmax. frames_go. Qed.

#[global] Hint Resolve frames_set_latmax frames_get_latmax : frames.

Lemma frames_lat_constrain t : frames (_LatAxis._constrain_ticks_dyn t).
Proof. unfold _LatAxis._constrain_ticks_dyn. frames_go. Qed.

Lemma frames_lon_init p : frames (_LonAxis.__init__ p).
Proof. unfold _LonAxis.__init__. frames_go. Qed.

Lemma frames_lat_init l p : frames (_LatAxis.__init__ l p).
Proof. unfold _LatAxis.__init__. frames_go. Qed.

Lemma frames_get_lonticklocs which : frames (GeoAxes._get_lonticklocs which).
Proof.
  unfold GeoAxes._get_lonticklocs, _LonAxis.get_majorticklocs, _LonAxis.get_minorticklocs.
  destruct (String.eqb which "major");
    [apply frames_get_majorticklocs | apply frames_get_minorticklocs];
    apply frames_lon_constrain.
Qed.

Lemma frames_get_latticklocs which : frames (GeoAxes._get_latticklocs which).
Proof.
  unfold GeoAxes._get_latticklocs, _LatAxis.get_majorticklocs, _LatAxis.get_minorticklocs.
  destruct (String.eqb which "major");
    [apply frames_get_majorticklocs | apply frames_get_minorticklocs];
    apply frames_lat_constrain.
Qed.

Lemma frames_rc_get k : frames (rc_get k).
Proof. unfold rc_get. frames_go. Qed.

Lemma frames_not_none args : frames (_not_none args).
Proof. unfold _not_none. frames_go. Qed.

Lemma frames_not_none_kw kw : frames (_not_none_kw kw).
Proof. unfold _not_none_kw. frames_go. Qed.

Lemma frames_warn msg vs : frames (_warn_proplot msg vs).
Proof. unfold _warn_proplot. frames_go. Qed.

Lemma frames_attr_dict_update obj name other : frames (attr_dict_update obj name other).
Proof. unfold attr_dict_update. frames_go. Qed.

Lemma frames_or_empty_dict x : frames (GeoAxes.or_empty_dict x).
Proof. unfold GeoAxes.or_empty_dict. frames_go. Qed.

#[global] Hint Resolve frames_lon_init frames_lat_init frames_get_lonticklocs
  frames_get_latticklocs frames_rc_get frames_not_none frames_not_none_kw
  frames_warn frames_attr_dict_update frames_or_empty_dict : frames.

Lemma frames_get_gridline_props which c : frames (GeoAxes._get_gridline_props which c).
Proof. unfold GeoAxes._get_gridline_props. frames_go. Qed.

Lemma frames_set_view_intervals e : frames (GeoAxes._set_view_intervals e).
Proof. unfold GeoAxes._set_view_intervals. frames_go. Qed.

Lemma frames_update_locator ax minor l names kw :
  frames (GeoAxes.update_locator ax minor l names kw).
Proof. unfold GeoAxes.update_locator. frames_go. Qed.

Lemma frames_update_formatter ax f fkw : frames (GeoAxes.update_formatter ax f fkw).
Proof. unfold GeoAxes.update_formatter. frames_go. Qed.

Lemma frames_super_format kwargs : frames (GeoAxes.super_format kwargs).
Proof. unfold GeoAxes.super_format. frames_go. Qed.

Lemma frames_projection : frames CartopyAxes.projection.
Proof. unfold CartopyAxes.projection. frames_go. Qed.

#[global] Hint Resolve frames_get_gridline_props frames_set_view_intervals
  frames_update_locator frames_update_formatter frames_super_format
  frames_projection : frames.

Lemma frames_get_lon0 : frames CartopyAxes._get_lon0.
Proof. unfold CartopyAxes._get_lon0. frames_go. Qed.

Lemma frames_toggle gl a b c d : frames (CartopyAxes._toggle_gridliner_labels gl a b c d).
Proof. unfold CartopyAxes._toggle_gridliner_labels. frames_go. Qed.

#[global] Hint Resolve frames_get_lon0 frames_toggle : frames.

Lemma frames_update_gridlines gl which a b :
  frames (CartopyAxes._update_gridlines gl which a b).
Proof. unfold CartopyAxes._update_gridlines. frames_go. Qed.

#[global] Hint Resolve frames_update_gridlines : frames.

Lemma frames_set_extent e c : frames (CartopyAxes.set_extent e c).
Proof. unfold CartopyAxes.set_extent. frames_go. Qed.

#[global] Hint Resolve frames_set_extent : frames.

Lemma frames_update_extent a b c : frames (CartopyAxes._update_extent a b c).
Proof. unfold CartopyAxes._update_extent. frames_go. Qed.

Lemma frames_update_patches p : frames (CartopyAxes._update_patches p).
Proof. unfold CartopyAxes._update_patches. frames_go. Qed.

Lemma frames_update_features : frames CartopyAxes._update_features.
Proof. unfold CartopyAxes._update_features. frames_go. Qed.

Lemma frames_toggle_from_arrays gl a b : frames (CartopyAxes.toggle_from_arrays gl a b).
Proof. unfold CartopyAxes.toggle_from_arrays. frames_go. Qed.

Lemma frames_drop_labels p a : frames (CartopyAxes.drop_labels p a).
Proof. unfold CartopyAxes.drop_labels. frames_go. Qed.

#[global] Hint Resolve frames_update_extent frames_update_patches
  frames_update_features frames_toggle_from_arrays frames_drop_labels : frames.

Lemma frames_update_major_rest kw : frames (update_major_rest kw).
Proof. unfold update_major_rest. frames_go. Qed.

Lemma frames_update_minor_rest a b : frames (update_minor_rest a b).
Proof. unfold update_minor_rest. frames_go. Qed.

Lemma frames_get_extent crs : frames (CartopyAxes.get_extent crs).
Proof. unfold CartopyAxes.get_extent. frames_go. Qed.

#[global] Hint Resolve frames_get_extent : frames.

Lemma frames_set_global : frames CartopyAxes.set_global.
Proof. unfold CartopyAxes.set_global. frames_go. Qed.

#[global] Hint Resolve frames_set_global : frames.

(** *** Steps of the cache *)

Lemma same_cache_step w w' : same_cache w w' -> cache_step w w'.
Proof.
  intros (H1 & H2 & H3) [Ha Hb]. unfold cache_ok, empty_slots.
  rewrite H1, H2, H3. repeat split; auto.
Qed.

Lemma cache_step_trans w1 w2 w3 :
  cache_step w1 w2 -> cache_step w2 w3 -> cache_step w1 w3.
Proof.
  intros H12 H23 Hok.
  destruct (H12 Hok) as (Hok2 & Hmaj & Hmin & Hdom & Hsize).
  destruct (H23 Hok2) as (Hok3 & Hmaj' & Hmin' & Hdom' & Hsize').
  split; [exact Hok3 |]. repeat split.
  - intros H. rewrite <- (Hmaj H). apply Hmaj'. rewrite (Hmaj H). exact H.
  - intros H. rewrite <- (Hmin H). apply Hmin'. rewrite (Hmin H). exact H.
  - set_solver.
  - lia.
Qed.

Lemma frames_steps {A} (m : M A) : frames m -> steps m.
Proof. intros H w. apply same_cache_step, H. Qed.

Lemma steps_bind {A B} (m : M A) (f : A -> M B) :
  steps m -> (forall a, steps (f a)) -> steps (m ≫= f).
Proof.
  intros Hm Hf w. specialize (Hm w). unfold mbind, M_bind.
  destruct (m w) as [[a | e] w1]; simpl in *; [| exact Hm].
  eapply cache_step_trans; [exact Hm | apply Hf].
Qed.

Lemma steps_with_exit cm body : steps body -> steps (with_exit cm body).
Proof.
  intros Hb w. specialize (Hb w). unfold with_exit.
  destruct (body w) as [[[] | e] w1]; simpl in *.
  - eapply cache_step_trans; [exact Hb |].
    apply frames_steps. frames_go.
  - eapply cache_step_trans; [exact Hb |].
    apply frames_steps. frames_go.
Qed.

(** *** Creating a gridliner *)

Lemma succeeds_ret {A} l (a : A) : succeeds l (mret a) a.
Proof. intros w _. exists w. split; [reflexivity | apply same_cache_refl]. Qed.

Lemma succeeds_setattr l name v : succeeds l (py_setattr (VRef l) name v) tt.
Proof.
  intros w Hl. apply elem_of_dom in Hl as [attrs Hl].
  eexists. split.
  - unfold py_setattr. rewrite Hl. reflexivity.
  - repeat split. simpl. apply dom_insert_lookup_L. rewrite Hl. eauto.
Qed.

Lemma succeeds_when l c m : succeeds l m tt -> succeeds l (when c m) tt.
Proof. intros H. destruct c; [exact H | apply succeeds_ret]. Qed.

Lemma succeeds_seq {A B} l (m : M A) (k : M B) a b :
  succeeds l m a -> succeeds l k b -> succeeds l (m ≫= fun _ => k) b.
Proof.
  intros Hm Hk w Hl. destruct (Hm w Hl) as (w1 & Hrun & Hs1).
  assert (Hl1 : l ∈ dom (heap w1)).
  { destruct Hs1 as (_ & _ & ->). exact Hl. }
  destruct (Hk w1 Hl1) as (w2 & Hrun2 & Hs2).
  exists w2. split.
  - unfold mbind, M_bind. rewrite Hrun. exact Hrun2.
  - eapply same_cache_trans; eassumption.
Qed.

Lemma succeeds_toggle l a b c d :
  succeeds l (CartopyAxes._toggle_gridliner_labels (VRef l) a b c d) tt.
Proof.
  intros w Hl. unfold CartopyAxes._toggle_gridliner_labels.
  rewrite (bind_ok get_env _ w (env w) w) by reflexivity.
  destruct (version_geb (_version_cartopy (env w)) v0_18);
    refine ((_ : succeeds l _ tt) w Hl);
    repeat (eapply succeeds_seq; [apply succeeds_when, succeeds_setattr |]);
    apply succeeds_when, succeeds_setattr.
Qed.

(** [self.gridlines] raises and leaves the gridliners as they are, or
    returns a gridliner that did not exist. *)
Lemma gridlines_run crs w r w' :
  CartopyAxes.gridlines crs w = (r, w') ->
  self w' = self w /\
  ((exists e, r = Raise e /\ heap w' = heap w) \/
   (exists l, r = Ok (VRef l) /\ (l ∉ dom (heap w)) /\
              dom (heap w') = {[l]} ∪ dom (heap w))).
Proof.
  unfold CartopyAxes.gridlines. intros H.
  apply bind_inv in H as [(e & H & ->) | (x & w1 & H & Halloc)].
  - apply ext_call_inv in H as [_ ->].
    split; [reflexivity |]. left. eauto.
  - apply ext_call_inv in H as [_ ->].
    unfold CartopyAxes.alloc_gridliner in Halloc. injection Halloc as <- <-.
    split; [reflexivity |]. right. eexists. split; [reflexivity |]. split.
    + apply is_fresh.
    + simpl. apply dom_insert_L.
Qed.

(** [_init_gridlines] either raises before a gridliner exists, or returns
    the one gridliner it created; it does not assign the cache. *)
Lemma init_gridlines_run w :
  let r := CartopyAxes._init_gridlines w in
  _gridlines_major (self (snd r)) = _gridlines_major (self w) /\
  _gridlines_minor (self (snd r)) = _gridlines_minor (self w) /\
  ((exists e, fst r = Raise e /\ dom (heap (snd r)) = dom (heap w)) \/
   (exists l, fst r = Ok (VRef l) /\ (l ∉ dom (heap w)) /\
              dom (heap (snd r)) = {[l]} ∪ dom (heap w))).
Proof.
  destruct (CartopyAxes._init_gridlines w) as [r w'] eqn:Hrun. cbn [fst snd].
  unfold CartopyAxes._init_gridlines in Hrun.
  apply bind_inv in Hrun as [(e & H & ->) | (crs & w1 & H & Hrun)];
    apply ext_call_inv in H as [_ ->].
  { split; [reflexivity |]. split; [reflexivity |]. left. eauto. }
  apply bind_inv in Hrun as [(e & H & ->) | (gl & w2 & H & Hrun)];
    apply gridlines_run in H as [Hself Hcases].
  { destruct Hcases as [(e' & _ & Hheap) | (l & He & _)]; [| discriminate].
    rewrite Hself, Hheap. split; [reflexivity |]. split; [reflexivity |]. left. eauto. }
  destruct Hcases as [(e' & He & _) | (l & He & Hfresh & Hdom)]; [discriminate |].
  injection He as ->.
  assert (Hl2 : l ∈ dom (heap w2)).
  { rewrite Hdom. apply elem_of_union_l, elem_of_singleton. reflexivity. }
  assert (Hrest : succeeds l
    (py_setattr (VRef l) "_draw_gridliner" (CartopyAxes.bound_method "_draw_gridliner");;
     py_setattr (VRef l) "_axes_domain" (CartopyAxes.bound_method "_axes_domain");;
     py_setattr (VRef l) "_add_gridline_label" (CartopyAxes.bound_method "_add_gridline_label");;
     py_setattr (VRef l) "xlines" (VBool false);;
     py_setattr (VRef l) "ylines" (VBool false);;
     CartopyAxes._toggle_gridliner_labels (VRef l) (VBool false) (VBool false)
       (VBool false) (VBool false);;
     mret (VRef l)) (VRef l)).
  { repeat (eapply succeeds_seq; [apply succeeds_setattr |]).
    eapply succeeds_seq; [apply succeeds_toggle | apply succeeds_ret]. }
  destruct (Hrest w2 Hl2) as (w3 & Hrun3 & (Hmaj & Hmin & Hdom3)).
  rewrite Hrun3 in Hrun. injection Hrun as <- <-.
  rewrite Hmaj, Hmin, Hdom3, Hself, Hdom.
  split; [reflexivity |]. split; [reflexivity |]. right. eauto.
Qed.

(** *** Filling a slot *)

Lemma slot_ok_truthy v : slot_ok v -> truthy v = Ok (not_none v).
Proof. intros [-> | [l ->]]; reflexivity. Qed.

Lemma size_dom_fresh (h h' : gmap loc (gmap string pyval)) l :
  l ∉ dom h -> dom h' = {[l]} ∪ dom h -> size (dom h') = S (size (dom h)).
Proof.
  intros Hl ->. rewrite size_union by set_solver. rewrite size_singleton. reflexivity.
Qed.

(** A filled slot is left alone; an empty one is filled by the gridliner
    that [_init_gridlines] created, unless that raised. *)
Lemma fill_slot_cases get upd w :
  slot_ok (get (self w)) ->
  (exists l, get (self w) = VRef l /\ fill_slot get upd w = (Ok tt, w)) \/
  (get (self w) = VNone /\
   exists e w1, fill_slot get upd w = (Raise e, w1) /\ same_cache w w1) \/
  (get (self w) = VNone /\
   exists l w1,
     fill_slot get upd w = (Ok tt, set_self (upd (VRef l) (self w1)) w1) /\
     _gridlines_major (self w1) = _gridlines_major (self w) /\
     _gridlines_minor (self w1) = _gridlines_minor (self w) /\
     (l ∉ dom (heap w)) /\ dom (heap w1) = {[l]} ∪ dom (heap w)).
Proof.
  intros Hslot. unfold fill_slot.
  rewrite (bind_ok get_self _ w (self w) w) by reflexivity.
  rewrite (bind_ok (lift _) _ w (not_none (get (self w))) w)
    by (unfold lift; rewrite (slot_ok_truthy _ Hslot); reflexivity).
  destruct Hslot as [Hnone | [l Hl]].
  - right. rewrite Hnone. cbn [not_none is_none negb when].
    pose proof (init_gridlines_run w) as Hinit. cbv zeta in Hinit.
    destruct (CartopyAxes._init_gridlines w) as [[gl | e] w1] eqn:Hrun;
      cbn [fst snd] in Hinit; destruct Hinit as (H1 & H2 & Hcases).
    + destruct Hcases as [(e' & He & _) | (l & Hgl & Hfresh & Hdom)]; [discriminate |].
      right. split; [reflexivity |]. injection Hgl as ->. exists l, w1.
      rewrite (bind_ok _ _ _ _ _ Hrun). auto.
    + destruct Hcases as [(e' & _ & Hdom) | (l & Hgl & _)]; [| discriminate].
      left. split; [reflexivity |]. exists e, w1.
      rewrite (bind_raise _ _ _ _ _ Hrun). repeat split; assumption.
  - left. exists l. rewrite Hl. split; reflexivity.
Qed.

Lemma steps_fill_major :
  steps (fill_slot _gridlines_major upd_gridlines_major).
Proof.
  intros w Hok. pose proof Hok as [Hmaj Hmin].
  destruct (fill_slot_cases _gridlines_major upd_gridlines_major w Hmaj)
    as [(l & Hl & ->) | [(Hnone & e & w1 & -> & Hsame)
                        | (Hnone & l & w1 & -> & H1 & H2 & Hfresh & Hdom)]];
    cbn [snd].
  - apply same_cache_step; [apply same_cache_refl | exact Hok].
  - apply same_cache_step; assumption.
  - unfold cache_ok, empty_slots. cbn. rewrite H2, Hnone.
    split; [split; [right; eauto | exact Hmin] |].
    split; [discriminate |]. split; [reflexivity |].
    split; [rewrite Hdom; apply union_subseteq_r |].
    rewrite (size_dom_fresh _ _ _ Hfresh Hdom). simpl. lia.
Qed.

Lemma steps_fill_minor :
  steps (fill_slot _gridlines_minor upd_gridlines_minor).
Proof.
  intros w Hok. pose proof Hok as [Hmaj Hmin].
  destruct (fill_slot_cases _gridlines_minor upd_gridlines_minor w Hmin)
    as [(l & Hl & ->) | [(Hnone & e & w1 & -> & Hsame)
                        | (Hnone & l & w1 & -> & H1 & H2 & Hfresh & Hdom)]];
    cbn [snd].
  - apply same_cache_step; [apply same_cache_refl | exact Hok].
  - apply same_cache_step; assumption.
  - unfold cache_ok, empty_slots. cbn. rewrite H1, Hnone.
    split; [split; [exact Hmaj | right; eauto] |].
    split; [reflexivity |]. split; [discriminate |].
    split; [rewrite Hdom; apply union_subseteq_r |].
    rewrite (size_dom_fresh _ _ _ Hfresh Hdom). simpl. lia.
Qed.

(** *** The two methods that use the cache *)

Lemma update_major_unfold kw w :
  CartopyAxes._update_major_gridlines kw w =
  (fill_slot _gridlines_major upd_gridlines_major ≫= fun _ => update_major_rest kw) w.
Proof.
  unfold CartopyAxes._update_major_gridlines, fill_slot.
  rewrite bind_assoc.
  rewrite !(bind_ok get_self _ w (self w) w) by reflexivity.
  rewrite bind_assoc. reflexivity.
Qed.

Lemma update_minor_unfold a b w :
  CartopyAxes._update_minor_gridlines a b w =
  (fill_slot _gridlines_minor upd_gridlines_minor ≫= fun _ => update_minor_rest a b) w.
Proof.
  unfold CartopyAxes._update_minor_gridlines, fill_slot.
  rewrite bind_assoc.
  rewrite !(bind_ok get_self _ w (self w) w) by reflexivity.
  rewrite bind_assoc. reflexivity.
Qed.

Lemma steps_update_major kw : steps (CartopyAxes._update_major_gridlines kw).
Proof.
  intros w. rewrite update_major_unfold.
  apply steps_bind; [apply steps_fill_major |].
  intros _. apply frames_steps, frames_update_major_rest.
Qed.

Lemma steps_update_minor a b : steps (CartopyAxes._update_minor_gridlines a b).
Proof.
  intros w. rewrite update_minor_unfold.
  apply steps_bind; [apply steps_fill_minor |].
  intros _. apply frames_steps, frames_update_minor_rest.
Qed.

Lemma update_major_cached kw w l :
  _gridlines_major (self w) = VRef l ->
  same_cache w (snd (CartopyAxes._update_major_gridlines kw w)).
Proof.
  intros Hl. rewrite update_major_unfold.
  assert (Hfill : fill_slot _gridlines_major upd_gridlines_major w = (Ok tt, w)).
  { unfold fill_slot. rewrite (bind_ok get_self _ w (self w) w) by reflexivity.
    rewrite Hl. reflexivity. }
  rewrite (bind_ok _ _ _ _ _ Hfill). apply frames_update_major_rest.
Qed.

Lemma update_minor_cached a b w l :
  _gridlines_minor (self w) = VRef l ->
  same_cache w (snd (CartopyAxes._update_minor_gridlines a b w)).
Proof.
  intros Hl. rewrite update_minor_unfold.
  assert (Hfill : fill_slot _gridlines_minor upd_gridlines_minor w = (Ok tt, w)).
  { unfold fill_slot. rewrite (bind_ok get_self _ w (self w) w) by reflexivity.
    rewrite Hl. reflexivity. }
  rewrite (bind_ok _ _ _ _ _ Hfill). apply frames_update_minor_rest.
Qed.

(** With an empty slot, a call that returns has created one gridliner and
    stored it. *)
Lemma update_major_fills kw w w' :
  _gridlines_major (self w) = VNone ->
  CartopyAxes._update_major_gridlines kw w = (Ok tt, w') ->
  exists l, (l ∉ dom (heap w)) /\ _gridlines_major (self w') = VRef l /\
            dom (heap w') = {[l]} ∪ dom (heap w).
Proof.
  intros Hnone Hrun. rewrite update_major_unfold in Hrun.
  apply bind_inv in Hrun as [(e & _ & He) | ([] & w1 & Hfill & Hrest)]; [discriminate |].
  destruct (fill_slot_cases _gridlines_major upd_gridlines_major w (or_introl Hnone))
    as [(l & Hl & _) | [(_ & e & w2 & Hr & _) | (_ & l & w2 & Hr & _ & _ & Hfresh & Hdom)]].
  - congruence.
  - congruence.
  - rewrite Hr in Hfill. injection Hfill as <-.
    apply (frames_snd _ _ _ _ (frames_update_major_rest kw)) in Hrest as (H1 & _ & H3).
    exists l. rewrite H1, H3. auto.
Qed.

Lemma update_minor_fills a b w w' :
  _gridlines_minor (self w) = VNone ->
  CartopyAxes._update_minor_gridlines a b w = (Ok tt, w') ->
  exists l, (l ∉ dom (heap w)) /\ _gridlines_minor (self w') = VRef l /\
            dom (heap w') = {[l]} ∪ dom (heap w).
Proof.
  intros Hnone Hrun. rewrite update_minor_unfold in Hrun.
  apply bind_inv in Hrun as [(e & _ & He) | ([] & w1 & Hfill & Hrest)]; [discriminate |].
  destruct (fill_slot_cases _gridlines_minor upd_gridlines_minor w (or_introl Hnone))
    as [(l & Hl & _) | [(_ & e & w2 & Hr & _) | (_ & l & w2 & Hr & _ & _ & Hfresh & Hdom)]].
  - congruence.
  - congruence.
  - rewrite Hr in Hfill. injection Hfill as <-.
    apply (frames_snd _ _ _ _ (frames_update_minor_rest a b)) in Hrest as (_ & H2 & H3).
    exists l. rewrite H2, H3. auto.
Qed.

(** *** format, and format again *)

Ltac steps_go :=
  repeat first
    [ progress intros
    | apply steps_update_major | apply steps_update_minor
    | match goal with |- steps (mbind _ _) => apply steps_bind end
    | solve [apply frames_steps; frames_go] ].

Lemma steps_apply_settings kw : steps (GeoAxes.apply_settings CartopyAxes.subclass kw).
Proof.
  unfold GeoAxes.apply_settings.
  cbn [GeoAxes._update_extent GeoAxes._update_patches GeoAxes._update_features
       GeoAxes._update_major_gridlines GeoAxes._update_minor_gridlines
       CartopyAxes.subclass].
  steps_go.
Qed.

Lemma steps_format kw : steps (CartopyAxes.format kw).
Proof.
  unfold CartopyAxes.format, GeoAxes.format, with_context.
  apply steps_bind; [apply frames_steps; frames_go | intros r].
  apply steps_bind; [apply frames_steps; frames_go | intros [[rc_kw rc_mode] kwargs]].
  apply steps_bind; [apply frames_steps; frames_go | intros cm].
  apply steps_bind; [apply frames_steps; frames_go | intros _].
  apply steps_with_exit.
  apply steps_bind; [apply steps_apply_settings | intros _].
  apply frames_steps, frames_super_format.
Qed.

Lemma steps_run_formats calls w : cache_step w (run_formats calls w).
Proof.
  revert w. induction calls as [| kw calls IH]; intros w; simpl.
  - apply same_cache_step, same_cache_refl.
  - eapply cache_step_trans; [apply steps_format | apply IH].
Qed.

(** When [__init__] returns, both slots of the cache are empty: this is the
    state in which the first [format] finds an axes. *)
Lemma init_cache_empty w args map_projection kwargs w' :
  CartopyAxes.__init__ args map_projection kwargs w = (Ok tt, w') ->
  _gridlines_major (self w') = VNone /\ _gridlines_minor (self w') = VNone /\
  dom (heap w') = dom (heap w).
Proof.
  unfold CartopyAxes.__init__. intros H.
  apply bind_inv in H as [(e & _ & He) | (en & w1 & H1 & H)]; [discriminate |].
  injection H1 as <- <-.
  apply bind_inv in H as [(e & _ & He) | ([] & w1 & H1 & H)]; [discriminate |].
  apply when_raise_inv in H1 as [-> _].
  apply bind_inv in H as [(e & _ & He) | ([] & w1 & H1 & H)]; [discriminate |].
  apply when_raise_inv in H1 as [-> _].
  cbv zeta in H.
  do 4 (apply bind_inv in H as [(e & _ & He) | ([] & w1 & H1 & H)];
        [discriminate |]; injection H1 as <-).
  match type of H with
  | ?m _ = _ => assert (Hf : frames m) by frames_go
  end.
  apply (frames_snd _ _ _ _ Hf) in H as (H1 & H2 & H3).
  rewrite H1, H2, H3. repeat split.
Qed.

(** C5. On an axes whose cache holds [None] or a gridliner in each slot:
    [_update_major_gridlines] and [_update_minor_gridlines] keep a stored
    gridliner and create none when the slot is filled, and when it is empty
    a call that returns has created one gridliner and stored it; after any
    number of calls of [format] a stored gridliner is still the stored one,
    every gridliner created has filled a slot that was empty, so that at
    most two are created, one major and one minor. *)
Theorem gridliners_created_once (w : World) (kw : kwargs)
    (longrid latgrid : pyval) (calls : list kwargs) :
  cache_ok w ->
  (forall l, _gridlines_major (self w) = VRef l ->
     let w' := snd (CartopyAxes._update_major_gridlines kw w) in
     _gridlines_major (self w') = VRef l /\ dom (heap w') = dom (heap w)) /\
  (forall l, _gridlines_minor (self w) = VRef l ->
     let w' := snd (CartopyAxes._update_minor_gridlines longrid latgrid w) in
     _gridlines_minor (self w') = VRef l /\ dom (heap w') = dom (heap w)) /\
  (forall w', _gridlines_major (self w) = VNone ->
     CartopyAxes._update_major_gridlines kw w = (Ok tt, w') ->
     exists l, (l ∉ dom (heap w)) /\ _gridlines_major (self w') = VRef l /\
               dom (heap w') = {[l]} ∪ dom (heap w)) /\
  (forall w', _gridlines_minor (self w) = VNone ->
     CartopyAxes._update_minor_gridlines longrid latgrid w = (Ok tt, w') ->
     exists l, (l ∉ dom (heap w)) /\ _gridlines_minor (self w') = VRef l /\
               dom (heap w') = {[l]} ∪ dom (heap w)) /\
  (let w' := run_formats calls w in
   cache_ok w' /\
   (forall l, _gridlines_major (self w) = VRef l -> _gridlines_major (self w') = VRef l) /\
   (forall l, _gridlines_minor (self w) = VRef l -> _gridlines_minor (self w') = VRef l) /\
   dom (heap w) ⊆ dom (heap w') /\
   (size (dom (heap w')) + empty_slots w' <= size (dom (heap w)) + empty_slots w)%nat /\
   (size (dom (heap w')) <= size (dom (heap w)) + 2)%nat).
Proof.
  intros Hok. split; [| split; [| split; [| split]]].
  - intros l Hl w'. destruct (update_major_cached kw w l Hl) as (H1 & _ & H3).
    unfold w'. rewrite H1, H3. auto.
  - intros l Hl w'. destruct (update_minor_cached longrid latgrid w l Hl) as (_ & H2 & H3).
    unfold w'. rewrite H2, H3. auto.
  - intros w'. apply update_major_fills.
  - intros w'. apply update_minor_fills.
  - intros w'. destruct (steps_run_formats calls w Hok) as (Hok' & Hmaj & Hmin & Hdom & Hsize).
    fold w' in Hok', Hmaj, Hmin, Hdom, Hsize.
    split; [exact Hok' |].
    split; [intros l Hl; rewrite Hmaj; [exact Hl | rewrite Hl; reflexivity] |].
    split; [intros l Hl; rewrite Hmin; [exact Hl | rewrite Hl; reflexivity] |].
    split; [exact Hdom |]. split; [exact Hsize |].
    assert (empty_slots w <= 2)%nat.
    { unfold empty_slots.
      destruct (is_none (_gridlines_major (self w))), (is_none (_gridlines_minor (self w)));
        simpl; lia. }
    lia.
Qed.

Lemma gridliners_created_once_witness :
  let w := Sample.cartopy_axes in
  let w' := run_formats [[("lonlabels", VStr "b")]; []; [("latgrid", VBool true)]] w in
  (size (dom (heap w')) <= size (dom (heap w)) + 2)%nat.
Proof.
  intros w w'.
  assert (Hok : cache_ok w) by (split; left; reflexivity).
  exact (proj2 (proj2 (proj2 (proj2 (proj2 (proj2 (proj2 (proj2 (proj2
    (gridliners_created_once w [] VNone VNone
       [[("lonlabels", VStr "b")]; []; [("latgrid", VBool true)]] Hok)))))))))).
Defined.

(** * Further properties of the code *)

#[global] Instance kept_preorder {B} (f : World -> B) : PreOrder (kept f).
Proof.
  split.
  - intros w. reflexivity.
  - intros w1 w2 w3 H1 H2. unfold kept in *. congruence.
Qed.

#[global] Instance emitted_preorder P : PreOrder (emitted P).
Proof.
  split.
  - intros w. exists []. rewrite app_nil_r. auto.
  - intros w1 w2 w3 (e1 & H1 & P1) (e2 & H2 & P2). exists (e1 ++ e2).
    rewrite H2, H1, app_assoc. split; [reflexivity | apply Forall_app; auto].
Qed.

Section Inv.
Context {R : relation World} `{!PreOrder R}.

Lemma inv_pure {A} (m : M A) : (forall w, snd (m w) = w) -> inv R m.
Proof. intros H w. rewrite H. reflexivity. Qed.

Lemma inv_ret {A} (a : A) : inv R (mret a).
Proof. apply inv_pure. reflexivity. Qed.

Lemma inv_lift {A} (r : result A) : inv R (lift r).
Proof. apply inv_pure. reflexivity. Qed.

Lemma inv_raise {A} (e : exn) : inv R (raise e : M A).
Proof. apply inv_pure. reflexivity. Qed.

Lemma inv_get_env : inv R get_env.
Proof. apply inv_pure. reflexivity. Qed.

Lemma inv_get_self : inv R get_self.
Proof. apply inv_pure. reflexivity. Qed.

Lemma inv_py_getattr obj name : inv R (py_getattr obj name).
Proof.
  apply inv_pure. intros w. unfold py_getattr.
  destruct obj; try reflexivity.
  destruct (heap w !! l) as [attrs |]; [| reflexivity].
  destruct (attrs !! name); reflexivity.
Qed.

Lemma inv_bind {A B} (m : M A) (f : A -> M B) :
  inv R m -> (forall a, inv R (f a)) -> inv R (m ≫= f).
Proof.
  intros Hm Hf w. unfold mbind, M_bind.
  specialize (Hm w). destruct (m w) as [[a | e] w1]; simpl in *.
  - etransitivity; [exact Hm | apply Hf].
  - exact Hm.
Qed.

Lemma inv_when c (body : M unit) : inv R body -> inv R (when c body).
Proof. intros H. destruct c; [exact H | apply inv_ret]. Qed.

Lemma inv_for_each {A} (xs : list A) (body : A -> M unit) :
  (forall x, inv R (body x)) -> inv R (for_each xs body).
Proof.
  intros H. induction xs as [| x xs IH]; simpl.
  - apply inv_ret.
  - apply inv_bind; [apply H | intros _; exact IH].
Qed.

Lemma inv_for_gen (g : generator) (body : pyval -> M unit) :
  (forall x, inv R (body x)) -> inv R (for_gen g body).
Proof.
  intros H. unfold for_gen. apply inv_bind; [apply inv_for_each; exact H |].
  intros _. destruct (snd g); [apply inv_raise | apply inv_ret].
Qed.

Lemma inv_with_exit cm (body : M unit) :
  inv R body ->
  (forall args, inv R (ext_call "__exit__" args [])) ->
  inv R (with_exit cm body).
Proof.
  intros Hb He w. unfold with_exit.
  specialize (Hb w). destruct (body w) as [[[] | e] w1]; simpl in *.
  - etransitivity; [exact Hb |].
    apply (inv_bind (ext_call "__exit__" [cm] []) (fun _ => mret tt));
      [apply He | intros; apply inv_ret].
  - etransitivity; [exact Hb |].
    apply (inv_bind (ext_call "__exit__" [cm; VStr "exc"] [])); [apply He |].
    intros r. apply inv_bind; [apply inv_lift |].
    intros [|]; [apply inv_ret | apply inv_raise].
Qed.

End Inv.

(** A run that does not change what [f] reads: calls to the outside leave
    [f] alone when [f] does not read the log. *)
Lemma kept_ext_call {B} (f : World -> B) fn args kw :
  (forall l w, f (set_log l w) = f w) -> inv (kept f) (ext_call fn args kw).
Proof. intros H w. apply H. Qed.

Lemma emitted_ext_call (P : event -> Prop) fn args kw :
  P (Call fn args kw) -> inv (emitted P) (ext_call fn args kw).
Proof.
  intros H w. exists [Call fn args kw]. split; [reflexivity |].
  apply Forall_cons; auto.
Qed.

Lemma emitted_same_log P {A} (m : M A) :
  (forall w, log (snd (m w)) = log w) -> inv (emitted P) m.
Proof. intros H w. exists []. rewrite H, app_nil_r. auto. Qed.

Lemma kept_modify_self {B} (f : World -> B) g :
  (forall w, f (set_self (g (self w)) w) = f w) -> inv (kept f) (modify_self g).
Proof. intros H w. apply H. Qed.

Lemma kept_py_setattr {B} (f : World -> B) obj name v :
  (forall l w, f (set_log l w) = f w) ->
  (forall h w, f (set_heap h w) = f w) ->
  inv (kept f) (py_setattr obj name v).
Proof.
  intros Hl Hh. unfold py_setattr. destruct obj;
    try apply inv_raise.
  - apply inv_bind; [apply kept_ext_call; exact Hl | intros; apply inv_ret].
  - intros w. unfold kept. destruct (heap w !! l); simpl; [apply Hh | reflexivity].
Qed.

Lemma kept_alloc_gridliner {B} (f : World -> B) :
  (forall h w, f (set_heap h w) = f w) ->
  inv (kept f) CartopyAxes.alloc_gridliner.
Proof. intros Hh w. apply Hh. Qed.

Lemma emitted_modify_self P g : inv (emitted P) (modify_self g).
Proof. apply emitted_same_log. reflexivity. Qed.

Lemma emitted_alloc_gridliner P : inv (emitted P) CartopyAxes.alloc_gridliner.
Proof. apply emitted_same_log. reflexivity. Qed.

Lemma emitted_py_setattr (P : event -> Prop) obj name v :
  (forall x, P (Call "setattr" [obj; VStr name; x] [])) ->
  inv (emitted P) (py_setattr obj name v).
Proof.
  intros H. unfold py_setattr. destruct obj;
    try apply inv_raise.
  - apply inv_bind; [apply emitted_ext_call; apply H | intros; apply inv_ret].
  - apply emitted_same_log. intros w. destruct (heap w !! l); reflexivity.
Qed.

(** The methods of the module, for unfolding. *)
Create HintDb model.
#[global] Hint Unfold
  _GeoAxis.get _GeoAxis.update _GeoAxis.__init__
  _GeoAxis.get_major_formatter _GeoAxis.get_major_locator
  _GeoAxis.get_minor_locator _GeoAxis.get_majorticklocs
  _GeoAxis.get_minorticklocs _GeoAxis.set_major_formatter
  _GeoAxis.set_major_locator _GeoAxis.set_minor_locator
  _GeoAxis.set_view_interval _GeoAxis.init_tickers
  _LonAxis._constrain_ticks_dyn _LonAxis.__init__ _LonAxis.get_majorticklocs
  _LonAxis.get_minorticklocs _LonAxis.get_view_interval
  _LatAxis.get_latmax _LatAxis.set_latmax _LatAxis._constrain_ticks_dyn
  _LatAxis.__init__ _LatAxis.get_majorticklocs _LatAxis.get_minorticklocs
  _LatAxis.get_view_interval
  attr_dict_update rc_get _not_none _not_none_kw _warn_proplot call_method
  GeoAxes.or_empty_dict GeoAxes.update_locator GeoAxes.update_formatter
  GeoAxes.apply_settings GeoAxes.super_format GeoAxes.format
  GeoAxes._get_gridline_props GeoAxes._get_lonticklocs GeoAxes._get_latticklocs
  GeoAxes._set_view_intervals with_context
  CartopyAxes.projection CartopyAxes._get_lon0 CartopyAxes.set_projection
  CartopyAxes._axes_domain CartopyAxes._add_gridline_label
  CartopyAxes.gridlines CartopyAxes._toggle_gridliner_labels
  CartopyAxes._init_gridlines CartopyAxes._update_gridlines
  CartopyAxes.set_extent CartopyAxes._update_extent CartopyAxes._update_patches
  CartopyAxes._update_features CartopyAxes.toggle_from_arrays
  CartopyAxes.drop_labels CartopyAxes._update_major_gridlines
  CartopyAxes._update_minor_gridlines CartopyAxes.subclass CartopyAxes.format
  CartopyAxes.get_extent CartopyAxes.set_global CartopyAxes.__init__
  BasemapAxes.projection BasemapAxes._get_lon0 BasemapAxes.__init__
  BasemapAxes._update_extent BasemapAxes.set_projection
  BasemapAxes._update_patches BasemapAxes._update_features
  BasemapAxes.update_lines
  BasemapAxes._update_gridlines BasemapAxes._update_major_gridlines
  BasemapAxes._update_minor_gridlines BasemapAxes.subclass BasemapAxes.format
  GeoAxes._update_extent GeoAxes._update_patches GeoAxes._update_features
  GeoAxes._update_major_gridlines GeoAxes._update_minor_gridlines
  : model.

(** Reduction of an invariant of a method to invariants of the actions it
    is made of; [leaf] proves those. *)
Ltac inv_go leaf :=
  repeat first
    [ progress intros
    | match goal with
      | |- PreOrder _ => exact _
      | |- inv _ (mret _) => apply inv_ret
      | |- inv _ (lift _) => apply inv_lift
      | |- inv _ (raise _) => apply inv_raise
      | |- inv _ get_env => apply inv_get_env
      | |- inv _ get_self => apply inv_get_self
      | |- inv _ (py_getattr _ _) => apply inv_py_getattr
      | |- inv _ (mbind _ _) => apply inv_bind
      | |- inv _ (when _ _) => apply inv_when
      | |- inv _ (for_each _ _) => apply inv_for_each
      | |- inv _ (for_gen _ _) => apply inv_for_gen
      | |- inv _ (with_exit _ _) => apply inv_with_exit
      | |- inv _ (ext_call _ _ _) => leaf
      | |- inv _ (modify_self _) => leaf
      | |- inv _ (py_setattr _ _ _) => leaf
      | |- inv _ CartopyAxes.alloc_gridliner => leaf
      | |- inv _ (if ?b then _ else _) => destruct b
      | |- inv _ (match ?x with _ => _ end) => destruct x
      end
    | progress autounfold with model ].

Ltac kept_leaf :=
  first
    [ apply kept_ext_call; reflexivity
    | apply kept_py_setattr; reflexivity
    | apply kept_alloc_gridliner; reflexivity
    | apply kept_modify_self; intros;
      repeat match goal with ax : axis_name |- _ => destruct ax end;
      reflexivity ].

Ltac emitted_leaf :=
  first
    [ apply emitted_ext_call; (reflexivity || (cbn; congruence))
    | apply emitted_modify_self
    | apply emitted_alloc_gridliner
    | apply emitted_py_setattr; intros; (reflexivity || (cbn; congruence)) ].



#[global] Instance only_calls_preorder P : PreOrder (only_calls P).
Proof.
  split.
  - intros w. repeat split. reflexivity.
  - intros w1 w2 w3 (S1 & H1 & E1 & O1 & L1) (S2 & H2 & E2 & O2 & L2).
    repeat split; try congruence. etransitivity; eassumption.
Qed.

Lemma only_calls_ext_call (P : event -> Prop) fn args kw :
  P (Call fn args kw) -> inv (only_calls P) (ext_call fn args kw).
Proof.
  intros H w. repeat split. apply emitted_ext_call. exact H.
Qed.

Lemma only_calls_py_setattr_obj (P : event -> Prop) mro attrs name v :
  P (Call "setattr" [VObj mro attrs; VStr name; v] []) ->
  inv (only_calls P) (py_setattr (VObj mro attrs) name v).
Proof.
  intros H. unfold py_setattr.
  apply inv_bind; [apply only_calls_ext_call; exact H | intros; apply inv_ret].
Qed.

Ltac only_calls_leaf :=
  first [ apply only_calls_ext_call; (reflexivity || (cbn; congruence)) ].

(** Pointwise composition, for runs whose course depends on the world. *)
Lemma run_bind {R : relation World} `{!PreOrder R} {A B}
    (m : M A) (f : A -> M B) w :
  R w (snd (m w)) ->
  (forall a w1, m w = (Ok a, w1) -> R w w1 -> R w1 (snd (f a w1))) ->
  R w (snd ((m ≫= f) w)).
Proof.
  intros Hm Hf. unfold mbind, M_bind.
  destruct (m w) as [[a | e] w1] eqn:E; simpl in *.
  - etransitivity; [exact Hm | apply (Hf a w1 eq_refl Hm)].
  - exact Hm.
Qed.

Lemma inv_at {R : relation World} {A} (m : M A) w : inv R m -> R w (snd (m w)).
Proof. intros H. apply H. Qed.

(** ** More on _LonAxis._constrain_ticks *)

Section LonTicksMore.
Import _LonAxis.

Lemma looped_singleton x : looped [x] = false.
Proof.
  unfold looped, last_tick. simpl. apply Qgt_bool_false_iff. unfold eps. lra.
Qed.

Lemma sorted_elem_of x ticks : x ∈ sorted ticks <-> x ∈ ticks.
Proof.
  unfold sorted. rewrite (merge_sort_Permutation Qle ticks). reflexivity.
Qed.

Lemma sorted_length ticks : length (sorted ticks) = length ticks.
Proof. apply Permutation_length, merge_sort_Permutation. Qed.

(** Ticks that span no more than the loop allows are all kept. *)
Lemma constrain_ticks_within (ticks : list Q) :
  (forall x y, x ∈ ticks -> y ∈ ticks -> y - x <= 360 + 2 * eps) ->
  _constrain_ticks ticks = sorted ticks.
Proof.
  intros Hspan. unfold _constrain_ticks.
  destruct (cut_looped_take (sorted ticks)) as (k & Hk & Hres & Hstop & Hlong).
  rewrite Hres.
  destruct (decide (k = length (sorted ticks))) as [-> | Hne];
    [apply firstn_all |].
  exfalso. specialize (Hlong (length (sorted ticks))).
  rewrite firstn_all in Hlong.
  assert (looped (sorted ticks) = true) as Hl by (apply Hlong; lia).
  unfold looped in Hl.
  destruct (sorted ticks !! 0%nat) as [t0 |] eqn:E0; [| discriminate].
  destruct (last_tick (sorted ticks)) as [tl |] eqn:El; [| discriminate].
  apply Qgt_bool_iff in Hl.
  assert (tl - t0 <= 360 + 2 * eps) as Hle.
  { apply Hspan; apply sorted_elem_of; eapply list_elem_of_lookup_2;
      [exact E0 | exact El]. }
  unfold eps in *. lra.
Qed.

(** The ticks returned span no more than the loop allows, and each is one
    of the ticks given. *)
Lemma constrain_ticks_span (ticks : list Q) :
  (forall x, x ∈ _constrain_ticks ticks -> x ∈ ticks) /\
  (forall x y, x ∈ _constrain_ticks ticks -> y ∈ _constrain_ticks ticks ->
               y - x <= 360 + 2 * eps).
Proof.
  unfold _constrain_ticks.
  destruct (cut_looped_take (sorted ticks)) as (k & Hk & Hres & Hstop & _).
  rewrite Hres. split.
  { intros x Hx. apply sorted_elem_of.
    rewrite <- (take_drop k (sorted ticks)). apply elem_of_app. left. exact Hx. }
  apply looped_false_iff in Hstop.
  pose proof (sorted_take_strongly k ticks) as Hss.
  intros x y Hx Hy.
  destruct Hstop as [Hnil | (t0 & tl & H0 & Hl & Hspan)].
  { rewrite Hnil in Hx. inversion Hx. }
  apply list_elem_of_lookup in Hx as [i Hi].
  apply list_elem_of_lookup in Hy as [j Hj].
  assert (t0 <= x) as Hlo.
  { apply (StronglySorted_lookup_le _ 0%nat i _ _ Hss H0 Hi). lia. }
  assert (y <= tl) as Hhi.
  { unfold last_tick in Hl. pose proof (lookup_lt_Some _ _ _ Hj) as Hlt.
    apply (StronglySorted_lookup_le _ j _ _ _ Hss Hj Hl). lia. }
  lra.
Qed.

(** X1. [_LonAxis._constrain_ticks] never empties a list of ticks: of a list
    that is not empty it returns at least one tick, and the first tick
    returned is the least of the ticks given. *)
Theorem lon_constrain_ticks_keeps_least (ticks : list Q) :
  ticks <> [] ->
  exists t rest,
    _constrain_ticks ticks = t :: rest /\ t ∈ ticks /\
    forall x, x ∈ ticks -> t <= x.
Proof.
  intros Hne. unfold _constrain_ticks.
  destruct (cut_looped_take (sorted ticks)) as (k & Hk & Hres & Hstop & Hlong).
  rewrite Hres.
  assert (0 < length (sorted ticks))%nat as Hpos.
  { rewrite sorted_length. destruct ticks; [congruence | simpl; lia]. }
  destruct (sorted ticks) as [| t s] eqn:Es; [simpl in Hpos; lia |].
  assert (k <> 0)%nat as Hk0.
  { intros ->. specialize (Hlong 1%nat). simpl in Hlong.
    rewrite take_0, looped_singleton in Hlong.
    assert (false = true) by (apply Hlong; lia). discriminate. }
  destruct k as [| k]; [congruence |].
  exists t, (take k s). split; [reflexivity |].
  assert (StronglySorted Qle (t :: s)) as Hs.
  { rewrite <- Es. apply StronglySorted_merge_sort; apply _. }
  split.
  - apply sorted_elem_of. rewrite Es. left.
  - intros x Hx. apply sorted_elem_of in Hx. rewrite Es in Hx.
    apply list_elem_of_lookup in Hx as [i Hi].
    apply (StronglySorted_lookup_le _ 0%nat i _ _ Hs eq_refl Hi). lia.
Qed.

Lemma lon_constrain_ticks_keeps_least_witness :
  exists t rest,
    _constrain_ticks [720; 10; 400] = t :: rest /\ t ∈ [720; 10; 400] /\
    forall x, x ∈ [720; 10; 400] -> t <= x.
Proof. apply lon_constrain_ticks_keeps_least. discriminate. Defined.

(** X2. When no two of the ticks given are further apart than 360 plus twice
    5e-10, [_LonAxis._constrain_ticks] drops none of them: it returns the
    ticks sorted, a rearrangement of the ticks given. *)
Theorem lon_constrain_ticks_all_kept (ticks : list Q) :
  (forall x y, x ∈ ticks -> y ∈ ticks -> y - x <= 360 + 2 * eps) ->
  _constrain_ticks ticks = sorted ticks /\ _constrain_ticks ticks ≡ₚ ticks.
Proof.
  intros Hspan. rewrite (constrain_ticks_within _ Hspan).
  split; [reflexivity | apply merge_sort_Permutation].
Qed.

Lemma lon_constrain_ticks_all_kept_witness :
  _constrain_ticks [180; -180; 0] = sorted [180; -180; 0] /\
  _constrain_ticks [180; -180; 0] ≡ₚ [180; -180; 0].
Proof.
  apply lon_constrain_ticks_all_kept.
  intros x y Hx Hy. unfold eps.
  repeat (apply elem_of_cons in Hx as [-> | Hx]);
    repeat (apply elem_of_cons in Hy as [-> | Hy]);
    try (inversion Hx); try (inversion Hy); lra.
Defined.

(** X3. A second pass of [_LonAxis._constrain_ticks] over its own result
    drops nothing: it returns a rearrangement of that result; and every tick
    returned by the first pass is one of the ticks given. *)
Theorem lon_constrain_ticks_second_pass (ticks : list Q) :
  _constrain_ticks (_constrain_ticks ticks) ≡ₚ _constrain_ticks ticks /\
  (forall x, x ∈ _constrain_ticks ticks -> x ∈ ticks).
Proof.
  destruct (constrain_ticks_span ticks) as [Hsub Hspan].
  split; [| exact Hsub].
  rewrite (constrain_ticks_within _ Hspan). apply merge_sort_Permutation.
Qed.

End LonTicksMore.

Section LatTicksMore.
Import _LatAxis.

Lemma filter_in_range_id latmax (l : list Q) :
  (forall x, x ∈ l -> - latmax <= x /\ x <= latmax) ->
  List.filter (in_range latmax) l = l.
Proof.
  induction l as [| a l IH]; intros H; [reflexivity |].
  simpl. rewrite (proj2 (in_range_iff latmax a)) by (apply H; left).
  f_equal. apply IH. intros x Hx. apply H. right. exact Hx.
Qed.

(** What a result of [_constrain_ticks] is made of. *)
Lemma lat_constrain_ticks_inv latmax ticks res :
  _constrain_ticks latmax ticks = Ok res ->
  length res = length (List.filter (in_range latmax) ticks) /\
  (0 < length (List.filter (in_range latmax) ticks))%nat /\
  forall i, res !! i =
    nudged (length (List.filter (in_range latmax) ticks)) i
      <$> List.filter (in_range latmax) ticks !! i.
Proof.
  unfold _constrain_ticks. intros H.
  set (f := List.filter (in_range latmax) ticks) in *.
  destruct (f !! 0%nat) as [t0 |] eqn:E0; [| discriminate].
  destruct (nudge_lookup _ _ E0) as (res' & Hres & Hlook).
  cbv zeta in Hres. rewrite Hres in H. injection H as ->.
  assert (length res = length f) as Hlen.
  { destruct (Nat.lt_trichotomy (length res) (length f)) as [Hlt | [Heq | Hgt]];
      [| exact Heq |].
    - pose proof (Hlook (length res)) as Hl.
      rewrite (proj2 (lookup_ge_None res (length res))) in Hl by lia.
      destruct (lookup_lt_is_Some_2 f (length res) Hlt) as [x Hx].
      rewrite Hx in Hl. discriminate.
    - pose proof (Hlook (length f)) as Hl.
      rewrite (proj2 (lookup_ge_None f (length f))) in Hl by lia.
      destruct (lookup_lt_is_Some_2 res (length f) Hgt) as [x Hx].
      rewrite Hx in Hl. discriminate. }
  split; [exact Hlen |]. split; [| exact Hlook].
  apply lookup_lt_Some in E0. exact E0.
Qed.

Lemma Qeq_bool_false_iff x y : Qeq_bool x y = false <-> ~ x == y.
Proof.
  split.
  - intros H Heq. apply Qeq_bool_iff in Heq. congruence.
  - intros H. destruct (Qeq_bool x y) eqn:E; [| reflexivity].
    apply Qeq_bool_iff in E. contradiction.
Qed.

Lemma nudged_first n x : Qeq_bool (nudged n 0 x) (-90) = false.
Proof.
  unfold nudged. change (0 =? 0)%nat with true. cbn [andb].
  destruct (Qeq_bool x (-90)) eqn:Ea.
  - apply Qeq_bool_iff in Ea. apply Qeq_bool_false_iff. unfold eps. lra.
  - destruct ((0 =? n - 1)%nat && Qeq_bool x 90) eqn:Eb; [| exact Ea].
    apply andb_true_iff in Eb as [_ Eb]. apply Qeq_bool_iff in Eb.
    apply Qeq_bool_false_iff. unfold eps. lra.
Qed.

Lemma nudged_last n x : Qeq_bool (nudged n (n - 1) x) 90 = false.
Proof.
  unfold nudged. rewrite Nat.eqb_refl. cbn [andb].
  destruct ((n - 1 =? 0)%nat && Qeq_bool x (-90)) eqn:Ea.
  - apply andb_true_iff in Ea as [_ Ea]. apply Qeq_bool_iff in Ea.
    apply Qeq_bool_false_iff. unfold eps. lra.
  - destruct (Qeq_bool x 90) eqn:Eb; [| exact Eb].
    apply Qeq_bool_iff in Eb. apply Qeq_bool_false_iff. unfold eps. lra.
Qed.

(** X4. When [_LatAxis._constrain_ticks] returns, the first tick returned is
    not -90 and the last is not 90, and the function applied again to its
    result, with the same [latmax], returns it unchanged. *)
Theorem lat_constrain_ticks_fixed (latmax : Q) (ticks res : list Q) :
  _constrain_ticks latmax ticks = Ok res ->
  (forall t0, res !! 0%nat = Some t0 -> ~ t0 == -90) /\
  (forall tl, last_tick res = Some tl -> ~ tl == 90) /\
  _constrain_ticks latmax res = Ok res.
Proof.
  intros Hres.
  destruct (lat_constrain_ticks_inv _ _ _ Hres) as (Hlen & Hpos & Hlook).
  set (f := List.filter (in_range latmax) ticks) in *.
  assert (forall t0, res !! 0%nat = Some t0 -> Qeq_bool t0 (-90) = false) as Hfirst.
  { intros t0 H0. rewrite Hlook in H0.
    destruct (f !! 0%nat) as [x |]; [| discriminate]. simpl in H0.
    injection H0 as <-. apply nudged_first. }
  assert (forall tl, last_tick res = Some tl -> Qeq_bool tl 90 = false) as Hlast.
  { intros tl Hl. unfold last_tick in Hl. rewrite Hlook, Hlen in Hl.
    destruct (f !! (length f - 1)%nat) as [x |]; [| discriminate]. simpl in Hl.
    injection Hl as <-. apply nudged_last. }
  split.
  { intros t0 H0 Heq. apply Qeq_bool_iff in Heq. rewrite (Hfirst _ H0) in Heq.
    discriminate. }
  split.
  { intros tl Hl Heq. apply Qeq_bool_iff in Heq. rewrite (Hlast _ Hl) in Heq.
    discriminate. }
  assert (forall x, x ∈ res -> - latmax <= x /\ x <= latmax) as Hrange.
  { intros x Hx. apply list_elem_of_lookup in Hx as [i Hi]. rewrite Hlook in Hi.
    destruct (f !! i) as [y |] eqn:Ey; [| discriminate]. simpl in Hi.
    injection Hi as <-.
    assert (- latmax <= y /\ y <= latmax) as [Hlo Hhi].
    { apply in_range_iff. eapply proj2. apply filter_In. apply list_elem_of_In.
      eapply list_elem_of_lookup_2. exact Ey. }
    unfold nudged.
    destruct ((i =? 0)%nat && Qeq_bool y (-90)) eqn:Ea.
    { apply andb_true_iff in Ea as [_ Ea]. apply Qeq_bool_iff in Ea.
      unfold eps. split; lra. }
    destruct ((i =? _)%nat && Qeq_bool y 90) eqn:Eb.
    { apply andb_true_iff in Eb as [_ Eb]. apply Qeq_bool_iff in Eb.
      unfold eps. split; lra. }
    split; assumption. }
  unfold _constrain_ticks. rewrite (filter_in_range_id _ _ Hrange).
  destruct (res !! 0%nat) as [t0 |] eqn:E0.
  2:{ apply lookup_ge_None in E0. lia. }
  rewrite (Hfirst _ eq_refl).
  destruct (last_tick res) as [tl |] eqn:El.
  2:{ unfold last_tick in El. apply lookup_ge_None in El. lia. }
  rewrite (Hlast _ eq_refl). reflexivity.
Qed.

Lemma lat_constrain_ticks_fixed_witness :
  let res := [-90 + eps; 0; 90 - eps] in
  _constrain_ticks 90 res = Ok res.
Proof.
  intros res.
  apply (proj2 (proj2 (lat_constrain_ticks_fixed 90 [-90; 0; 95; 90] res eq_refl))).
Defined.

End LatTicksMore.

(** ** More on GeoAxes._to_label_array *)

Section LabelsMore.
Import GeoAxes.

(** X5. Whatever labels it is given, an array that [_to_label_array] returns
    has four entries. *)
Theorem to_label_array_length (labels array : pyval) (lon : bool) :
  _to_label_array labels lon = Ok array -> len array = 4%nat.
Proof.
  destruct (is_none labels) eqn:Hn.
  { destruct labels; try discriminate. simpl. intros H. injection H as <-.
    reflexivity. }
  destruct (is_str labels) eqn:Hs.
  { destruct labels; try discriminate. rewrite to_label_array_str.
    intros H. injection H as <-. reflexivity. }
  rewrite (to_label_array_cases _ _ Hn Hs). cbv zeta.
  assert (exists l, atleast_1d labels = VArray l) as [l Hl]
    by (destruct labels; simpl; eauto).
  rewrite Hl. unfold len. simpl items.
  destruct l as [| x1 [| x2 [| x3 [| x4 [| x5 l]]]]]; simpl; try discriminate;
    destruct lon; intros H; injection H as <-; reflexivity.
Qed.

Lemma to_label_array_length_witness :
  len (VList [VInt 0; VInt 0; VBool true; VInt 0]) = 4%nat.
Proof.
  apply (to_label_array_length (VBool true) _ true). reflexivity.
Defined.

(** X6. A single value that is neither [None] nor a string, alone or as the
    only item of a sequence, labels the bottom side for longitudes and the
    left side for latitudes; a sequence of four values is returned as an
    array of the same four values. *)
Theorem to_label_array_single (labels x : pyval) (lon : bool) :
  is_none labels = false -> is_str labels = false ->
  (items (atleast_1d labels) = [x] ->
   _to_label_array labels lon =
     Ok (VList (if lon then [VInt 0; VInt 0; x; VInt 0]
                else [x; VInt 0; VInt 0; VInt 0]))) /\
  (forall a b c d, items (atleast_1d labels) = [a; b; c; d] ->
   _to_label_array labels lon = Ok (VArray [a; b; c; d])).
Proof.
  intros Hn Hs. rewrite (to_label_array_cases _ _ Hn Hs). cbv zeta.
  assert (exists l, atleast_1d labels = VArray l) as [l Hl]
    by (destruct labels; simpl; eauto).
  rewrite Hl. unfold len. simpl items. split.
  - intros ->. destruct lon; reflexivity.
  - intros a b c d ->. reflexivity.
Qed.

Lemma to_label_array_single_witness :
  _to_label_array (VBool true) false =
    Ok (VList [VBool true; VInt 0; VInt 0; VInt 0]) /\
  _to_label_array (VTuple [VBool true; VBool false; VBool false; VBool true]) true =
    Ok (VArray [VBool true; VBool false; VBool false; VBool true]).
Proof.
  split.
  - apply (proj1 (to_label_array_single (VBool true) (VBool true) false
                    eq_refl eq_refl)). reflexivity.
  - apply (proj2 (to_label_array_single
                    (VTuple [VBool true; VBool false; VBool false; VBool true])
                    VNone true eq_refl eq_refl)). reflexivity.
Defined.

End LabelsMore.

(** ** Runs that return *)

Lemma bind_ok_inv {A B} (m : M A) (f : A -> M B) w b w' :
  (m ≫= f) w = (Ok b, w') ->
  exists a w1, m w = (Ok a, w1) /\ f a w1 = (Ok b, w').
Proof.
  intros H. apply bind_inv in H as [(e & _ & He) | H]; [discriminate | exact H].
Qed.

Lemma when_ok_inv c (body : M unit) w u w' :
  when c body w = (Ok u, w') ->
  (c = true /\ body w = (Ok u, w')) \/ (c = false /\ w' = w).
Proof.
  destruct c; simpl; intros H; [left; auto | right].
  injection H as _ <-. auto.
Qed.

Lemma ext_call_ok fn args kw w r :
  oracle w (log w ++ [Call fn args kw]) = Ok r ->
  ext_call fn args kw w = (Ok r, set_log (log w ++ [Call fn args kw]) w).
Proof. intros H. rewrite ext_call_run, H. reflexivity. Qed.

Ltac ok_step H :=
  let a := fresh "a" in
  let w1 := fresh "w" in
  let H1 := fresh "H" in
  apply bind_ok_inv in H as (a & w1 & H1 & H).

Ltac ok_step_as H a w1 H1 :=
  apply bind_ok_inv in H as (a & w1 & H1 & H).

Section AxisSetters.
Import _GeoAxis.

Lemma update_run ax f w :
  update ax f w = (Ok tt, set_self (with_axis ax f (self w)) w).
Proof. reflexivity. Qed.

Lemma get_run ax w : get ax w = (Ok (axis_of ax (self w)), w).
Proof. reflexivity. Qed.

Lemma axis_of_with_axis ax f a : axis_of ax (with_axis ax f a) = f (axis_of ax a).
Proof. destruct ax; reflexivity. Qed.

Lemma axis_of_with_axis_ne ax ax' f a :
  ax <> ax' -> axis_of ax' (with_axis ax f a) = axis_of ax' a.
Proof. destruct ax, ax'; intros H; try congruence; reflexivity. Qed.

Lemma with_axis_twice ax f g a :
  with_axis ax g (with_axis ax f a) = with_axis ax (fun x => g (f x)) a.
Proof. destruct ax; reflexivity. Qed.

Lemma ext_call_ok_inv fn args kw w r w' :
  ext_call fn args kw w = (Ok r, w') ->
  self w' = self w /\ heap w' = heap w /\ env w' = env w /\
  oracle w' = oracle w /\
  log w' = log w ++ [Call fn args kw] /\
  oracle w (log w ++ [Call fn args kw]) = Ok r.
Proof. intros H. apply ext_call_inv in H as [H ->]. repeat split. exact H. Qed.


Lemma set_major_locator_ok ax locator default w w' :
  set_major_locator ax locator default w = (Ok tt, w') ->
  w' = mkWorld (env w)
         (with_axis ax
            (fun g => upd_isDefault_majloc default (upd_major_locator locator g))
            (self w))
         (heap w)
         (log w ++
          (if holds (truthy (major_formatter (axis_of ax (self w))))
           then [Call "_set_locator" [major_formatter (axis_of ax (self w)); locator] []]
           else []) ++
          [Call "set_axis" [locator; self_ref ax] []])
         (oracle w).
Proof.
  intros H. unfold set_major_locator in H.
  ok_step H. rewrite update_run in H0. injection H0 as _ <-.
  ok_step H. rewrite get_run in H0. injection H0 as <- <-.
  ok_step H. apply lift_inv in H0 as [Ht ->].
  ok_step H. ok_step H.
  rewrite update_run in H. injection H as <-.
  simpl self in *. rewrite axis_of_with_axis in Ht, H0. simpl major_formatter in *.
  replace (major_formatter (upd_major_locator locator (axis_of ax (self w))))
    with (major_formatter (axis_of ax (self w))) in * by reflexivity.
  apply ext_call_inv in H1 as [_ ->].
  rewrite Ht. apply when_ok_inv in H0 as [[-> H0] | [-> ->]].
  - ok_step H0. injection H0 as _ <-. apply ext_call_inv in H as [_ ->].
    destruct ax; cbn; rewrite <- !app_assoc; reflexivity.
  - destruct ax; reflexivity.
Qed.

Lemma set_minor_locator_ok ax locator default w w' :
  set_minor_locator ax locator default w = (Ok tt, w') ->
  w' = mkWorld (env w)
         (with_axis ax
            (fun g => upd_isDefault_majfmt default (upd_minor_locator locator g))
            (self w))
         (heap w)
         (log w ++ [Call "set_axis" [locator; self_ref ax] []])
         (oracle w).
Proof.
  intros H. unfold set_minor_locator in H.
  ok_step H. rewrite update_run in H0. injection H0 as _ <-.
  ok_step H. apply ext_call_inv in H0 as [_ ->].
  rewrite update_run in H. injection H as <-.
  destruct ax; reflexivity.
Qed.

(** X7. When [set_major_locator] returns, the locator is the major locator
    of the axis, as [get_major_locator] reads it back, [isDefault_majloc] is
    the argument [default], and nothing else of the axes has changed; a
    formatter that is set has been told of the locator, by [_set_locator],
    before the locator is given its axis by [set_axis], and no other call
    has left the module. *)
Theorem set_major_locator_spec (ax : axis_name) (locator : pyval)
    (default : bool) (w w' : World) :
  set_major_locator ax locator default w = (Ok tt, w') ->
  self w' =
    with_axis ax (fun g => upd_isDefault_majloc default (upd_major_locator locator g))
      (self w) /\
  heap w' = heap w /\
  log w' =
    log w ++
    (if holds (truthy (major_formatter (axis_of ax (self w))))
     then [Call "_set_locator" [major_formatter (axis_of ax (self w)); locator] []]
     else []) ++
    [Call "set_axis" [locator; self_ref ax] []] /\
  get_major_locator ax w' = (Ok locator, w').
Proof.
  intros H. apply set_major_locator_ok in H. subst w'.
  destruct ax; cbn; repeat split.
Qed.

Lemma set_major_locator_spec_witness :
  let w' := snd (set_major_locator Lat (VInt 10) false Sample.cartopy_axes) in
  get_major_locator Lat w' = (Ok (VInt 10), w') /\
  heap w' = heap Sample.cartopy_axes.
Proof.
  intros w'.
  destruct (set_major_locator_spec Lat (VInt 10) false Sample.cartopy_axes w')
    as (_ & Hh & _ & Hg); [vm_compute; reflexivity |].
  split; [exact Hg | exact Hh].
Defined.

(** X8. When [set_minor_locator] returns, the locator is the minor locator
    of the axis, as [get_minor_locator] reads it back, and it has been given
    its axis by [set_axis]; the flag assigned is [isDefault_majfmt], which
    becomes the argument [default], and [isDefault_minloc] keeps the value
    it had. *)
Theorem set_minor_locator_spec (ax : axis_name) (locator : pyval)
    (default : bool) (w w' : World) :
  set_minor_locator ax locator default w = (Ok tt, w') ->
  self w' =
    with_axis ax (fun g => upd_isDefault_majfmt default (upd_minor_locator locator g))
      (self w) /\
  isDefault_minloc (axis_of ax (self w')) = isDefault_minloc (axis_of ax (self w)) /\
  isDefault_majfmt (axis_of ax (self w')) = default /\
  heap w' = heap w /\
  log w' = log w ++ [Call "set_axis" [locator; self_ref ax] []] /\
  get_minor_locator ax w' = (Ok locator, w').
Proof.
  intros H. apply set_minor_locator_ok in H. subst w'.
  destruct ax; cbn; repeat split.
Qed.

Lemma set_minor_locator_spec_witness :
  let w := Sample.cartopy_axes in
  let w' := snd (set_minor_locator Lon (VInt 5) false w) in
  get_minor_locator Lon w' = (Ok (VInt 5), w') /\
  isDefault_minloc (axis_of Lon (self w')) = isDefault_minloc (axis_of Lon (self w)) /\
  isDefault_majfmt (axis_of Lon (self w')) = false.
Proof.
  intros w w'.
  destruct (set_minor_locator_spec Lon (VInt 5) false w w')
    as (_ & Hm & Hf & _ & _ & Hg); [vm_compute; reflexivity |].
  split; [exact Hg |]. split; [exact Hm | exact Hf].
Defined.

End AxisSetters.

(** ** _LonAxis.__init__ and _LatAxis.__init__ *)

Section AxisInit.




End AxisInit.

(** ** get_view_interval *)

Section ViewInterval.

(** X10. The view interval that [set_view_interval] stored is what
    [get_view_interval] returns, as the tuple of the two bounds and without
    asking the axes for its extent; while none is stored, the longitude axis
    returns the first two entries of the extent of the axes and the latitude
    axis the entries from the third on. *)
Theorem get_view_interval_spec (get_extent : M pyval) (vmin vmax : pyval)
    (w : World) :
  (let w' := snd (_GeoAxis.set_view_interval Lon vmin vmax w) in
   _LonAxis.get_view_interval get_extent w' = (Ok (VTuple [vmin; vmax]), w')) /\
  (let w' := snd (_GeoAxis.set_view_interval Lat vmin vmax w) in
   _LatAxis.get_view_interval get_extent w' = (Ok (VTuple [vmin; vmax]), w')) /\
  (forall extent w1,
     _interval (_lonaxis (self w)) = VNone -> get_extent w = (Ok extent, w1) ->
     _LonAxis.get_view_interval get_extent w = (py_slice_to 2 extent, w1)) /\
  (forall extent w1,
     _interval (_lataxis (self w)) = VNone -> get_extent w = (Ok extent, w1) ->
     _LatAxis.get_view_interval get_extent w = (py_slice_from 2 extent, w1)).
Proof.
  repeat split.
  - intros extent w1 Hi He.
    unfold _LonAxis.get_view_interval, _GeoAxis.get, mbind, M_bind, get_self, mret, M_ret.
    cbn [axis_of]. rewrite Hi. cbn [is_none]. rewrite He. reflexivity.
  - intros extent w1 Hi He.
    unfold _LatAxis.get_view_interval, _GeoAxis.get, mbind, M_bind, get_self, mret, M_ret.
    cbn [axis_of]. rewrite Hi. cbn [is_none]. rewrite He. reflexivity.
Qed.

Lemma get_view_interval_spec_witness :
  _LonAxis.get_view_interval (mret (VList [VInt 0; VInt 90; VInt (-45); VInt 45]))
    Sample.blank = (Ok (VList [VInt 0; VInt 90]), Sample.blank) /\
  _LatAxis.get_view_interval (mret (VList [VInt 0; VInt 90; VInt (-45); VInt 45]))
    Sample.blank = (Ok (VList [VInt (-45); VInt 45]), Sample.blank).
Proof.
  pose proof (get_view_interval_spec
                (mret (VList [VInt 0; VInt 90; VInt (-45); VInt 45]))
                VNone VNone Sample.blank) as (_ & _ & Hlon & Hlat).
  split.
  - exact (Hlon (VList [VInt 0; VInt 90; VInt (-45); VInt 45]) Sample.blank
             eq_refl eq_refl).
  - exact (Hlat (VList [VInt 0; VInt 90; VInt (-45); VInt 45]) Sample.blank
             eq_refl eq_refl).
Defined.

End ViewInterval.

(** ** CartopyAxes.set_extent and get_extent *)

Section Extent.
Import CartopyAxes.


Lemma set_view_intervals_raise (l : list pyval) extent w :
  extent = VList l \/ extent = VTuple l \/ extent = VArray l ->
  length l <> 4%nat ->
  exists w', GeoAxes._set_view_intervals extent w = (Raise TypeError, w') /\
             heap w' = heap w /\ log w' = log w.
Proof.
  intros He Hl. unfold GeoAxes._set_view_intervals.
  destruct He as [-> | [-> | ->]];
    destruct l as [| a [| b [| c [| d [| e l]]]]]; try (simpl in Hl; lia);
    eexists; (split; [reflexivity | split; reflexivity]).
Qed.

(** What [set_extent] does after the view intervals are stored keeps
    them. *)
Lemma update_gridlines_keeps_intervals gl which a b :
  inv (kept view_intervals) (_update_gridlines gl which a b).
Proof. inv_go kept_leaf. Qed.


(** X12. For a [PlateCarree] system, [set_extent] raises [TypeError] on a
    list, tuple or array that has not four entries: cartopy's [set_extent]
    is not called, no call leaves the module, and no gridliner changes. *)
Theorem set_extent_rejects (l : list pyval) (extent crs : pyval) (w : World) :
  extent = VList l \/ extent = VTuple l \/ extent = VArray l ->
  length l <> 4%nat ->
  isinstance crs "cartopy.crs.PlateCarree" = true ->
  fst (set_extent extent crs w) = Raise TypeError /\
  log (snd (set_extent extent crs w)) = log w /\
  heap (snd (set_extent extent crs w)) = heap w.
Proof.
  intros He Hl Hi.
  destruct (set_view_intervals_raise l extent w He Hl) as (w' & Hr & Hh & Hlog).
  assert (is_none crs = false) as Hn by (destruct crs; try reflexivity; discriminate).
  unfold set_extent. rewrite Hn.
  rewrite (bind_ok (mret crs) _ w crs w) by reflexivity.
  rewrite Hi. cbn [when].
  rewrite (bind_raise _ _ w TypeError w'); [auto |].
  apply bind_raise. exact Hr.
Qed.

Lemma set_extent_rejects_witness :
  fst (set_extent (VTuple [VInt 0; VInt 90; VInt 45]) Sample.plate_carree
         Sample.cartopy_axes) = Raise TypeError.
Proof.
  apply (set_extent_rejects [VInt 0; VInt 90; VInt 45]); auto.
Defined.

End Extent.

Section GetExtent.
Import CartopyAxes.

Lemma isclose_number a (t : Z) x :
  number_of a = Some x ->
  isclose a (VInt t) = Ok (Qle_bool (Qabs (x - inject_Z t))
                             ((1 # 100000000) + (1 # 100000) * Qabs (inject_Z t))).
Proof. intros H. unfold isclose, as_number. rewrite H. reflexivity. Qed.

Lemma close_to_iff x (t : Z) :
  Qle_bool (Qabs (x - inject_Z t))
    ((1 # 100000000) + (1 # 100000) * Qabs (inject_Z t)) = true <->
  close_to x (inject_Z t).
Proof. unfold close_to. apply Qle_bool_iff. Qed.

Lemma latitude_not_close y : y <= 90 -> ~ close_to y 180.
Proof.
  unfold close_to. intros Hy Hc.
  assert (Qabs (180) == 180) as E by reflexivity.
  rewrite E in Hc.
  pose proof (Qle_Qabs (-(y - 180))) as Hab.
  rewrite Qabs_opp in Hab. lra.
Qed.

(** X13. For a coordinate system other than [PlateCarree], [get_extent]
    returns the extent that cartopy reports.  For [PlateCarree] and an
    extent given as a list, it returns that extent unchanged unless its
    first entry is close to -180 and its last entry close to 180, in the
    sense of [np.isclose]; so an extent whose last entry, the northern
    latitude, is at most 90 is returned unchanged.  When both are close, the
    first two entries are replaced by the central longitude minus and plus
    180, and the other entries are kept. *)
Theorem get_extent_repair (crs extent : pyval) (l : list pyval) (x y : Q)
    (w : World) :
  is_none crs = false ->
  oracle w (log w ++ [Call "super().get_extent" [] [("crs", crs)]]) = Ok extent ->
  let w1 := set_log (log w ++ [Call "super().get_extent" [] [("crs", crs)]]) w in
  (isinstance crs "cartopy.crs.PlateCarree" = false ->
   get_extent crs w = (Ok extent, w1)) /\
  (isinstance crs "cartopy.crs.PlateCarree" = true ->
   extent = VList l ->
   number_of <$> l !! 0%nat = Some (Some x) ->
   number_of <$> l !! (length l - 1)%nat = Some (Some y) ->
   (~ (close_to x (-180) /\ close_to y 180) ->
    get_extent crs w = (Ok extent, w1)) /\
   (y <= 90 -> get_extent crs w = (Ok extent, w1)) /\
   (close_to x (-180) -> close_to y 180 ->
    forall lon0 west east,
      _get_lon0 w1 = (Ok lon0, w1) ->
      py_sub lon0 (VInt 180) = Ok west -> py_add lon0 (VInt 180) = Ok east ->
      get_extent crs w = (Ok (VList (west :: east :: drop 2 l)), w1))).
Proof.
  intros Hn Ho w1.
  assert (get_extent crs w =
          (if isinstance crs "cartopy.crs.PlateCarree" then
             l ← lift (slice_from 0 extent);
             first ← lift (py_index l 0);
             close ← lift (isclose first (VInt (-180)));
             close ←
               (if (close : bool) then
                  final ← lift (py_index l (length l - 1));
                  lift (isclose final (VInt 180))
                else mret false);
             if (close : bool) then
               lon0 ← _get_lon0;
               west ← lift (py_sub lon0 (VInt 180));
               east ← lift (py_add lon0 (VInt 180));
               lift (store_lon_bounds extent west east)
             else mret extent
           else mret extent) w1) as Hhead.
  { unfold get_extent. rewrite Hn.
    rewrite (bind_ok (mret crs) _ w crs w) by reflexivity.
    rewrite (bind_ok _ _ w extent w1); [reflexivity |].
    rewrite ext_call_run, Ho. reflexivity. }
  rewrite Hhead. clear Hhead. split.
  { intros ->. reflexivity. }
  intros -> -> Hx Hy.
  destruct (l !! 0%nat) as [first |] eqn:E0; [| discriminate].
  destruct (l !! (length l - 1)%nat) as [final |] eqn:El; [| discriminate].
  simpl in Hx, Hy. injection Hx as Hx. injection Hy as Hy.
  assert (forall k : bool -> M pyval,
            (l' ← lift (slice_from 0 (VList l));
             first ← lift (py_index l' 0);
             close ← lift (isclose first (VInt (-180)));
             close ←
               (if (close : bool) then
                  final ← lift (py_index l' (length l' - 1));
                  lift (isclose final (VInt 180))
                else mret false);
             k close) w1 =
            k (Qle_bool (Qabs (x - inject_Z (-180)))
                 ((1 # 100000000) + (1 # 100000) * Qabs (inject_Z (-180))) &&
               Qle_bool (Qabs (y - inject_Z 180))
                 ((1 # 100000000) + (1 # 100000) * Qabs (inject_Z 180))) w1) as Hc.
  { intros k. simpl slice_from. rewrite drop_0.
    rewrite (bind_ok (lift (Ok l)) _ w1 l w1) by reflexivity.
    unfold py_index. rewrite E0.
    rewrite (bind_ok (lift (Ok first)) _ w1 first w1) by reflexivity.
    rewrite (isclose_number _ _ _ Hx).
    rewrite (bind_ok (lift (Ok _)) _ w1 _ w1) by reflexivity.
    destruct (Qle_bool (Qabs (x - inject_Z (-180))) _) eqn:Ea.
    - rewrite El.
      erewrite (bind_ok _ _ w1 _ w1); [reflexivity |].
      rewrite (bind_ok (lift (Ok final)) _ w1 final w1) by reflexivity.
      rewrite (isclose_number _ _ _ Hy). reflexivity.
    - rewrite (bind_ok (mret false) _ w1 false w1) by reflexivity. reflexivity. }
  rewrite Hc. clear Hc.
  assert (forall c, c = false ->
            (if (c : bool) then
               lon0 ← _get_lon0;
               west ← lift (py_sub lon0 (VInt 180));
               east ← lift (py_add lon0 (VInt 180));
               lift (store_lon_bounds (VList l) west east)
             else mret (VList l)) w1 = (Ok (VList l), w1)) as Hno
    by (intros c ->; reflexivity).
  split; [| split].
  - intros Hnot. apply Hno. apply not_true_is_false. intros Hb.
    apply andb_true_iff in Hb as [Ha Hb]. apply Hnot.
    split; [exact (proj1 (close_to_iff x (-180)) Ha)
           | exact (proj1 (close_to_iff y 180) Hb)].
  - intros Hle. apply Hno. apply andb_false_iff. right.
    apply not_true_is_false. intros Hb.
    exact (latitude_not_close y Hle (proj1 (close_to_iff y 180) Hb)).
  - intros Ha Hb lon0 west east Hl0 Hw He.
    rewrite (proj2 (close_to_iff x (-180)) Ha), (proj2 (close_to_iff y 180) Hb).
    cbn [andb].
    rewrite (bind_ok _ _ w1 lon0 w1 Hl0), Hw.
    rewrite (bind_ok (lift (Ok west)) _ w1 west w1) by reflexivity.
    rewrite He.
    rewrite (bind_ok (lift (Ok east)) _ w1 east w1) by reflexivity.
    reflexivity.
Qed.

End GetExtent.

Section UpdateExtent.
Import CartopyAxes.

(** X14. Where the central longitude can be read: on a polar projection,
    [_update_extent] with no [boundinglat], or with the one the axes already
    has, changes nothing and calls nothing but the warning that [lonlim] and
    [latlim], when one is given, are ignored; on another projection, with
    neither [lonlim] nor [latlim], it changes nothing and calls nothing but
    the warning that [boundinglat], when given, is ignored. *)
Theorem update_extent_inert (lonlim latlim boundinglat lon0 : pyval) (w : World) :
  _get_lon0 w = (Ok lon0, w) ->
  let p := _map_projection (self w) in
  let r := _update_extent lonlim latlim boundinglat w in
  (isinstance_any p _proj_north || isinstance_any p _proj_south = true ->
   is_none boundinglat || py_eq boundinglat (_boundinglat (self w)) = true ->
   self (snd r) = self w /\ heap (snd r) = heap w /\
   exists message,
     log (snd r) =
     log w ++
     (if not_none lonlim || not_none latlim
      then [Call "warnings._warn_proplot"
              [VStr message; VStr (type_name p); lonlim; latlim] []]
      else [])) /\
  (isinstance_any p _proj_north || isinstance_any p _proj_south = false ->
   is_none lonlim && is_none latlim = true ->
   self (snd r) = self w /\ heap (snd r) = heap w /\
   exists message,
     log (snd r) =
     log w ++
     (if not_none boundinglat
      then [Call "warnings._warn_proplot"
              [VStr message; VStr (type_name p); boundinglat] []]
      else [])).
Proof.
  intros H0. cbv zeta. unfold _update_extent.
  rewrite (bind_ok _ _ w lon0 w H0).
  rewrite (bind_ok projection _ w (_map_projection (self w)) w) by reflexivity.
  split; intros Hp Hb; rewrite Hp.
  - assert (not_none boundinglat &&
            negb (py_eq boundinglat (_boundinglat (self w))) = false) as Hc.
    { unfold not_none. apply orb_true_iff in Hb as [-> | ->];
        [reflexivity | apply andb_false_r]. }
    assert (forall (body : M unit) w1, self w1 = self w ->
              (a ← get_self;
               when (not_none boundinglat &&
                     negb (py_eq boundinglat (_boundinglat a))) body) w1
              = (Ok tt, w1)) as Htail.
    { intros body w1 Hs.
      rewrite (bind_ok get_self _ w1 (self w1) w1) by reflexivity.
      rewrite Hs, Hc. reflexivity. }
    destruct (not_none lonlim || not_none latlim); cbn [when].
    + unfold _warn_proplot. rewrite bind_assoc, bind_run, ext_call_run.
      destruct (oracle w _).
      * rewrite (bind_ok (mret tt) _ _ tt _) by reflexivity.
        rewrite Htail by reflexivity.
        split; [reflexivity |]. split; [reflexivity |]. eexists. reflexivity.
      * split; [reflexivity |]. split; [reflexivity |]. eexists. reflexivity.
    + rewrite (bind_ok (mret tt) _ w tt w) by reflexivity.
      rewrite Htail by reflexivity.
      split; [reflexivity |]. split; [reflexivity |]. exists "". rewrite app_nil_r. reflexivity.
  - apply andb_true_iff in Hb as [Hl1 Hl2].
    replace (not_none lonlim || not_none latlim) with false
      by (unfold not_none; rewrite Hl1, Hl2; reflexivity).
    cbn [when].
    destruct (not_none boundinglat); cbn [when].
    + unfold _warn_proplot. rewrite bind_assoc, bind_run, ext_call_run.
      destruct (oracle w _).
      * rewrite (bind_ok (mret tt) _ _ tt _) by reflexivity.
        split; [reflexivity |]. split; [reflexivity |]. eexists. reflexivity.
      * split; [reflexivity |]. split; [reflexivity |]. eexists. reflexivity.
    + rewrite (bind_ok (mret tt) _ w tt w) by reflexivity.
      split; [reflexivity |]. split; [reflexivity |]. exists "".
      rewrite app_nil_r. reflexivity.
Qed.
End UpdateExtent.

Section UpdateExtentLimits.
Import CartopyAxes.

Lemma set_extent_last extent crs r w w' :
  set_extent extent crs w = (Ok r, w') ->
  exists crs', last (log w') = Some (Call "super().set_extent" [extent] [("crs", crs')]).
Proof.
  intros H. unfold set_extent in H.
  ok_step H. ok_step H. apply ext_call_inv in H as [_ ->].
  eexists. simpl. apply last_snoc.
Qed.

Lemma fill_none_first (x y : pyval) (v : result pyval) l' :
  fill_none [x; y] 0 v = Ok l' ->
  exists x', l' = [x'; y] /\ (if is_none x then v = Ok x' else x' = x).
Proof.
  unfold fill_none, py_index. simpl. destruct (is_none x).
  - destruct v as [v' | e]; [| discriminate]. simpl. intros H. injection H as <-.
    exists v'. auto.
  - intros H. injection H as <-. exists x. auto.
Qed.

Lemma fill_none_second (x y : pyval) (v : result pyval) l' :
  fill_none [x; y] 1 v = Ok l' ->
  exists y', l' = [x; y'] /\ (if is_none y then v = Ok y' else y' = y).
Proof.
  unfold fill_none, py_index. simpl. destruct (is_none y).
  - destruct v as [v' | e]; [| discriminate]. simpl. intros H. injection H as <-.
    exists v'. auto.
  - intros H. injection H as <-. exists y. auto.
Qed.

(** X15. On a projection that is not polar, when [_update_extent] returns
    for limits given as pairs, [None] standing for a pair of [None]: its
    last call is cartopy's [set_extent] with the extent west, east, south,
    north, where west is the first longitude limit, or the central longitude
    minus 180 when that limit is [None], plus 1e-10; east is the second
    longitude limit or the central longitude plus 180; south and north are
    the latitude limits or -90 and 90. *)
Theorem update_extent_limits (lonlim latlim boundinglat : pyval)
    (a b c d : pyval) (w w' : World) :
  isinstance_any (_map_projection (self w)) _proj_north ||
  isinstance_any (_map_projection (self w)) _proj_south = false ->
  not_none lonlim || not_none latlim = true ->
  limits lonlim = Ok [a; b] -> limits latlim = Ok [c; d] ->
  _update_extent lonlim latlim boundinglat w = (Ok tt, w') ->
  exists lon0 west east south north crs,
    _get_lon0 w = (Ok lon0, w) /\
    last (log w') =
      Some (Call "super().set_extent" [VList [west; east; south; north]]
              [("crs", crs)]) /\
    (exists a', (if is_none a then py_sub lon0 (VInt 180) = Ok a' else a' = a) /\
                py_add a' (VFloat eps) = Ok west) /\
    (if is_none b then py_add lon0 (VInt 180) = Ok east else east = b) /\
    south = (if is_none c then VInt (-90) else c) /\
    north = (if is_none d then VInt 90 else d).
Proof.
  intros Hp Hlim Hlon Hlat H. unfold _update_extent in H.
  ok_step_as H lon0 w0 H0.
  assert (w0 = w) as ->.
  { unfold _get_lon0 in H0. ok_step_as H0 p0 u1 E1. injection E1 as _ <-.
    ok_step_as H0 p1 u2 E2. apply lift_inv in E2 as [_ ->].
    ok_step_as H0 p2 u3 E3. apply lift_inv in E3 as [_ ->].
    injection H0 as _ <-. reflexivity. }
  ok_step_as H p w1 E1. injection E1 as <- <-. rewrite Hp in H.
  ok_step_as H u w1 Ewarn. clear Ewarn.
  rewrite Hlim in H. cbn [when] in H.
  ok_step_as H l1 w2 E1. apply lift_inv in E1 as [E1 ->].
  rewrite Hlon in E1. injection E1 as <-.
  ok_step_as H l2 w2 E2. apply lift_inv in E2 as [E2 ->].
  rewrite Hlat in E2. injection E2 as <-.
  ok_step_as H l3 w2 E3. apply lift_inv in E3 as [E3 ->].
  apply fill_none_first in E3 as (a1 & -> & Ha).
  ok_step_as H l4 w2 E4. apply lift_inv in E4 as [E4 ->].
  apply fill_none_second in E4 as (b2 & -> & Hb).
  ok_step_as H l5 w2 E5. apply lift_inv in E5 as [E5 ->].
  simpl in E5.
  destruct (py_add a1 (VFloat eps)) as [west |] eqn:Ew; [| discriminate].
  simpl in E5. injection E5 as <-.
  ok_step_as H l6 w2 E6. apply lift_inv in E6 as [E6 ->].
  apply fill_none_first in E6 as (c1 & -> & Hc).
  ok_step_as H l7 w2 E7. apply lift_inv in E7 as [E7 ->].
  apply fill_none_second in E7 as (d2 & -> & Hd).
  ok_step_as H crs w2 E8. apply ext_call_inv in E8 as [_ ->].
  ok_step_as H r w2 E9. injection H as <-.
  apply set_extent_last in E9 as [crs' Hlast].
  exists lon0, west, b2, c1, d2, crs'.
  split; [exact H0 |]. split; [exact Hlast |].
  split; [exists a1; split; [exact Ha | exact Ew] |].
  split; [exact Hb |].
  split.
  - destruct (is_none c); [injection Hc as <-; reflexivity | exact Hc].
  - destruct (is_none d); [injection Hd as <-; reflexivity | exact Hd].
Qed.

End UpdateExtentLimits.

Section GridlineProps.
Import GeoAxes.

(** X16. For minor gridlines, [_get_gridline_props] asks [rc] twice, for the
    line properties of [gridminor] and for [axes.axisbelow], and returns no
    text property.  When [axes.axisbelow] is [None] the line properties are
    those of [rc]; otherwise they have in addition the [zorder] that
    [_axis_below_to_zorder] gives, and the exception of that function is
    raised when the setting is not valid. *)
Theorem get_gridline_props_minor (which : string) (context : bool)
    (d : kwargs) (axisbelow : pyval) (w : World) :
  let fill :=
    Call "rc.fill"
      [VDict [("alpha", VStr "gridminor.alpha"); ("color", VStr "gridminor.color");
              ("linewidth", VStr "gridminor.linewidth");
              ("linestyle", VStr "gridminor.linestyle")]]
      [("context", VBool context)] in
  let get := Call "rc.get" [VStr "axes.axisbelow"] [("context", VBool true)] in
  which <> "major" ->
  oracle w (log w ++ [fill]) = Ok (VDict d) ->
  oracle w ((log w ++ [fill]) ++ [get]) = Ok axisbelow ->
  log (snd (_get_gridline_props which context w)) = (log w ++ [fill]) ++ [get] /\
  fst (_get_gridline_props which context w) =
    (if is_none axisbelow then Ok (VDict d, VDict [])
     else
       match _axis_below_to_zorder axisbelow with
       | Ok zorder => Ok (VDict (dict_set "zorder" (VFloat zorder) d), VDict [])
       | Raise e => Raise e
       end).
Proof.
  intros fill get Hw Hf Hg. unfold _get_gridline_props.
  assert (String.eqb which "major" = false) as ->
    by (apply String.eqb_neq; exact Hw).
  subst fill get.
  erewrite bind_ok by (apply ext_call_ok; exact Hf).
  unfold rc_get.
  erewrite bind_ok by (apply ext_call_ok; exact Hg).
  unfold not_none. destruct (is_none axisbelow); cbn [negb].
  - split; reflexivity.
  - destruct (_axis_below_to_zorder axisbelow); split; reflexivity.
Qed.
End GridlineProps.

(** ** Dicts *)

Section Dicts.

Lemma eqb_neq_sym (a b : string) : String.eqb a b = false -> String.eqb b a = false.
Proof. rewrite !String.eqb_neq. auto. Qed.

Lemma dict_get_set_eq k v d : dict_get k (dict_set k v d) = Some v.
Proof.
  induction d as [| [k' v'] d IH]; simpl.
  - rewrite String.eqb_refl. reflexivity.
  - destruct (String.eqb k k') eqn:E; simpl.
    + rewrite String.eqb_refl. reflexivity.
    + rewrite E. exact IH.
Qed.

Lemma dict_get_set_ne k k' v d :
  k <> k' -> dict_get k' (dict_set k v d) = dict_get k' d.
Proof.
  intros Hne. induction d as [| [k1 v1] d IH]; simpl.
  - apply String.eqb_neq in Hne. rewrite (eqb_neq_sym _ _ Hne). reflexivity.
  - destruct (String.eqb k k1) eqn:E; simpl.
    + apply String.eqb_eq in E. subst k1.
      apply String.eqb_neq in Hne. rewrite (eqb_neq_sym _ _ Hne). reflexivity.
    + destruct (String.eqb k' k1); [reflexivity | exact IH].
Qed.

Lemma dict_set_same k v d : dict_get k d = Some v -> dict_set k v d = d.
Proof.
  induction d as [| [k' v'] d IH]; simpl; [discriminate |].
  destruct (String.eqb k k') eqn:E.
  - intros H. injection H as ->. apply String.eqb_eq in E. subst. reflexivity.
  - intros H. rewrite (IH H). reflexivity.
Qed.

Lemma dict_get_remove_eq k d : dict_get k (dict_remove k d) = None.
Proof.
  induction d as [| [k' v'] d IH]; simpl; [reflexivity |].
  destruct (String.eqb k k') eqn:E; simpl; [exact IH |].
  rewrite E. exact IH.
Qed.

Lemma dict_get_remove_ne k k' d :
  k <> k' -> dict_get k' (dict_remove k d) = dict_get k' d.
Proof.
  intros Hne. induction d as [| [k1 v1] d IH]; simpl; [reflexivity |].
  destruct (String.eqb k k1) eqn:E; simpl.
  - apply String.eqb_eq in E. subst k1.
    apply String.eqb_neq in Hne. rewrite (eqb_neq_sym _ _ Hne). exact IH.
  - destruct (String.eqb k' k1); [reflexivity | exact IH].
Qed.

(** After [d.update(other)] a key of [other] has the value that [other]
    gives it, and another key the value it had. *)
Lemma dict_get_update k d other :
  NoDup (List.map fst other) ->
  dict_get k (dict_update d other) =
  match dict_get k other with Some v => Some v | None => dict_get k d end.
Proof.
  unfold dict_update. revert d.
  induction other as [| [k1 v1] other IH]; intros d Hnd; simpl; [reflexivity |].
  apply NoDup_cons in Hnd as [Hnotin Hnd].
  rewrite (IH _ Hnd).
  destruct (String.eqb k k1) eqn:E.
  - apply String.eqb_eq in E. subst k1.
    assert (dict_get k other = None) as ->.
    { clear -Hnotin. induction other as [| [k2 v2] other IH]; simpl; [reflexivity |].
      destruct (String.eqb k k2) eqn:E.
      - apply String.eqb_eq in E. subst. exfalso. apply Hnotin. simpl. left.
      - apply IH. intros H. apply Hnotin. simpl. right. exact H. }
    apply dict_get_set_eq.
  - destruct (dict_get k other); [reflexivity |].
    apply dict_get_set_ne. apply String.eqb_neq in E. congruence.
Qed.

End Dicts.

Section Features.
Import CartopyAxes.

(** X17. For the features drawn as lines (coast, rivers, borders,
    innerborders) the settings passed to the artist have the [color] setting
    as [edgecolor], the [facecolor] none and no [color], every other setting
    being kept, and settings without [color] raise [KeyError]; for the other
    features the settings get [linewidth] 0 and are otherwise kept. *)
Theorem feature_kw_spec (name : string) (kw : kwargs) :
  (mem_string name line_features = true ->
   (dict_get "color" kw = None -> feature_kw name (VDict kw) = Raise KeyError) /\
   (forall color, dict_get "color" kw = Some color ->
    exists kw', feature_kw name (VDict kw) = Ok (VDict kw') /\
      dict_get "edgecolor" kw' = Some color /\
      dict_get "facecolor" kw' = Some (VStr "none") /\
      dict_get "color" kw' = None /\
      forall k, k <> "color" -> k <> "edgecolor" -> k <> "facecolor" ->
                dict_get k kw' = dict_get k kw)) /\
  (mem_string name line_features = false ->
   exists kw', feature_kw name (VDict kw) = Ok (VDict kw') /\
     dict_get "linewidth" kw' = Some (VInt 0) /\
     forall k, k <> "linewidth" -> dict_get k kw' = dict_get k kw).
Proof.
  unfold feature_kw. simpl as_dict. cbn [mbind result_bind].
  split; intros ->.
  - unfold dict_pop. split.
    + intros ->. reflexivity.
    + intros color ->. cbn [mbind result_bind].
      eexists. split; [reflexivity |]. unfold dict_update. simpl fold_left.
      split; [| split; [| split]].
      * rewrite dict_get_set_ne by discriminate. apply dict_get_set_eq.
      * apply dict_get_set_eq.
      * rewrite !dict_get_set_ne by discriminate. apply dict_get_remove_eq.
      * intros k H1 H2 H3. rewrite !dict_get_set_ne by congruence.
        apply dict_get_remove_ne. congruence.
  - eexists. split; [reflexivity |]. unfold dict_update. simpl fold_left. split.
    + apply dict_get_set_eq.
    + intros k H. apply dict_get_set_ne. congruence.
Qed.

Lemma feature_kw_spec_witness :
  feature_kw "coast" (VDict [("linewidth", VInt 1)]) = Raise KeyError /\
  exists kw', feature_kw "land" (VDict [("color", VStr "k")]) = Ok (VDict kw') /\
              dict_get "linewidth" kw' = Some (VInt 0).
Proof.
  split.
  - apply (proj1 (proj1 (feature_kw_spec "coast" [("linewidth", VInt 1)]) eq_refl)).
    reflexivity.
  - destruct (proj2 (feature_kw_spec "land" [("color", VStr "k")]) eq_refl)
      as (kw' & H1 & H2 & _).
    exists kw'. split; [exact H1 | exact H2].
Defined.

(** X18. When the [reso] setting is not a key of [CARTOPY_RESOS],
    [CartopyAxes._update_features] raises [ValueError] after reading that
    setting: no feature is looked at, and nothing else is called. *)
Theorem update_features_invalid_reso (reso : string) (w : World) :
  oracle w (log w ++ [Call "rc.__getitem__" [VStr "reso"] []]) = Ok (VStr reso) ->
  dict_get reso (CARTOPY_RESOS (env w)) = None ->
  _update_features w =
    (Raise ValueError, set_log (log w ++ [Call "rc.__getitem__" [VStr "reso"] []]) w).
Proof.
  intros Ho Hd. unfold _update_features.
  erewrite bind_ok by (apply ext_call_ok; exact Ho).
  erewrite bind_ok by reflexivity.
  erewrite bind_raise; [reflexivity |].
  unfold lift, lookup_reso. cbn [env set_log]. rewrite Hd. reflexivity.
Qed.

Lemma update_features_invalid_reso_witness :
  let w := mkWorld (Sample.environment true true) Sample.blank_axes ∅ []
             (fun _ => Ok (VStr "ultra")) in
  fst (_update_features w) = Raise ValueError.
Proof.
  intros w. rewrite (update_features_invalid_reso "ultra" w); reflexivity.
Defined.

(** One pass of the loop of [_update_features] over features that are all
    drawn. *)
Lemma update_features_loop reso (fs : kwargs) w :
  (forall name args, In (name, args) fs ->
     exists feat, dict_get name (_features (self w)) = Some feat /\
                  is_none feat = false) ->
  only_calls (fun ev => creates_feature ev = false) w
    (snd (for_each fs (fun '(name, args) =>
       b ← rc_get name;
       when (not_none b)
         (a ← get_self;
          let feat := dict_get_default name VNone (_features a) in
          b ← lift (truthy b);
          if negb b then
            when (not_none feat) (ext_call "set_visible" [feat; VBool false] [];; mret tt)
          else
            let drawn := not_none feat in
            feat ←
              (if drawn then mret feat
               else
                 args ← lift (iterate args);
                 feat ← ext_call "cfeature.NaturalEarthFeature" (args ++ [reso]) [];
                 ext_call "self.add_feature" [feat] []);
            kw ← ext_call "rc.category" [VStr name] [("context", VBool drawn)];
            kw ← lift (feature_kw name kw);
            ext_call "feat._kwargs.update" [feat; kw] [];;
            modify_self (upd_features (dict_set name feat)))) w)).
Proof.
  revert w. induction fs as [| [name args] fs IH]; intros w Hdrawn.
  - reflexivity.
  - cbn [for_each]. apply run_bind.
    2:{ intros _ w1 _ (Hs & _). apply IH. intros n a Hin. rewrite Hs.
        apply (Hdrawn n a). right. exact Hin. }
    destruct (Hdrawn name args (or_introl eq_refl)) as (feat & Hf & Hn).
    apply run_bind; [apply only_calls_ext_call; reflexivity |].
    intros b w1 _ (Hs1 & _).
    destruct (not_none b); cbn [when]; [| reflexivity].
    apply run_bind; [reflexivity |]. intros a w2 Ha _.
    injection Ha as <- <-.
    unfold dict_get_default. rewrite Hs1, Hf. cbv zeta.
    apply run_bind; [reflexivity |]. intros tb w2 Ht _.
    apply lift_inv in Ht as [_ ->].
    unfold not_none. rewrite Hn. cbn [negb].
    destruct tb; cbn [negb when].
    + apply run_bind; [reflexivity |]. intros f' w2 Hf' _.
      injection Hf' as <- <-.
      apply run_bind; [apply only_calls_ext_call; reflexivity |].
      intros kw w2 Hk _. apply ext_call_inv in Hk as [_ ->].
      apply run_bind; [reflexivity |]. intros kw' w2 Hk' _.
      apply lift_inv in Hk' as [_ ->].
      apply run_bind; [apply only_calls_ext_call; reflexivity |].
      intros r w2 Hr _. apply ext_call_inv in Hr as [_ ->].
      repeat split; try reflexivity.
      * cbn. rewrite Hs1. unfold upd_features.
        rewrite (dict_set_same _ _ _ Hf). destruct (self w). reflexivity.
      * exists []. rewrite app_nil_r. auto.
    + apply run_bind; [apply only_calls_ext_call; reflexivity |].
      intros r w2 _ _. reflexivity.
Qed.

(** X19. When every feature of [CARTOPY_FEATURES] is already stored on the
    axes, [CartopyAxes._update_features] creates none: it calls neither
    [NaturalEarthFeature] nor [add_feature], and the attributes of the axes
    and the gridliners are unchanged. *)
Theorem update_features_drawn_once (w : World) :
  (forall name args, In (name, args) (CARTOPY_FEATURES (env w)) ->
     exists feat, dict_get name (_features (self w)) = Some feat /\
                  is_none feat = false) ->
  let w' := snd (_update_features w) in
  self w' = self w /\ heap w' = heap w /\
  exists evs, log w' = log w ++ evs /\
              Forall (fun ev => creates_feature ev = false) evs.
Proof.
  intros Hdrawn w'.
  assert (only_calls (fun ev => creates_feature ev = false) w w')
    as (Hs & Hh & _ & _ & He); [| auto].
  unfold w', _update_features.
  apply run_bind; [apply only_calls_ext_call; reflexivity |].
  intros r w1 Hr _. apply ext_call_inv in Hr as [_ ->].
  apply run_bind; [reflexivity |]. intros e w1 He _. injection He as <- <-.
  apply run_bind; [reflexivity |]. intros reso w1 Hl _.
  apply lift_inv in Hl as [_ ->].
  apply update_features_loop. exact Hdrawn.
Qed.

End Features.

Section Patches.

(** X20. [CartopyAxes._update_patches] updates the background patch with the
    face settings of [rc] overridden by [patch_kw]: a key of [patch_kw] has
    its value there, another key has the value of [rc].  The call follows
    the two calls of [rc.fill] and is followed by at most the update of the
    outline patch with the edge settings; the attributes of the axes are
    unchanged. *)
Theorem cartopy_update_patches_override (face edge other : kwargs) (w : World) :
  let fill_face :=
    Call "rc.fill"
      [VDict [("facecolor", VStr "axes.facecolor"); ("alpha", VStr "axes.alpha")]]
      [("context", VBool true)] in
  let fill_edge :=
    Call "rc.fill"
      [VDict [("edgecolor", VStr "geoaxes.edgecolor");
              ("linewidth", VStr "geoaxes.linewidth")]]
      [("context", VBool true)] in
  oracle w (log w ++ [fill_face]) = Ok (VDict face) ->
  oracle w ((log w ++ [fill_face]) ++ [fill_edge]) = Ok (VDict edge) ->
  NoDup (List.map fst other) ->
  exists kw_face rest,
    log (snd (CartopyAxes._update_patches (VDict other) w)) =
      log w ++
      [fill_face; fill_edge; Call "self.background_patch.update" [VDict kw_face] []]
      ++ rest /\
    (rest = [] \/ rest = [Call "self.outline_patch.update" [VDict edge] []]) /\
    (forall k v, dict_get k other = Some v -> dict_get k kw_face = Some v) /\
    (forall k, dict_get k other = None -> dict_get k kw_face = dict_get k face) /\
    self (snd (CartopyAxes._update_patches (VDict other) w)) = self w.
Proof.
  intros fill_face fill_edge Hf He Hnd. subst fill_face fill_edge.
  exists (dict_update face other).
  unfold CartopyAxes._update_patches.
  erewrite bind_ok by (apply ext_call_ok; exact Hf).
  erewrite bind_ok by (apply ext_call_ok; exact He).
  assert (forall w1,
            lift (kw_face ← as_dict (VDict face);
                  t ← truthy (VDict other);
                  match (if (t : bool) then VDict other else VDict []) with
                  | VDict other => Ok (VDict (dict_update kw_face other))
                  | _ => Raise TypeError
                  end) w1 = (Ok (VDict (dict_update face other)), w1)) as Hl.
  { intros w1. unfold lift. f_equal. cbn.
    destruct other; reflexivity. }
  erewrite bind_ok by apply Hl.
  rewrite bind_run, ext_call_run. cbn [oracle log set_log].
  match goal with
  | |- context [match oracle w ?l with _ => _ end] =>
      destruct (oracle w l) as [r1 | e1]
  end.
  - rewrite bind_run, ext_call_run. cbn [oracle log set_log].
    exists [Call "self.outline_patch.update" [VDict edge] []].
    match goal with
    | |- context [match oracle w ?l with _ => _ end] =>
        destruct (oracle w l) as [r2 | e2]
    end; cbn [snd log set_log self];
      rewrite <- !app_assoc; (split; [reflexivity |]); (split; [auto |]);
      (split; [intros k v Hk; rewrite (dict_get_update _ _ _ Hnd), Hk; reflexivity |]);
      (split; [intros k Hk; rewrite (dict_get_update _ _ _ Hnd), Hk; reflexivity |]);
      reflexivity.
  - exists []. cbn [snd log set_log self]. rewrite <- !app_assoc.
    split; [reflexivity |]. split; [auto |].
    split; [intros k v Hk; rewrite (dict_get_update _ _ _ Hnd), Hk; reflexivity |].
    split; [intros k Hk; rewrite (dict_get_update _ _ _ Hnd), Hk; reflexivity |].
    reflexivity.
Qed.

End Patches.

Section ProjectionSetters.

(** X21. Where the library is installed, the setter of [projection] raises
    [ValueError], and leaves the projection as it was, for a value that is
    not a [cartopy.crs.CRS] on a cartopy axes, or not a [Basemap] on a
    basemap axes; otherwise it stores the value, which [projection] then
    returns, and the view intervals, the gridliners and the log are
    unchanged. *)
Theorem set_projection_spec (map_projection : pyval) (w : World) :
  (cartopy_installed (env w) = true ->
   (isinstance map_projection "cartopy.crs.CRS" = false ->
    CartopyAxes.set_projection map_projection w = (Raise ValueError, w)) /\
   (isinstance map_projection "cartopy.crs.CRS" = true ->
    exists w',
      CartopyAxes.set_projection map_projection w = (Ok tt, w') /\
      CartopyAxes.projection w' = (Ok map_projection, w') /\
      view_intervals w' = view_intervals w /\ heap w' = heap w /\ log w' = log w)) /\
  (basemap_installed (env w) = true ->
   (isinstance map_projection "mpl_toolkits.basemap.Basemap" = false ->
    BasemapAxes.set_projection map_projection w = (Raise ValueError, w)) /\
   (isinstance map_projection "mpl_toolkits.basemap.Basemap" = true ->
    exists w',
      BasemapAxes.set_projection map_projection w = (Ok tt, w') /\
      BasemapAxes.projection w' = (Ok map_projection, w') /\
      view_intervals w' = view_intervals w /\ heap w' = heap w /\ log w' = log w)).
Proof.
  split; intros Hi; (split; intros Hc).
  - unfold CartopyAxes.set_projection.
    rewrite (bind_ok get_env _ w (env w) w) by reflexivity.
    rewrite Hi, Hc. reflexivity.
  - eexists. unfold CartopyAxes.set_projection.
    rewrite (bind_ok get_env _ w (env w) w) by reflexivity.
    rewrite Hi, Hc. split; [reflexivity |]. repeat split.
  - unfold BasemapAxes.set_projection.
    rewrite (bind_ok get_env _ w (env w) w) by reflexivity.
    rewrite Hi, Hc. reflexivity.
  - eexists. unfold BasemapAxes.set_projection.
    rewrite (bind_ok get_env _ w (env w) w) by reflexivity.
    rewrite Hi, Hc. split; [reflexivity |]. repeat split.
Qed.

Lemma set_projection_spec_witness :
  CartopyAxes.set_projection (VStr "merc") Sample.cartopy_axes =
    (Raise ValueError, Sample.cartopy_axes) /\
  exists w',
    BasemapAxes.set_projection Sample.basemap Sample.blank = (Ok tt, w') /\
    BasemapAxes.projection w' = (Ok Sample.basemap, w').
Proof.
  split.
  - apply (proj1 (proj1 (set_projection_spec (VStr "merc") Sample.cartopy_axes)
                   eq_refl)). reflexivity.
  - destruct (proj2 (proj2 (set_projection_spec Sample.basemap Sample.blank) eq_refl)
                eq_refl) as (w' & H1 & H2 & _).
    exists w'. split; [exact H1 | exact H2].
Defined.

End ProjectionSetters.

Section BasemapInit.
Import BasemapAxes.

(** X22. When [BasemapAxes.__init__] has computed its first extent, [latmax]
    is 80 for a polar projection and 90 otherwise, the extent has four
    entries, the northern one being 90 for a north polar projection and the
    southern one -90 for a south polar one, and [_set_view_intervals]
    accepts it: the view intervals become its first two and its last two
    entries. *)
Theorem initial_extent_spec (map_projection lon0 latmax : pyval)
    (extent : list pyval) (w : World) :
  initial_extent map_projection lon0 = Ok (latmax, extent) ->
  exists name,
    obj_getattr map_projection "projection" = Ok name /\
    latmax = VInt (if in_strings name _proj_polar then 80 else 90) /\
    exists west east south north,
      extent = [west; east; south; north] /\
      (in_strings name _proj_north = true -> north = VInt 90) /\
      (in_strings name _proj_polar = true -> in_strings name _proj_north = false ->
       south = VInt (-90)) /\
      view_intervals (snd (GeoAxes._set_view_intervals (VList extent) w)) =
        (VTuple [west; east], VTuple [south; north]) /\
      fst (GeoAxes._set_view_intervals (VList extent) w) = Ok tt.
Proof.
  unfold initial_extent. intros H.
  destruct (obj_getattr map_projection "projection") as [name | e] eqn:En;
    [| discriminate].
  exists name. split; [reflexivity |]. cbn [mbind result_bind] in H.
  destruct (in_strings name _proj_polar) eqn:Ep.
  - destruct (py_add (VInt (-180)) lon0) as [west | ?]; [| discriminate].
    destruct (py_add (VInt 180) lon0) as [east | ?]; [| discriminate].
    cbn [mbind result_bind] in H.
    destruct (in_strings name _proj_north) eqn:Enorth; injection H as <- <-;
      (split; [reflexivity |]); do 4 eexists;
      (split; [reflexivity |]); repeat split; congruence.
  - assert (in_strings name _proj_north = false) as Hnorth.
    { destruct (in_strings name _proj_north) eqn:Hn; [| reflexivity].
      unfold _proj_polar in Ep.
      destruct name; try discriminate. unfold in_strings, mem_string in *.
      rewrite existsb_app, Hn in Ep. discriminate. }
    set (ext := List.map _ _) in H.
    destruct (existsb is_none ext) eqn:Ex.
    + destruct (py_sub (VInt 180) lon0) as [west | ?]; [| discriminate].
      destruct (py_add (VInt 180) lon0) as [east | ?]; [| discriminate].
      cbn [mbind result_bind] in H. injection H as <- <-.
      split; [reflexivity |]. do 4 eexists.
      split; [reflexivity |]. repeat split; congruence.
    + injection H as <- <-. split; [reflexivity |].
      unfold ext. cbn [List.map]. do 4 eexists.
      split; [reflexivity |]. repeat split; congruence.
Qed.

End BasemapInit.

Section IterGridlines.
Import BasemapAxes.

Lemma iterate_seq v : is_seq v = true -> iterate v = Ok (items v).
Proof. destruct v; try discriminate; reflexivity. Qed.

Lemma yield_from_items (gs : list pyval) :
  (forall g, g ∈ gs -> is_seq g = true) ->
  snd (yield_from yield_items gs) = None /\
  forall obj, obj ∈ fst (yield_from yield_items gs) <->
              exists g, g ∈ gs /\ obj ∈ items g.
Proof.
  induction gs as [| g gs IH]; intros H; simpl.
  - split; [reflexivity |]. intros obj. split.
    + intros Hin. inversion Hin.
    + intros (g & Hg & _). inversion Hg.
  - assert (yield_items g = (items g, None)) as Eg
      by (unfold yield_items; rewrite (iterate_seq g) by (apply H; left);
          reflexivity).
    rewrite Eg.
    destruct IH as [IHe IHm]; [intros g' Hg'; apply H; right; exact Hg' |].
    destruct (yield_from yield_items gs) as [zs e]. simpl in *. subst e.
    split; [reflexivity |]. intros obj. rewrite elem_of_app, IHm. split.
    + intros [Hin | (g' & Hg' & Hin)].
      * exists g. split; [left | exact Hin].
      * exists g'. split; [right; exact Hg' | exact Hin].
    + intros (g' & Hg' & Hin). apply elem_of_cons in Hg' as [-> | Hg'].
      * left. exact Hin.
      * right. exists g'. auto.
Qed.

(** X23. [_iter_gridlines] yields nothing for [None] and for an empty
    dict.  For a dict whose values are sequences of sequences, as basemap
    returns them, it never raises, and it yields exactly the objects of the
    groups of the values. *)
Theorem iter_gridlines_spec (d : kwargs) :
  _iter_gridlines VNone = ([], None) /\
  _iter_gridlines (VDict []) = ([], None) /\
  ((forall k v, (k, v) ∈ d ->
      is_seq v = true /\ forall g, g ∈ items v -> is_seq g = true) ->
   snd (_iter_gridlines (VDict d)) = None /\
   forall obj, obj ∈ fst (_iter_gridlines (VDict d)) <->
               exists k v g, (k, v) ∈ d /\ g ∈ items v /\ obj ∈ items g).
Proof.
  split; [reflexivity |]. split; [reflexivity |].
  intros Hwf. unfold _iter_gridlines. simpl truthy.
  destruct d as [| kv d0] eqn:Ed.
  { simpl. split; [reflexivity |]. intros obj. split.
    - intros H. inversion H.
    - intros (k & v & g & H & _). inversion H. }
  cbn [length Nat.eqb negb]. rewrite <- Ed in *. clear Ed kv d0.
  induction d as [| [k v] d IH]; simpl.
  - split; [reflexivity |]. intros obj. split.
    + intros H. inversion H.
    + intros (k & v & g & H & _). inversion H.
  - destruct (Hwf k v) as [Hv Hg]; [left |].
    rewrite (iterate_seq v Hv).
    destruct (yield_from_items (items v) Hg) as [He Hm].
    destruct (yield_from yield_items (items v)) as [ys e]. simpl in He, Hm. subst e.
    destruct IH as [IHe IHm]; [intros k' v' H'; apply (Hwf k' v'); right; exact H' |].
    destruct (yield_from _ (List.map snd d)) as [zs e]. simpl in *. subst e.
    split; [reflexivity |]. intros obj. rewrite elem_of_app, Hm, IHm. split.
    + intros [(g & Hg' & Hin) | (k' & v' & g & Hd & Hg' & Hin)].
      * exists k, v, g. split; [left | auto].
      * exists k', v', g. split; [right; exact Hd | auto].
    + intros (k' & v' & g & Hd & Hg' & Hin).
      apply elem_of_cons in Hd as [Heq | Hd].
      * injection Heq as -> ->. left. exists g. auto.
      * right. exists k', v', g. auto.
Qed.

End IterGridlines.

Section BasemapGridlines.
Import BasemapAxes.

(** The lines of an axis that are drawn, whose labels are not asked for and
    whose default flags are set, are not drawn again. *)
Lemma update_lines_kept (latmax grid : pyval) (name : axis_name)
    (method : string) (objs : pyval) (w : World) :
  get_lines name "minor" (self w) = Ok objs ->
  truthy objs = Ok true ->
  isDefault_minloc (axis_of name (self w)) = true ->
  only_calls (fun ev => draws ev = false) w
    (snd (update_lines "minor" latmax name grid (VList (replicate 4 VNone))
            method w)).
Proof.
  intros Hobjs Htruthy Hflag. unfold update_lines.
  cbn [not_none is_none negb replicate].
  erewrite bind_ok by reflexivity.
  erewrite bind_ok by reflexivity.
  rewrite Hobjs. erewrite bind_ok by reflexivity.
  apply run_bind.
  { destruct name; apply inv_at; inv_go only_calls_leaf. }
  intros lines w1 _ (Hs & _).
  rewrite Htruthy. erewrite bind_ok.
  2:{ erewrite bind_ok by reflexivity. cbn [negb].
      erewrite bind_ok by reflexivity. cbn [existsb not_none is_none negb orb take drop rev app].
      erewrite bind_ok by reflexivity. cbn [default_flags String.eqb].
      reflexivity. }
  replace (existsb (fun flag : GeoAxis -> bool => negb (flag (axis_of name (self w1))))
             (default_flags "minor")) with false
    by (cbn; rewrite Hs, Hflag; reflexivity).
  erewrite bind_ok by reflexivity.
  apply inv_at. inv_go only_calls_leaf.
Qed.

(** Minor lines that are drawn, on axes whose [isDefault_minloc] is set,
    are not drawn again. *)
Lemma minor_lines_kept (longrid latgrid : pyval) (w : World) :
  truthy (_lonlines_minor (self w)) = Ok true ->
  truthy (_latlines_minor (self w)) = Ok true ->
  isDefault_minloc (_lonaxis (self w)) = true ->
  isDefault_minloc (_lataxis (self w)) = true ->
  only_calls (fun ev => draws ev = false) w
    (snd (_update_minor_gridlines longrid latgrid w)).
Proof.
  intros Hlon Hlat Flon Flat.
  unfold _update_minor_gridlines, _update_gridlines. cbv zeta.
  apply run_bind; [reflexivity |]. intros latmax w1 Hl _.
  injection Hl as _ <-.
  cbn [for_each].
  apply run_bind.
  { apply (update_lines_kept latmax longrid Lon "drawmeridians"
             (_lonlines_minor (self w))); auto. }
  intros _ w1 _ (Hs1 & _).
  apply run_bind; [| reflexivity].
  apply (update_lines_kept latmax latgrid Lat "drawparallels"
           (_latlines_minor (self w))); rewrite ?Hs1; auto.
Qed.

(** X24. On a basemap axes whose minor meridians and parallels are drawn
    and whose two axes have [isDefault_minloc] set,
    [_update_minor_gridlines] draws nothing again: it calls neither
    [drawmeridians] nor [drawparallels] and changes no attribute of the
    axes.  This is still so after [set_minor_locator] has given an axis
    another minor locator, whatever its argument [default]. *)
Theorem basemap_minor_not_redrawn (ax : axis_name) (locator : pyval)
    (default : bool) (longrid latgrid : pyval) (w w1 : World) :
  truthy (_lonlines_minor (self w)) = Ok true ->
  truthy (_latlines_minor (self w)) = Ok true ->
  isDefault_minloc (_lonaxis (self w)) = true ->
  isDefault_minloc (_lataxis (self w)) = true ->
  (self (snd (_update_minor_gridlines longrid latgrid w)) = self w /\
   exists evs,
     log (snd (_update_minor_gridlines longrid latgrid w)) = log w ++ evs /\
     Forall (fun ev => draws ev = false) evs) /\
  (_GeoAxis.set_minor_locator ax locator default w = (Ok tt, w1) ->
   minor_locator (axis_of ax (self w1)) = locator /\
   self (snd (_update_minor_gridlines longrid latgrid w1)) = self w1 /\
   exists evs,
     log (snd (_update_minor_gridlines longrid latgrid w1)) = log w1 ++ evs /\
     Forall (fun ev => draws ev = false) evs).
Proof.
  intros Hlon Hlat Flon Flat. split.
  - destruct (minor_lines_kept longrid latgrid w Hlon Hlat Flon Flat)
      as (Hs & _ & _ & _ & He). auto.
  - intros Hset. apply set_minor_locator_ok in Hset. subst w1.
    split; [destruct ax; reflexivity |].
    destruct (minor_lines_kept longrid latgrid
                (mkWorld (env w)
                   (with_axis ax
                      (fun g => upd_isDefault_majfmt default
                                  (upd_minor_locator locator g)) (self w))
                   (heap w)
                   (log w ++ [Call "set_axis" [locator; _GeoAxis.self_ref ax] []])
                   (oracle w)))
      as (Hs & _ & _ & _ & He); try (destruct ax; assumption).
    auto.
Qed.

Lemma update_lines_labels which latmax name grid array method a b c d lon lat :
  iterate array = Ok [a; b; c; d] ->
  (method = "drawmeridians" -> lon = VList [a; b; d; c]) ->
  (method = "drawparallels" -> lat = VList [a; b; d; c]) ->
  inv (emitted (draws_with_labels lon lat))
    (update_lines which latmax name grid array method).
Proof.
  intros Hit Hlon Hlat w. unfold update_lines.
  assert (not_none array = true) as -> by (destruct array; try discriminate; reflexivity).
  rewrite Hit. erewrite bind_ok by reflexivity.
  apply inv_at. cbn [take drop rev app].
  inv_go ltac:(first
    [ apply emitted_modify_self
    | apply emitted_ext_call; split; intros Hfn;
      first [ discriminate Hfn
            | rewrite (Hlon Hfn); reflexivity
            | rewrite (Hlat Hfn); reflexivity ] ]).
Qed.

(** X25. The label toggles reach basemap in its own order: for arrays of
    four entries left, right, bottom, top, every call of [drawmeridians]
    that [_update_gridlines] makes passes the longitude array as left,
    right, top, bottom, and every call of [drawparallels] the latitude
    array so reordered; the calls that [_update_minor_gridlines] makes pass
    four [None]. *)
Theorem basemap_labels_order (which : string) (longrid latgrid : pyval)
    (lonarray latarray : pyval) (l r b t l' r' b' t' : pyval) (w : World) :
  iterate lonarray = Ok [l; r; b; t] ->
  iterate latarray = Ok [l'; r'; b'; t'] ->
  (exists evs,
     log (snd (_update_gridlines which longrid latgrid lonarray latarray w)) =
       log w ++ evs /\
     Forall (draws_with_labels (VList [l; r; t; b]) (VList [l'; r'; t'; b'])) evs) /\
  (exists evs,
     log (snd (_update_minor_gridlines longrid latgrid w)) = log w ++ evs /\
     Forall (draws_with_labels (VList (replicate 4 VNone))
               (VList (replicate 4 VNone))) evs).
Proof.
  intros Hlon Hlat. split.
  - apply (inv_at (R := emitted _)). unfold _update_gridlines.
    apply inv_bind; [inv_go emitted_leaf |]. intros latmax.
    cbn [for_each].
    apply inv_bind;
      [apply (update_lines_labels _ _ _ _ _ _ l r b t); auto; discriminate |].
    intros _. apply inv_bind; [| intros; apply inv_ret].
    apply (update_lines_labels _ _ _ _ _ _ l' r' b' t'); auto; discriminate.
  - apply (inv_at (R := emitted _)). unfold _update_minor_gridlines, _update_gridlines.
    cbv zeta. apply inv_bind; [inv_go emitted_leaf |]. intros latmax.
    cbn [for_each].
    apply inv_bind;
      [apply (update_lines_labels _ _ _ _ _ _ VNone VNone VNone VNone); auto;
       discriminate |].
    intros _. apply inv_bind; [| intros; apply inv_ret].
    apply (update_lines_labels _ _ _ _ _ _ VNone VNone VNone VNone); auto;
      discriminate.
Qed.

End BasemapGridlines.

Section BasemapFeatures.
Import BasemapAxes.

#[global] Instance features_wrapped_preorder : PreOrder features_wrapped.
Proof.
  split.
  - intros w name. left. reflexivity.
  - intros w1 w2 w3 H1 H2 name.
    destruct (H2 name) as [E2 | S2]; [| right; exact S2].
    rewrite E2. apply H1.
Qed.

Lemma features_wrapped_same w w' : self w' = self w -> features_wrapped w w'.
Proof. intros H name. left. rewrite H. reflexivity. Qed.

Lemma features_wrapped_store name feat :
  inv features_wrapped
    (modify_self
       (upd_features
          (dict_set name
             (if isinstance_any feat ["list"; "tuple"] then feat
              else VTuple [feat])))).
Proof.
  intros w n. cbn [snd modify_self self set_self upd_features _features].
  destruct (String.eqb_spec name n) as [<- | Hne].
  - right. eexists. split; [apply dict_get_set_eq |].
    destruct (isinstance_any feat ["list"; "tuple"]) eqn:E; [exact E | reflexivity].
  - left. apply dict_get_set_ne. exact Hne.
Qed.

(** X26. [BasemapAxes._update_features] stores a feature as a list or a
    tuple: after a call, whatever [rc] and basemap answer, each feature
    attribute is as it was or is a list or a tuple. *)
Theorem basemap_features_wrapped (BASEMAP_FEATURES : kwargs) (w : World) :
  features_wrapped w (snd (_update_features BASEMAP_FEATURES w)).
Proof.
  apply inv_at.
  inv_go ltac:(first
    [ apply features_wrapped_store
    | intros w0; apply features_wrapped_same; reflexivity ]).
Qed.

(** X27. On a basemap axes, switching off a feature that is drawn raises
    [AttributeError]: where the feature attribute is a tuple that is not
    empty and [rc] gives the feature a false value that is not [None],
    [_update_features] raises after the one call of [rc.get], because
    [set_visible] is called on the tuple and not on its items. *)
Theorem basemap_feature_off_raises (name : string) (method x : pyval)
    (rest : list pyval) (b : pyval) (w : World) :
  dict_get name (_features (self w)) = Some (VTuple (x :: rest)) ->
  oracle w (log w ++ [Call "rc.get" [VStr name] [("context", VBool true)]]) = Ok b ->
  is_none b = false -> truthy b = Ok false ->
  _update_features [(name, method)] w =
    (Raise AttributeError,
     set_log (log w ++ [Call "rc.get" [VStr name] [("context", VBool true)]]) w).
Proof.
  intros Hf Ho Hn Ht. unfold _update_features. cbn [for_each].
  erewrite bind_raise; [reflexivity |].
  unfold rc_get. erewrite bind_ok by (apply ext_call_ok; exact Ho).
  unfold not_none at 1. rewrite Hn. cbn [negb when].
  erewrite bind_ok by reflexivity.
  cbn [self set_log]. unfold dict_get_default. rewrite Hf. cbv zeta.
  rewrite Ht. erewrite bind_ok by reflexivity.
  cbn [negb not_none is_none when iterate].
  erewrite bind_ok by reflexivity. cbn [for_each call_method].
  reflexivity.
Qed.

Lemma basemap_feature_off_raises_witness :
  let w := mkWorld (Sample.environment true true)
             (upd_features (dict_set "coast" (VTuple [VObj ["LineCollection"] []]))
                Sample.blank_axes)
             ∅ [] (fun _ => Ok (VBool false)) in
  fst (_update_features [("coast", VStr "drawcoastlines")] w) = Raise AttributeError.
Proof.
  intros w.
  rewrite (basemap_feature_off_raises "coast" (VStr "drawcoastlines")
             (VObj ["LineCollection"] []) [] (VBool false) w); reflexivity.
Defined.

End BasemapFeatures.

Section BasemapPatches.
Import BasemapAxes.

(** X28. Every call by which [BasemapAxes._update_patches] updates the patch
    of the axes passes the face settings of [rc] overridden by [patch_kw],
    with [edgecolor] none whatever [rc] or [patch_kw] say of [edgecolor]. *)
Theorem basemap_update_patches_edge (face edge other : kwargs) (w : World) :
  let fill_face :=
    Call "rc.fill"
      [VDict [("facecolor", VStr "axes.facecolor"); ("alpha", VStr "axes.alpha")]]
      [("context", VBool true)] in
  let fill_edge :=
    Call "rc.fill"
      [VDict [("linewidth", VStr "axes.linewidth");
              ("edgecolor", VStr "axes.edgecolor")]]
      [("context", VBool true)] in
  oracle w (log w ++ [fill_face]) = Ok (VDict face) ->
  oracle w ((log w ++ [fill_face]) ++ [fill_edge]) = Ok (VDict edge) ->
  NoDup (List.map fst other) ->
  exists kw evs,
    log (snd (_update_patches (VDict other) w)) = log w ++ evs /\
    Forall (updates_patch_with kw) evs /\
    dict_get "edgecolor" kw = Some (VStr "none") /\
    (forall k v, k <> "edgecolor" -> dict_get k other = Some v ->
                 dict_get k kw = Some v) /\
    (forall k, k <> "edgecolor" -> dict_get k other = None ->
               dict_get k kw = dict_get k face).
Proof.
  intros fill_face fill_edge Hf He Hnd. subst fill_face fill_edge.
  exists (dict_set "edgecolor" (VStr "none") (dict_update face other)).
  assert (emitted (updates_patch_with
                     (dict_set "edgecolor" (VStr "none") (dict_update face other)))
            w (snd (_update_patches (VDict other) w))) as (evs & Hl & Hp).
  { unfold _update_patches.
    apply run_bind; [apply emitted_ext_call; discriminate |].
    intros kw_face w1 H1 _. rewrite (ext_call_ok _ _ _ _ _ Hf) in H1.
    injection H1 as <- <-.
    apply run_bind; [apply emitted_ext_call; discriminate |].
    intros kw_edge w1 H1 _. apply ext_call_inv in H1 as [Ho ->].
    cbn [oracle log set_log] in Ho. rewrite He in Ho. injection Ho as <-.
    apply run_bind; [reflexivity |]. intros kw w1 H1 _.
    apply lift_inv in H1 as [H1 ->].
    assert (kw = dict_update face other) as ->.
    { cbn in H1. destruct other; cbn in H1; injection H1 as <-; reflexivity. }
    apply inv_at.
    inv_go ltac:(first
      [ apply emitted_modify_self
      | apply emitted_ext_call; intros Hfn; first [discriminate Hfn | reflexivity] ]). }
  exists evs. split; [exact Hl |]. split; [exact Hp |].
  split; [apply dict_get_set_eq |]. split.
  - intros k v Hk Ho. rewrite dict_get_set_ne by congruence.
    rewrite (dict_get_update _ _ _ Hnd), Ho. reflexivity.
  - intros k Hk Ho. rewrite dict_get_set_ne by congruence.
    rewrite (dict_get_update _ _ _ Hnd), Ho. reflexivity.
Qed.

End BasemapPatches.

Section GridlineLabel.
Import CartopyAxes.

Lemma Qmod_range x m : 0 < m -> 0 <= Qmod x m /\ Qmod x m < m.
Proof.
  intros Hm. unfold Qmod.
  pose proof (Qfloor_le (x / m)) as Hlo.
  pose proof (Qlt_floor (x / m)) as Hhi.
  assert (~ m == 0) as Hm0 by lra.
  assert (x == m * (x / m)) as Hx by (field; exact Hm0).
  rewrite inject_Z_plus in Hhi. change (inject_Z 1) with 1 in Hhi.
  split.
  - assert (m * inject_Z (Qfloor (x / m)) <= m * (x / m)) as H
      by (apply Qmult_le_l; assumption).
    lra.
  - assert (m * (x / m) < m * (inject_Z (Qfloor (x / m)) + 1)) as H
      by (apply Qmult_lt_l; assumption).
    lra.
Qed.

(** The value that the function passes on for a longitude [x], where
    cartopy is older than 0.18. *)
Lemma wrap_number value x :
  number_of value = Some x ->
  exists v' y (k : Z),
    (x' ← py_add value (VInt 180); x' ← py_mod x' (VInt 360); py_sub x' (VInt 180))
      = Ok v' /\
    number_of v' = Some y /\ -180 <= y /\ y < 180 /\
    y == x - 360 * inject_Z k.
Proof.
  intros Hx. destruct (int_of value) as [n |] eqn:En.
  - assert (x = inject_Z n) as ->.
    { destruct value; try discriminate; simpl in *.
      - injection En as <-. injection Hx as <-. destruct b; reflexivity.
      - injection En as <-. injection Hx as <-. reflexivity. }
    exists (VInt ((n + 180) mod 360 - 180)),
           (inject_Z ((n + 180) mod 360 - 180)), ((n + 180) / 360)%Z.
    split.
    { unfold py_add. rewrite En. reflexivity. }
    split; [reflexivity |].
    pose proof (Z.mod_pos_bound (n + 180) 360 ltac:(lia)) as [Hlo Hhi].
    pose proof (Z.div_mod (n + 180) 360 ltac:(lia)) as Hdm.
    split; [| split].
    + change (-180) with (inject_Z (-180)). rewrite <- Zle_Qle. lia.
    + change 180 with (inject_Z 180). rewrite <- Zlt_Qlt. lia.
    + assert (((n + 180) mod 360 - 180 = n + - (360 * ((n + 180) / 360)))%Z) as E
        by lia.
      rewrite E, inject_Z_plus, inject_Z_opp, inject_Z_mult.
      change (inject_Z 360) with 360. ring.
  - assert (value = VFloat x) as ->.
    { destruct value; try discriminate. simpl in Hx. injection Hx as <-. reflexivity. }
    exists (VFloat (Qmod (x + 180) 360 - 180)), (Qmod (x + 180) 360 - 180),
           (Qfloor ((x + 180) / 360)).
    split; [reflexivity |]. split; [reflexivity |].
    destruct (Qmod_range (x + 180) 360 ltac:(lra)) as [Hlo Hhi].
    split; [lra |]. split; [lra |]. unfold Qmod. lra.
Qed.

(** X29. The label function bound to a gridliner passes its arguments on to
    cartopy's [_add_gridline_label] unchanged for cartopy 0.18 and later and
    for an axis other than x; for an older cartopy and the axis x it passes,
    in place of a number [x], the number in the range from -180 up to, not
    including, 180 that differs from [x] by a multiple of 360. *)
Theorem add_gridline_label_spec (gl value axis upper_end : pyval) (x : Q)
    (w : World) :
  (version_ltb (_version_cartopy (env w)) v0_18 && py_eq axis (VStr "x") = false ->
   _add_gridline_label gl value axis upper_end w =
     ext_call "type(self)._add_gridline_label" [gl; value; axis; upper_end] [] w) /\
  (version_ltb (_version_cartopy (env w)) v0_18 && py_eq axis (VStr "x") = true ->
   number_of value = Some x ->
   exists v' y (k : Z),
     _add_gridline_label gl value axis upper_end w =
       ext_call "type(self)._add_gridline_label" [gl; v'; axis; upper_end] [] w /\
     number_of v' = Some y /\ -180 <= y /\ y < 180 /\
     y == x - 360 * inject_Z k).
Proof.
  unfold _add_gridline_label.
  rewrite (bind_ok get_env _ w (env w) w) by reflexivity.
  split.
  - intros Hc. apply andb_false_iff in Hc as [-> | Hc].
    + erewrite bind_ok by reflexivity. reflexivity.
    + rewrite Hc. destruct (version_ltb _ _); erewrite bind_ok by reflexivity;
        reflexivity.
  - intros Hc Hx. apply andb_true_iff in Hc as [-> ->].
    destruct (wrap_number value x Hx) as (v' & y & k & Hv & Hrest).
    exists v', y, k. split; [| exact Hrest].
    rewrite Hv. erewrite bind_ok by reflexivity. reflexivity.
Qed.

Lemma add_gridline_label_spec_witness :
  let w := mkWorld (mkEnv true true (0, 17)%nat [] []) Sample.blank_axes ∅ []
             Sample.oracle in
  exists v' y (k : Z),
    _add_gridline_label VNone (VInt 190) (VStr "x") (VBool false) w =
      ext_call "type(self)._add_gridline_label"
        [VNone; v'; VStr "x"; VBool false] [] w /\
    number_of v' = Some y /\ -180 <= y /\ y < 180 /\
    y == 190 - 360 * inject_Z k.
Proof.
  intros w.
  apply (proj2 (add_gridline_label_spec VNone (VInt 190) (VStr "x") (VBool false)
                  190 w)); reflexivity.
Defined.

End GridlineLabel.

Section FormatFrames.

#[global] Instance boundinglat_to_preorder b : PreOrder (boundinglat_to b).
Proof.
  split.
  - intros w. left. reflexivity.
  - intros w1 w2 w3 H1 H2. unfold boundinglat_to in *.
    destruct H2 as [-> | ->]; auto.
Qed.

Ltac boundinglat_leaf :=
  first
    [ intros ?w; right; reflexivity
    | intros ?w; left;
      repeat match goal with ax : axis_name |- _ => destruct ax end;
      reflexivity
    | intros ?w; left; unfold py_setattr;
      match goal with
      | |- context [py_setattr ?obj _ _] => destruct obj
      | |- _ => idtac
      end; reflexivity ].

Lemma boundinglat_to_py_setattr b obj name v :
  inv (boundinglat_to b) (py_setattr obj name v).
Proof.
  intros w. left. unfold py_setattr.
  destruct obj as [| | | | | | | | | mro attrs | l]; try reflexivity.
  - unfold mbind, M_bind, ext_call. destruct (oracle w _); reflexivity.
  - simpl. destruct (heap w !! l); reflexivity.
Qed.

(** X30. A call of [format] never replaces the projection of the axes.
    On a cartopy axes the bounding latitude after the call is the one
    before it or the keyword [boundinglat]; on a basemap axes neither the
    bounding latitude nor the view interval of an axis changes, whatever
    the keywords. *)
Theorem format_frame (BASEMAP_FEATURES kw : kwargs) (w : World) :
  (let w' := snd (CartopyAxes.format kw w) in
   _map_projection (self w') = _map_projection (self w) /\
   (_boundinglat (self w') = _boundinglat (self w) \/
    _boundinglat (self w') = arg "boundinglat" kw) /\
   env w' = env w) /\
  map_frame (snd (BasemapAxes.format BASEMAP_FEATURES kw w)) = map_frame w.
Proof.
  split; [split; [| split] |].
  - apply (inv_at (R := kept (fun w => _map_projection (self w)))).
    inv_go kept_leaf.
  - apply (inv_at (R := boundinglat_to (arg "boundinglat" kw))).
    inv_go ltac:(first [apply boundinglat_to_py_setattr | boundinglat_leaf]).
  - apply (inv_at (R := kept env)). inv_go kept_leaf.
  - apply (inv_at (R := kept map_frame)). inv_go kept_leaf.
Qed.

End FormatFrames.

Lemma get_extent_repair_witness :
  let crs := Sample.plate_carree in
  let w := Sample2.global in
  let extent := VList [VInt (-180); VInt 180; VInt (-90); VInt 90] in
  CartopyAxes.get_extent crs w =
    (Ok extent, set_log (log w ++ [Call "super().get_extent" [] [("crs", crs)]]) w).
Proof.
  intros crs w extent.
  apply (proj1 (proj2 (proj2 (get_extent_repair crs extent
           [VInt (-180); VInt 180; VInt (-90); VInt 90] (-180) 90 w
           eq_refl eq_refl) eq_refl eq_refl eq_refl eq_refl))).
  unfold Qle. simpl. lia.
Defined.

Lemma update_extent_inert_witness :
  let w := Sample.cartopy_axes in
  let r := CartopyAxes._update_extent VNone VNone (VInt 60) w in
  self (snd r) = self w /\ heap (snd r) = heap w.
Proof.
  intros w r.
  destruct (proj2 (update_extent_inert VNone VNone (VInt 60) (VInt 0) w
                     ltac:(vm_compute; reflexivity))
              ltac:(vm_compute; reflexivity) eq_refl) as (Hs & Hh & _).
  split; [exact Hs | exact Hh].
Defined.

Lemma get_gridline_props_minor_witness :
  let w := mkWorld (Sample.environment true true) Sample.blank_axes ∅ []
             Sample2.below in
  fst (GeoAxes._get_gridline_props "minor" true w) =
    Ok (VDict [("zorder", VFloat (1 # 2))], VDict []).
Proof.
  intros w.
  apply (proj2 (get_gridline_props_minor "minor" true [] (VBool true) w
                  ltac:(discriminate) eq_refl eq_refl)).
Defined.

Lemma update_features_drawn_once_witness :
  let w := Sample2.with_coast in
  self (snd (CartopyAxes._update_features w)) = self w.
Proof.
  intros w. apply (update_features_drawn_once w).
  intros name args [H | []]. injection H as <- <-.
  eexists. split; reflexivity.
Defined.

Lemma cartopy_update_patches_override_witness :
  let w := Sample2.answering (VDict [("facecolor", VStr "white")]) Sample.blank_axes in
  exists kw_face rest,
    log (snd (CartopyAxes._update_patches (VDict [("facecolor", VStr "blue")]) w)) =
      [Call "rc.fill"
         [VDict [("facecolor", VStr "axes.facecolor"); ("alpha", VStr "axes.alpha")]]
         [("context", VBool true)];
       Call "rc.fill"
         [VDict [("edgecolor", VStr "geoaxes.edgecolor");
                 ("linewidth", VStr "geoaxes.linewidth")]]
         [("context", VBool true)];
       Call "self.background_patch.update" [VDict kw_face] []] ++ rest /\
    dict_get "facecolor" kw_face = Some (VStr "blue").
Proof.
  intros w.
  destruct (cartopy_update_patches_override [("facecolor", VStr "white")]
              [("facecolor", VStr "white")] [("facecolor", VStr "blue")] w
              eq_refl eq_refl)
    as (kw & rest & Hl & _ & Ho & _).
  { repeat constructor. intros H. inversion H. }
  exists kw, rest. split; [exact Hl |]. apply Ho. reflexivity.
Defined.

Lemma initial_extent_spec_witness :
  exists name,
    obj_getattr Sample.basemap "projection" = Ok name /\
    VInt 90 = VInt (if in_strings name BasemapAxes._proj_polar then 80 else 90).
Proof.
  destruct (initial_extent_spec Sample.basemap (VInt 0) (VInt 90)
              [VInt 180; VInt 180; VInt (-90); VInt 90] Sample.blank eq_refl)
    as (name & Hn & Hl & _).
  exists name. split; [exact Hn | exact Hl].
Defined.

Lemma basemap_minor_not_redrawn_witness :
  let w := Sample2.with_minor_lines in
  self (snd (BasemapAxes._update_minor_gridlines (VBool true) VNone w)) = self w.
Proof.
  intros w.
  apply (proj1 (basemap_minor_not_redrawn Lon VNone false (VBool true) VNone w w
                  eq_refl eq_refl eq_refl eq_refl)).
Defined.

Lemma basemap_labels_order_witness :
  let lonarray := VList [VInt 0; VInt 0; VInt 1; VInt 0] in
  let latarray := VList [VInt 1; VInt 0; VInt 0; VInt 0] in
  exists evs,
    log (snd (BasemapAxes._update_gridlines "major" VNone VNone lonarray latarray
                Sample2.with_minor_lines)) = evs /\
    Forall (draws_with_labels (VList [VInt 0; VInt 0; VInt 0; VInt 1])
              (VList [VInt 1; VInt 0; VInt 0; VInt 0])) evs.
Proof.
  intros lonarray latarray.
  destruct (proj1 (basemap_labels_order "major" VNone VNone lonarray latarray
                     (VInt 0) (VInt 0) (VInt 1) (VInt 0)
                     (VInt 1) (VInt 0) (VInt 0) (VInt 0)
                     Sample2.with_minor_lines eq_refl eq_refl))
    as (evs & Hl & Hp).
  exists evs. split; [exact Hl | exact Hp].
Defined.

Lemma basemap_update_patches_edge_witness :
  let w := Sample2.answering (VDict [("edgecolor", VStr "k")])
             (upd_map_projection Sample.basemap Sample.blank_axes) in
  exists kw evs,
    log (snd (BasemapAxes._update_patches (VDict [("alpha", VInt 1)]) w)) = evs /\
    Forall (updates_patch_with kw) evs /\
    dict_get "edgecolor" kw = Some (VStr "none") /\
    dict_get "alpha" kw = Some (VInt 1).
Proof.
  intros w.
  destruct (basemap_update_patches_edge [("edgecolor", VStr "k")]
              [("edgecolor", VStr "k")] [("alpha", VInt 1)] w eq_refl eq_refl)
    as (kw & evs & Hl & Hp & He & Ho & _).
  { repeat constructor. intros H. inversion H. }
  exists kw, evs. split; [exact Hl |]. split; [exact Hp |].
  split; [exact He |]. apply Ho; [discriminate | reflexivity].
Defined.

Lemma update_extent_limits_witness :
  let w := snd (CartopyAxes.format [] Sample.cartopy_axes) in
  let w' := snd (CartopyAxes._update_extent (VTuple [VInt 0; VInt 90]) VNone VNone w) in
  exists west east south north crs,
    last (log w') =
      Some (Call "super().set_extent" [VList [west; east; south; north]]
              [("crs", crs)]) /\
    east = VInt 90 /\ south = VInt (-90) /\ north = VInt 90.
Proof.
  intros w w'.
  destruct (update_extent_limits (VTuple [VInt 0; VInt 90]) VNone VNone
              (VInt 0) (VInt 90) VNone VNone w w'
              ltac:(vm_compute; reflexivity) eq_refl eq_refl eq_refl
              ltac:(vm_compute; reflexivity))
    as (lon0 & west & east & south & north & crs & _ & Hl & _ & He & Hs & Hn).
  exists west, east, south, north, crs. auto.
Defined.
